(** * Weak-lensing shear profiles and Kaiser-Squires maps

    A shallow embedding of [shear/profile.py] (class [Profile]), of
    [kappa/map.py] (class [KappaMap]) and of the two local functions of
    [densmodel/test.py], with the properties of their specification stated
    and proved over it.

    Numbers.  The Python code computes in IEEE double precision.  The
    embedding keeps the IEEE special values (the two infinities and NaN) and
    the rules by which numpy produces and propagates them, and computes
    exactly on finite values (over the rationals): rounding, overflow,
    underflow and the sign of zero are not modelled.  The statements are
    therefore about the operations that the code performs, in their order,
    about comparisons and counts, and about special values; where a
    statement needs a computed value to be finite or non-zero, this is a
    hypothesis on the computed value (an equation [... = Fin q]), not on
    the inputs.

    Errors.  A Python exception is a value of type [exn]; a computation that
    may raise returns a [result]. *)

From Stdlib Require Import ZArith QArith Qcanon Lqa String Ascii List.
From stdpp Require Import base list numbers strings.

Open Scope Qc_scope.

(** ** Exceptions *)

Inductive exn :=
  | ValueError
  | ZeroDivisionError
  | IndexError
  | NameError
  | InvalidInputError.

Inductive result (A : Type) :=
  | OK (a : A)
  | Err (e : exn).
Arguments OK {A} a.
Arguments Err {A} e.

#[global] Instance result_ret : MRet result := fun A a => OK a.
#[global] Instance result_bind : MBind result := fun A B k r =>
  match r with
  | OK a => k a
  | Err e => Err e
  end.

(** ** Extended numbers: numpy float64 with exact finite arithmetic *)

Inductive xnum :=
  | Fin (q : Qc)
  | PInf
  | NInf
  | NaN.

Definition qz (z : Z) : Qc := Q2Qc (inject_Z z).
Definition qfrac (n : Z) (d : positive) : Qc := Q2Qc (n # d).

Definition xzero : xnum := Fin 0.
Definition xone : xnum := Fin 1.
Definition xofZ (z : Z) : xnum := Fin (qz z).

Definition xneg (x : xnum) : xnum :=
  match x with
  | Fin q => Fin (- q)
  | PInf => NInf
  | NInf => PInf
  | NaN => NaN
  end.

Definition xadd (x y : xnum) : xnum :=
  match x, y with
  | NaN, _ | _, NaN => NaN
  | Fin a, Fin b => Fin (a + b)
  | PInf, NInf | NInf, PInf => NaN
  | PInf, _ | _, PInf => PInf
  | NInf, _ | _, NInf => NInf
  end.

Definition xsub (x y : xnum) : xnum := xadd x (xneg y).

(** Sign of a finite value, as a comparison with zero. *)
Definition qsign (q : Qc) : comparison := Qccompare q 0.

(** An infinity of the sign given by [c]; [Eq] stands for the product
    [0 * inf], which is NaN. *)
Definition inf_of_sign (c : comparison) : xnum :=
  match c with
  | Gt => PInf
  | Lt => NInf
  | Eq => NaN
  end.

Definition xsign (x : xnum) : comparison :=
  match x with
  | Fin q => qsign q
  | PInf => Gt
  | NInf => Lt
  | NaN => Eq
  end.

Definition xmul (x y : xnum) : xnum :=
  match x, y with
  | NaN, _ | _, NaN => NaN
  | Fin a, Fin b => Fin (a * b)
  | PInf, _ => inf_of_sign (xsign y)
  | NInf, _ => inf_of_sign (CompOpp (xsign y))
  | _, PInf => inf_of_sign (xsign x)
  | _, NInf => inf_of_sign (CompOpp (xsign x))
  end.

(** Float division as numpy does it on float64: no exception, [x/0] is an
    infinity of the sign of [x] (NaN for [0/0]), [x/inf] is zero. *)
Definition xdiv (x y : xnum) : xnum :=
  match x, y with
  | NaN, _ | _, NaN => NaN
  | Fin a, Fin b =>
      match qsign b with
      | Eq => inf_of_sign (qsign a)
      | _ => Fin (a / b)
      end
  | Fin _, _ => Fin 0
  | _, PInf | _, NInf => NaN
  | PInf, Fin b => match qsign b with Lt => NInf | _ => PInf end
  | NInf, Fin b => match qsign b with Lt => PInf | _ => NInf end
  end.

(** [x**2] on a float array is the elementwise square. *)
Definition xsq (x : xnum) : xnum := xmul x x.

Definition xabs (x : xnum) : xnum :=
  match x with
  | Fin q => match qsign q with Lt => Fin (- q) | _ => Fin q end
  | PInf | NInf => PInf
  | NaN => NaN
  end.

(** Comparisons: every comparison with NaN is false. *)
Definition xltb (x y : xnum) : bool :=
  match x, y with
  | NaN, _ | _, NaN => false
  | Fin a, Fin b => match Qccompare a b with Lt => true | _ => false end
  | NInf, NInf => false
  | NInf, _ => true
  | _, NInf => false
  | PInf, _ => false
  | _, PInf => true
  end.

Definition xeqb (x y : xnum) : bool :=
  match x, y with
  | Fin a, Fin b => match Qccompare a b with Eq => true | _ => false end
  | PInf, PInf | NInf, NInf => true
  | _, _ => false
  end.

Definition xleb (x y : xnum) : bool := xltb x y || xeqb x y.
Definition xgtb (x y : xnum) : bool := xltb y x.
Definition xgeb (x y : xnum) : bool := xleb y x.

(** [np.sum] of a one-dimensional float array. *)
Definition xsum (l : list xnum) : xnum := fold_left xadd l xzero.

(** ** Complex numbers (numpy complex128) *)

Record cplx := mkC { re : xnum; im : xnum }.

Definition of_real (x : xnum) : cplx := mkC x xzero.
Definition czero : cplx := mkC xzero xzero.

Definition cadd (a b : cplx) : cplx := mkC (xadd (re a) (re b)) (xadd (im a) (im b)).
Definition csub (a b : cplx) : cplx := mkC (xsub (re a) (re b)) (xsub (im a) (im b)).
Definition cmul (a b : cplx) : cplx :=
  mkC (xsub (xmul (re a) (re b)) (xmul (im a) (im b)))
      (xadd (xmul (re a) (im b)) (xmul (im a) (re b))).

(** Complex division as numpy's complex128 loop computes it (Smith's
    method). *)
Definition cdiv (a b : cplx) : cplx :=
  let in2r_abs := xabs (re b) in
  let in2i_abs := xabs (im b) in
  if xgeb in2r_abs in2i_abs then
    if xeqb in2r_abs xzero && xeqb in2i_abs xzero then
      mkC (xdiv (re a) in2r_abs) (xdiv (im a) in2r_abs)
    else
      let rat := xdiv (im b) (re b) in
      let scl := xdiv xone (xadd (re b) (xmul (im b) rat)) in
      mkC (xmul (xadd (re a) (xmul (im a) rat)) scl)
          (xmul (xsub (im a) (xmul (re a) rat)) scl)
  else
    let rat := xdiv (re b) (im b) in
    let scl := xdiv xone (xadd (im b) (xmul (re b) rat)) in
    mkC (xmul (xadd (xmul (re a) rat) (im a)) scl)
        (xmul (xsub (xmul (im a) rat) (re a)) scl).

(** ** Arrays *)

(** A one-dimensional array is a list; a two-dimensional array is the list
    of its rows (axis 0 first), all of one length. *)
Abbreviation matrix A := (list (list A)).

Definition nrows {A} (M : matrix A) : nat := length M.
Definition ncols {A} (M : matrix A) : nat := length (hd [] M).

Definition is_shape {A} (r c : nat) (M : matrix A) : Prop :=
  length M = r /\ Forall (fun row => length row = c) M.

(** [M[i, j]]: IndexError outside the array. *)
Definition mget {A} (M : matrix A) (i j : nat) : result A :=
  match M !! i with
  | Some row => match row !! j with Some x => OK x | None => Err IndexError end
  | None => Err IndexError
  end.

(** The entry [M[i, j]] of an array known to hold it ([d] otherwise). *)
Definition mnth {A} (d : A) (M : matrix A) (i j : nat) : A := nth j (nth i M []) d.

Definition tabulate {A} (n : nat) (f : nat -> A) : list A := f <$> seq 0 n.

Definition mtabulate {A} (r c : nat) (f : nat -> nat -> A) : matrix A :=
  tabulate r (fun i => tabulate c (fun j => f i j)).

Definition mmap {A B} (f : A -> B) (M : matrix A) : matrix B :=
  (fun row : list A => f <$> row) <$> M.

(** Length of one axis of the result of broadcasting, if the two lengths
    are compatible. *)
Definition bcast_dim (a b : nat) : option nat :=
  if (a =? b)%nat then Some a
  else if (a =? 1)%nat then Some b
  else if (b =? 1)%nat then Some a
  else None.

Definition bidx (len i : nat) : nat := if (len =? 1)%nat then 0%nat else i.

(** A binary elementwise operation on two-dimensional arrays, with numpy's
    broadcasting; ValueError when the shapes cannot be broadcast. *)
Definition ew2 {A B C} (dA : A) (dB : B) (f : A -> B -> C)
    (M : matrix A) (K : matrix B) : result (matrix C) :=
  match bcast_dim (nrows M) (nrows K), bcast_dim (ncols M) (ncols K) with
  | Some r, Some c =>
      OK (mtabulate r c (fun i j =>
            f (mnth dA M (bidx (nrows M) i) (bidx (ncols M) j))
              (mnth dB K (bidx (nrows K) i) (bidx (ncols K) j))))
  | _, _ => Err ValueError
  end.

(** [M[i, j] = v]: IndexError outside the array. *)
Definition mset {A} (M : matrix A) (i j : nat) (v : A) : result (matrix A) :=
  match M !! i with
  | Some row =>
      if decide (j < length row)%nat then OK (<[i := <[j := v]> row]> M)
      else Err IndexError
  | None => Err IndexError
  end.

(** Elementwise operations on arrays that have the same shape by
    construction. *)
Definition mzip {A B C} (f : A -> B -> C) (M : matrix A) (K : matrix B) : matrix C :=
  zip_with (zip_with f) M K.

(** [np.arange(a, b)] on integers. *)
Definition arange (a b : Z) : list Z :=
  (fun k => (a + Z.of_nat k)%Z) <$> seq 0 (Z.to_nat (b - a)).

(** [np.meshgrid(xs, ys, indexing='ij')]: the first result varies along
    axis 0, the second along axis 1. *)
Definition meshgrid_ij {A} (xs ys : list A) : matrix A * matrix A :=
  ((fun x => (fun _ => x) <$> ys) <$> xs, (fun _ => ys) <$> xs).

(** Names bound at module level: a name that is not bound (and is no
    builtin) raises NameError when it is read. *)
Definition name_bound (globals : list string) (name : string) : bool :=
  bool_decide (name ∈ globals).

Definition read_global {A} (globals : list string) (name : string) (v : A) : result A :=
  if name_bound globals name then OK v else Err NameError.

(** * [kappa/map.py] *)

Module kappa.

(** The names bound by the import statements and the assignments of
    [map.py]. *)
Definition module_globals : list string :=
  ["os"; "platform"; "datetime"; "np"; "pd"; "plt"; "LambdaCDM"; "gentools";
   "shear"; "fftpack"; "ndimage"; "Axes3D"; "cosmo"; "cvel"; "G"; "pc";
   "Msun"; "KappaMap"]%string.

(** [fftpack.fftfreq(n, d)]: the sample frequencies, zero first, then the
    positive ones, then the negative ones. *)
Definition fftfreq (n : nat) (d : xnum) : list xnum :=
  let val := xdiv (Fin 1) (xmul (xofZ (Z.of_nat n)) d) in
  let N := ((Z.of_nat n - 1) / 2 + 1)%Z in
  let p1 := arange 0 N in
  let p2 := arange (- (Z.of_nat n / 2)) 0 in
  (fun k => xmul (xofZ k) val) <$> (p1 ++ p2).

(** Modelled from the spec: the shear map built by [shear.ShearMap], whose
    source is not part of the repository files at hand; section 3 of the
    specification (ShearGrid) gives its fields: the two ellipticity
    components on a square grid and the grid coordinate arrays. *)
Record ShearMap := mkShearMap {
  sm_px : matrix xnum;
  sm_py : matrix xnum;
  sm_e1 : matrix xnum;
  sm_e2 : matrix xnum
}.

Record KappaMap := mkKappaMap {
  shear_map : ShearMap;
  px : matrix xnum;
  py : matrix xnum;
  bin_size : xnum * xnum;
  kappa : matrix cplx
}.

(** [KappaMap._conjugate_inversion_kernel] *)
Definition _conjugate_inversion_kernel (bin_size : xnum * xnum) (nbins : nat)
    : result (matrix cplx) :=
  let dx := fst bin_size in
  let dy := snd bin_size in
  let k_x0 := fftfreq nbins dx in
  let k_y0 := fftfreq nbins dy in
  let '(kx, ky) := meshgrid_ij k_x0 k_y0 in
  let kx2 := mmap xsq kx in
  let ky2 := mmap xsq ky in
  let two_j_kx := mmap (fun x => cmul (mkC xzero (xofZ 2)) (of_real x)) kx in
  let two_j_kx_ky := mzip (fun c y => cmul c (of_real y)) two_j_kx ky in
  let numer := mzip (fun r c => csub (of_real r) c) (mzip xsub kx2 ky2) two_j_kx_ky in
  let denom := mzip xadd kx2 ky2 in
  let T_Dconj := mzip (fun c r => cdiv c (of_real r)) numer denom in
  mset T_Dconj 0 0 czero.

Section KappaMap.

Context {Data Cosmo : Type}.

(** The constructor of [shear.ShearMap] and the two transforms of
    [scipy.fftpack] are taken as given. *)
Variable ShearMap_init : Data -> nat -> xnum -> option xnum -> Cosmo -> ShearMap.
Variable fft2 ifft2 : matrix cplx -> matrix cplx.

(** [KappaMap.__init__] *)
Definition KappaMap_init (data : option Data) (nbins : option nat)
    (gals_per_bins : xnum) (box_size_hMpc : option xnum) (cosmo : Cosmo)
    : result KappaMap :=
  match data with
  | None => Err ValueError
  | Some data =>
      nbins ← match nbins with
              | None => read_global module_globals "nGalaxies" 0%nat
              | Some n => OK n
              end;
      let shear_map := ShearMap_init data nbins gals_per_bins box_size_hMpc cosmo in
      let px := sm_px shear_map in
      let py := sm_px shear_map in
      px10 ← mget px 1 0;
      px00 ← mget px 0 0;
      let dx := xsub px10 px00 in
      py10 ← mget py 1 0;
      py00 ← mget py 0 0;
      let dy := xsub py10 py00 in
      let bin_size := (dx, dy) in
      j_e2 ← OK (mmap (fun x => cmul (mkC xzero xone) (of_real x)) (sm_e2 shear_map));
      gamma ← ew2 xzero czero (fun r c => cadd (of_real r) c) (sm_e1 shear_map) j_e2;
      let T_shear := fft2 gamma in
      T_Dconj ← _conjugate_inversion_kernel bin_size nbins;
      T_kappa ← ew2 czero czero cmul T_shear T_Dconj;
      OK (mkKappaMap shear_map px py bin_size (ifft2 T_kappa))
  end.

(** The two maps read off the result ([np.real(self.kappa)] and
    [np.imag(self.kappa)] in [QuickPlot] and [gaussian_filter]). *)
Definition kE (k : KappaMap) : matrix xnum := mmap re (kappa k).
Definition kB (k : KappaMap) : matrix xnum := mmap im (kappa k).

End KappaMap.

End kappa.

(** * numpy and astropy routines used by [shear/profile.py] *)

(** Boolean-mask indexing [arr[mask]]. *)
Fixpoint mask_select {A} (mask : list bool) (arr : list A) : list A :=
  match mask, arr with
  | b :: mask, x :: arr =>
      if b then x :: mask_select mask arr else mask_select mask arr
  | _, _ => []
  end.

(** Integer-array indexing [arr[idx]] (one row of indices): IndexError for
    an index outside the array. *)
Fixpoint fancy {A} (arr : list A) (idx : list nat) : result (list A) :=
  match idx with
  | [] => OK []
  | k :: idx =>
      match arr !! k with
      | Some x => rest ← fancy arr idx; OK (x :: rest)
      | None => Err IndexError
      end
  end.

(** [arr[idx]] for a two-dimensional array of indices. *)
Fixpoint fancy2 {A} (arr : list A) (idx : matrix nat) : result (matrix A) :=
  match idx with
  | [] => OK []
  | row :: idx => r ← fancy arr row; rest ← fancy2 arr idx; OK (r :: rest)
  end.

(** [np.average(a, weights=w)] on one-dimensional arrays:
    ZeroDivisionError when the weights sum to zero. *)
Definition np_average (a w : list xnum) : result xnum :=
  let scl := xsum w in
  if xeqb scl xzero then Err ZeroDivisionError
  else OK (xdiv (xsum (zip_with xmul a w)) scl).

(** [np.average(a, weights=w, axis=1)] on two-dimensional arrays:
    ZeroDivisionError when the weights of any row sum to zero. *)
Definition np_average_axis1 (a w : matrix xnum) : result (list xnum) :=
  let scl := xsum <$> w in
  if existsb (fun s => xeqb s xzero) scl then Err ZeroDivisionError
  else OK (zip_with xdiv (xsum <$> mzip xmul a w) scl).

Definition np_mean (l : list xnum) : xnum :=
  xdiv (xsum l) (xofZ (Z.of_nat (length l))).

(** numpy's comparison of floats in sorting and searching: NaN sorts
    last. *)
Definition npy_lt (a b : xnum) : bool :=
  xltb a b || (negb (xeqb b b) && xeqb a a).

(** The comparison of numpy's binary search for [side='right']. *)
Definition npy_le (a b : xnum) : bool := negb (npy_lt b a).

(** The loop [while (min_idx < max_idx)] of numpy's binary search for one
    key; it ends after at most [max_idx - min_idx] passes, and [fuel]
    bounds their number. *)
Fixpoint binsearch_loop (fuel : nat) (arr : list xnum) (key_val : xnum)
    (min_idx max_idx : nat) : nat * nat :=
  match fuel with
  | O => (min_idx, max_idx)
  | S fuel' =>
      if (min_idx <? max_idx)%nat then
        let mid_idx := (min_idx + (max_idx - min_idx) / 2)%nat in
        let mid_val := nth mid_idx arr NaN in
        if npy_le mid_val key_val then binsearch_loop fuel' arr key_val (S mid_idx) max_idx
        else binsearch_loop fuel' arr key_val min_idx mid_idx
      else (min_idx, max_idx)
  end.

(** The loop over the keys: the bounds left by the search of one key are
    the starting point of the search of the next one, [max_idx] or
    [min_idx] being reset according to the order of the two keys. *)
Fixpoint binsearch_keys (arr : list xnum) (keys : list xnum)
    (min_idx max_idx : nat) (last_key_val : xnum) : list nat :=
  match keys with
  | [] => []
  | key_val :: keys' =>
      let '(min_idx, max_idx) :=
        if npy_le last_key_val key_val then (min_idx, length arr)
        else (0%nat, if (max_idx <? length arr)%nat then S max_idx else length arr) in
      let '(min_idx, max_idx) := binsearch_loop (length arr) arr key_val min_idx max_idx in
      min_idx :: binsearch_keys arr keys' min_idx max_idx key_val
  end.

(** [np.searchsorted(a, v, side='right')] for an array of keys [v]. *)
Definition np_searchsorted_right (a : list xnum) (v : list xnum) : list nat :=
  match v with
  | [] => []
  | key_val :: _ => binsearch_keys a v 0 (length a) key_val
  end.

(** The index that the search returns on a sorted array: the first index
    whose element is greater than [v] (NaN counting as the greatest
    value), found by a scan from the left. *)
Fixpoint searchsorted_right (a : list xnum) (v : xnum) : nat :=
  match a with
  | [] => 0
  | x :: a' => if npy_lt v x then 0 else S (searchsorted_right a' v)
  end.

(** numpy's monotonicity check of the bins of [np.digitize]: 1 for a
    non-decreasing array, -1 for a non-increasing one, 0 otherwise. *)
Fixpoint skip_repeated (last : xnum) (a : list xnum) : list xnum :=
  match a with
  | x :: a' => if xeqb x last then skip_repeated last a' else a
  | [] => []
  end.

Fixpoint never_decreases (last : xnum) (a : list xnum) : bool :=
  match a with
  | [] => true
  | next :: a' => if xgtb last next then false else never_decreases next a'
  end.

Fixpoint never_increases (last : xnum) (a : list xnum) : bool :=
  match a with
  | [] => true
  | next :: a' => if xltb last next then false else never_increases next a'
  end.

Definition check_array_monotonic (a : list xnum) : Z :=
  match a with
  | [] => 1
  | last :: rest =>
      match skip_repeated last rest with
      | [] => 1
      | next :: rest' =>
          if xltb last next
          then (if never_decreases next rest' then 1 else 0)
          else (if never_increases next rest' then -1 else 0)
      end
  end%Z.

(** [np.digitize(x, bins)] with [right=False]. *)
Definition np_digitize (x : list xnum) (bins : list xnum) : result (list Z) :=
  let mono := check_array_monotonic bins in
  if (mono =? 0)%Z then Err ValueError
  else if (mono =? -1)%Z then
    OK ((fun k => (Z.of_nat (length bins) - Z.of_nat k)%Z)
          <$> np_searchsorted_right (reverse bins) x)
  else
    OK (Z.of_nat <$> np_searchsorted_right bins x).

(** [np.zeros(n)] and [np.ones(n)], an array of [n] copies of [value]:
    ValueError for a negative length. *)
Definition np_full {A} (value : A) (n : Z) : result (list A) :=
  if (n <? 0)%Z then Err ValueError else OK (replicate (Z.to_nat n) value).

(** The double nearest to pi, [np.pi]. *)
Definition np_pi : Qc := qfrac 884279719003555 281474976710656.

(** [np.deg2rad(x)] is [x * (pi / 180)]. *)
Definition np_deg2rad (x : xnum) : xnum := xmul x (Fin (np_pi / qz 180)).

(** The routines whose results are transcendental or irrational, and the
    routines of [gentools] (whose sources are not among the files at
    hand), are taken as given: each is a function of its arguments. *)
Class External := {
  np_sqrt : xnum -> xnum;
  np_geomspace : xnum -> xnum -> Z -> result (list xnum);
  np_linspace : xnum -> xnum -> Z -> result (list xnum);
  (** [gentools.sphere_angular_vector(ra, dec, ra0, dec0, units='deg')],
      for one galaxy: angular distance and position angle. *)
  sphere_angular_vector : xnum -> xnum -> xnum -> xnum -> xnum * xnum;
  (** [gentools.polar_rotation(e1, e2, theta)], for one galaxy. *)
  polar_rotation : xnum -> xnum -> xnum -> xnum * xnum
}.

(** numpy's global random generator: its state, [np.random.seed] and
    [np.random.randint(low=0, high, size)], which draws [size] integers
    below [high] and advances the state. *)
Class NumpyRandom := {
  RNG : Type;
  rng_seed : Z -> RNG;
  rng_randint : RNG -> nat -> nat -> list nat * RNG;
  rng_randint_length : forall s high size,
    length (fst (rng_randint s high size)) = size;
  rng_randint_range : forall s high size,
    (0 < high)%nat -> Forall (fun k => (k < high)%nat) (fst (rng_randint s high size))
}.

(** [np.std(l)] *)
Definition np_std `{External} (l : list xnum) : xnum :=
  let arrmean := np_mean l in
  np_sqrt (np_mean ((fun x => xsq (xsub x arrmean)) <$> l)).

(** The loop of [astropy.stats.bootstrap]: each pass draws the indices of
    one resample with the global generator and stores [data[bootarr]] as
    the next row. *)
Fixpoint bootstrap_loop `{NumpyRandom} {A} (data : list A) (bootnum : nat) (s : RNG)
    : result (matrix A) * RNG :=
  match bootnum with
  | O => (OK [], s)
  | S k =>
      let '(bootarr, s1) := rng_randint s (length data) (length data) in
      match fancy data bootarr with
      | Err e => (Err e, s1)
      | OK row =>
          let '(rest, s2) := bootstrap_loop data k s1 in
          (rows ← rest; OK (row :: rows), s2)
      end
  end.

(** [astropy.stats.bootstrap(data, bootnum)]: [bootnum] resamples of
    [data], each of the length of [data]; ValueError when the number of
    samples or the number of resamples is less than one. *)
Definition bootstrap `{NumpyRandom} {A} (data : list A) (bootnum : nat) (s : RNG)
    : result (matrix A) * RNG :=
  let samples := length data in
  if decide (samples < 1 \/ bootnum < 1)%nat then (Err ValueError, s)
  else bootstrap_loop data bootnum s.

(** * [shear/profile.py] *)

Module shear.

(** The names bound by the import statements and the assignments of
    [profile.py]. *)
Definition module_globals : list string :=
  ["os"; "platform"; "np"; "pd"; "fits"; "Table"; "bootstrap";
   "NumpyRNGContext"; "LambdaCDM"; "gentools"; "cosmo"; "cvel"; "G"; "pc";
   "Msun"; "Profile"]%string.

Definition cvel : xnum := xofZ 299792458.
Definition G : xnum := Fin (qfrac 667 10000000000000).
Definition pc : xnum := xofZ 30856780000000000.
Definition Msun : xnum := xofZ 1989000000000000000000000000000.

(** One row of the catalog. *)
Record galaxy := mkGalaxy {
  RAJ2000 : xnum;
  DECJ2000 : xnum;
  RA : xnum;
  DEC : xnum;
  e1 : xnum;
  e2 : xnum;
  m : xnum;
  weight : xnum;
  DL : xnum;
  DS : xnum;
  DLS : xnum
}.

(** The catalog handed to the constructor: a pandas DataFrame, or a table
    with named columns (an astropy Table or a numpy record array). *)
Inductive catalog :=
  | DataFrame (rows : list galaxy)
  | Table (rows : list galaxy).

(** The value bound to [cat] inside the constructor: a table with named
    columns, or the plain two-dimensional array that [DataFrame.to_numpy]
    returns, which has no named columns. *)
Inductive cat_array :=
  | Named (rows : list galaxy)
  | Plain (rows : list galaxy).

(** [cat['name']]: IndexError on a plain array. *)
Definition column (cat : cat_array) (field : galaxy -> xnum) : result (list xnum) :=
  match cat with
  | Named rows => OK (field <$> rows)
  | Plain _ => Err IndexError
  end.

(** The [bins] argument: a number of bins or an array of edges. *)
Inductive bins_arg :=
  | BinsInt (n : Z)
  | BinsArray (edges : list xnum).

Record Profile := mkProfile {
  Mpc_scale : list xnum;
  beta : list xnum;
  sigma_critic : list xnum;
  bins : list xnum;
  r_hMpc : list xnum;
  shear : list xnum;
  cero : list xnum;
  shear_error : list xnum;
  cero_error : list xnum;
  stat_error : list xnum;
  N : list Z
}.

(** [Profile.set_Mpc_scale] *)
Definition set_Mpc_scale (dl : list xnum) : list xnum :=
  (fun d => xmul d (np_deg2rad (xdiv (Fin 1) (xofZ 3600)))) <$> dl.

(** [Profile.set_sigma_critic]: [beta] and [sigma_critic]. *)
Definition set_sigma_critic (dl ds dls : list xnum) : list xnum * list xnum :=
  let beta := zip_with xdiv dls ds in
  let sigma_critic :=
    zip_with (fun d b =>
      xmul (xmul (xdiv (xsq cvel)
                       (xmul (xmul (xmul (xofZ 4) (Fin np_pi)) G)
                             (xmul (xmul d (xofZ 1000000)) pc)))
                 (xdiv (Fin 1) b))
           (xdiv (xsq pc) Msun)) dl beta in
  (beta, sigma_critic).

Section Profile.

Context `{Ext : External} `{Rnd : NumpyRandom}.

(** [Profile._boot_error].  [NumpyRNGContext(seed=1)] saves the state of
    the global generator, seeds it with 1 for the body of the [with]
    block and puts the saved state back when the block is left. *)
Definition _boot_error (shear cero weight : list xnum) (nboot : nat) (s : RNG)
    : result (xnum * xnum) * RNG :=
  let index := seq 0 (length shear) in
  let startstate := s in
  let '(bootresult, _) := bootstrap index nboot (rng_seed 1) in
  let s := startstate in
  (index_boot ← bootresult;
   shear_boot ← fancy2 shear index_boot;
   cero_boot ← fancy2 cero index_boot;
   weight_boot ← fancy2 weight index_boot;
   shear_means ← np_average_axis1 shear_boot weight_boot;
   cero_means ← np_average_axis1 cero_boot weight_boot;
   OK (np_std shear_means, np_std cero_means),
   s).

(** The arrays written by the loop over the bins. *)
Record bin_arrays := mkBinArrays {
  a_shear : list xnum;
  a_cero : list xnum;
  a_shear_error : list xnum;
  a_cero_error : list xnum;
  a_stat_error : list xnum;
  a_m_cal : list xnum;
  a_N : list Z
}.

(** The per-galaxy arrays read by the loop. *)
Record galaxy_arrays := mkGalaxyArrays {
  g_digit : list Z;
  g_weight : list xnum;
  g_m : list xnum;
  g_et : list xnum;
  g_ex : list xnum;
  g_sigma_critic : list xnum
}.

Definition bin_mask (g : galaxy_arrays) (i : nat) : list bool :=
  (fun d => bool_decide (d = Z.of_nat i)) <$> g_digit g.

Definition mask_sum (mask : list bool) : Z :=
  Z.of_nat (length (filter (fun b => b = true) mask)).

(** The body of the loop [for i in range(nbin)]. *)
Definition bin_body (g : galaxy_arrays) (boot_flag : bool) (boot_n : nat)
    (i : nat) (a : bin_arrays) (s : RNG) : result bin_arrays * RNG :=
  let mask := bin_mask g i in
  let a := mkBinArrays (a_shear a) (a_cero a) (a_shear_error a) (a_cero_error a)
             (a_stat_error a) (a_m_cal a) (<[i := mask_sum mask]> (a_N a)) in
  if decide (a_N a !! i = Some 0%Z) then (OK a, s)
  else
    let sc := mask_select mask (g_sigma_critic g) in
    let weight := zip_with xdiv (mask_select mask (g_weight g)) (xsq <$> sc) in
    match np_average (mask_select mask (g_m g)) weight with
    | Err e => (Err e, s)
    | OK avg_m =>
    let m_cal_i := xadd (Fin 1) avg_m in
    let et_sc := zip_with xmul (mask_select mask (g_et g)) sc in
    let ex_sc := zip_with xmul (mask_select mask (g_ex g)) sc in
    match np_average et_sc weight with
    | Err e => (Err e, s)
    | OK avg_t =>
    match np_average ex_sc weight with
    | Err e => (Err e, s)
    | OK avg_x =>
    let stat_error_num :=
      xsum ((fun x => xsq x)
              <$> zip_with xmul ((fun w => xmul (Fin (qfrac 1 4)) w) <$> weight) sc) in
    let stat_error_den := xsq (xsum weight) in
    let a := mkBinArrays
               (<[i := xdiv avg_t m_cal_i]> (a_shear a))
               (<[i := xdiv avg_x m_cal_i]> (a_cero a))
               (a_shear_error a) (a_cero_error a)
               (<[i := xdiv (np_sqrt (xdiv stat_error_num stat_error_den)) m_cal_i]>
                  (a_stat_error a))
               (<[i := m_cal_i]> (a_m_cal a))
               (a_N a) in
    if boot_flag then
      match _boot_error et_sc ex_sc weight boot_n s with
      | (Err e, s) => (Err e, s)
      | (OK (err_t, err_x), s) =>
          (OK (mkBinArrays (a_shear a) (a_cero a)
                 (<[i := xdiv err_t m_cal_i]> (a_shear_error a))
                 (<[i := xdiv err_x m_cal_i]> (a_cero_error a))
                 (a_stat_error a) (a_m_cal a) (a_N a)), s)
      end
    else (OK a, s)
    end end end.

(** The loop [for i in range(nbin)], from bin [i] on. *)
Fixpoint bin_loop (g : galaxy_arrays) (boot_flag : bool) (boot_n : nat)
    (i count : nat) (a : bin_arrays) (s : RNG) : result bin_arrays * RNG :=
  match count with
  | O => (OK a, s)
  | S count =>
      match bin_body g boot_flag boot_n i a s with
      | (Err e, s) => (Err e, s)
      | (OK a, s) => bin_loop g boot_flag boot_n (S i) count a s
      end
  end.

(** The edges of the bins (the first part of [Profile.__init__]).  For
    edges given as an array the code reads [self.bins[0]] and
    [self.bins[-1]], which raises IndexError on an empty array. *)
Definition make_bins (rin_hMpc rout_hMpc : xnum) (bins : bins_arg) (space : string)
    : result (list xnum) :=
  match bins with
  | BinsInt n =>
      if String.eqb space "log" then np_geomspace rin_hMpc rout_hMpc (n + 1)
      else np_linspace rin_hMpc rout_hMpc (n + 1)
  | BinsArray edges =>
      match edges with
      | [] => Err IndexError
      | _ :: _ => OK edges
      end
  end.

(** The per-galaxy quantities computed before the loop: projected
    distance and the two rotated ellipticity components. *)
Definition galaxy_geometry (h : xnum) (scale : xnum) (gal : galaxy) : xnum * xnum * xnum :=
  let '(dist, theta) :=
    sphere_angular_vector (RAJ2000 gal) (DECJ2000 gal) (RA gal) (DEC gal) in
  let theta := xadd theta (xofZ 90) in
  let dist_hMpc := xmul (xmul (xmul dist (xofZ 3600)) scale) h in
  let '(et, ex) := polar_rotation (e1 gal) (e2 gal) (np_deg2rad theta) in
  (dist_hMpc, et, ex).

(** [Profile.__init__]; [h] is [cosmo.h]. *)
Definition Profile_init (cat : catalog) (rin_hMpc rout_hMpc : xnum)
    (bins : bins_arg) (space : string) (h : xnum)
    (boot_flag : bool) (boot_n : nat) (s : RNG) : result Profile * RNG :=
  let cat := match cat with DataFrame rows => Plain rows | Table rows => Named rows end in
  let before_loop :=
    dl ← column cat DL;
    let Mpc_scale := set_Mpc_scale dl in
    dl ← column cat DL;
    ds ← column cat DS;
    dls ← column cat DLS;
    let '(beta, sigma_critic) := set_sigma_critic dl ds dls in
    rows ← match cat with Named rows => OK rows | Plain _ => Err IndexError end;
    let geometry := zip_with (galaxy_geometry h) Mpc_scale rows in
    let dist_hMpc := (fun t => fst (fst t)) <$> geometry in
    let et := (fun t => snd (fst t)) <$> geometry in
    let ex := snd <$> geometry in
    bins ← make_bins rin_hMpc rout_hMpc bins space;
    let nbin := (Z.of_nat (length bins) - 1)%Z in
    digitized ← np_digitize dist_hMpc bins;
    let digit := (fun d => (d - 1)%Z) <$> digitized in
    let r_hMpc :=
      (fun x => xmul (Fin (qfrac 1 2)) x)
        <$> zip_with xadd (removelast bins) (tail bins) in
    shear ← np_full xzero nbin;
    cero ← np_full xzero nbin;
    shear_error ← np_full xzero nbin;
    cero_error ← np_full xzero nbin;
    stat_error ← np_full xzero nbin;
    m_cal ← np_full (Fin 1) nbin;
    N ← np_full 0%Z nbin;
    cat_weight ← column cat weight;
    cat_m ← column cat m;
    OK (Mpc_scale, beta, sigma_critic, bins, r_hMpc, nbin,
        mkBinArrays shear cero shear_error cero_error stat_error m_cal N,
        mkGalaxyArrays digit cat_weight cat_m et ex sigma_critic) in
  match before_loop with
  | Err e => (Err e, s)
  | OK (Mpc_scale, beta, sigma_critic, bins, r_hMpc, nbin, a, g) =>
      match bin_loop g boot_flag boot_n 0 (Z.to_nat nbin) a s with
      | (Err e, s) => (Err e, s)
      | (OK a, s) =>
          (OK (mkProfile Mpc_scale beta sigma_critic bins r_hMpc
                 (a_shear a) (a_cero a) (a_shear_error a) (a_cero_error a)
                 (a_stat_error a) (a_N a)), s)
      end
  end.

End Profile.

(** ** [Profile.write_to] *)

Definition nl : string := String (ascii_of_nat 10) EmptyString.

(** ['-'*n] *)
Definition dashes (n : nat) : string := string_of_list_ascii (repeat "-"%char n).

(** [s.ljust(width)]; a string is the sequence of its characters, each of
    them one [ascii] (code points below 256). *)
Definition ljust (s : string) (width : nat) : string :=
  (s ++ string_of_list_ascii (repeat " "%char (width - String.length s)))%string.

(** [' '.join(parts)] *)
Fixpoint join_space (parts : list string) : string :=
  match parts with
  | [] => EmptyString
  | [p] => p
  | p :: rest => p ++ " " ++ join_space rest
  end%string.

(** [np.column_stack] of one-dimensional arrays of one length. *)
Definition column_stack (cols : list (list xnum)) : matrix xnum :=
  match cols with
  | [] => []
  | c :: _ => tabulate (length c) (fun i => (fun col => nth i col xzero) <$> cols)
  end.

Section write_to.

(** The rendering of a float by the C format [%12.6f] is taken as
    given. *)
Variable fmt_12_6f : xnum -> string.

(** [np.savetxt(f, p, fmt=['%12.6f']*6)]: the text appended to [f]. *)
Definition savetxt (p : matrix xnum) : string :=
  fold_right (fun row acc => join_space (fmt_12_6f <$> row) ++ nl ++ acc)%string
    EmptyString p.

(** [Profile.write_to].  [file] is the content of the file before the call
    and the first component of the result its content after the call (the
    file is opened for appending and closed when the [with] block is left,
    also by an exception).  [header] holds the keys and the renderings
    [str(value)] of the values, in the order of the dictionary; [now] is
    the text that [datetime.datetime.now().strftime('%Y-%m-%d %H:%M:%S')]
    yields. *)
Definition write_to (self : Profile) (file : string)
    (header : option (list (string * string))) (colnames : bool) (now : string)
    : string * result unit :=
  let f := file in
  let f := (f ++ ("# " ++ dashes 48 ++ nl))%string in
  let f := (f ++ ("# Lensing profile " ++ nl))%string in
  let f :=
    match header with
    | Some items =>
        fold_left (fun f kv =>
          (f ++ ("# " ++ ljust (fst kv) 14 ++ " = " ++ snd kv ++ nl))%string) items f
    | None => f
    end in
  let f := (f ++ ("# " ++ nl))%string in
  match read_global module_globals "datetime" now with
  | Err e => (f, Err e)
  | OK stamp =>
      let f := (f ++ ("# " ++ stamp ++ nl))%string in
      let f := (f ++ ("# " ++ dashes 48 ++ nl))%string in
      let C := if colnames then " "%string else "# "%string in
      let f := (f ++ (C ++ "r_hMpc, shear, shear_error, cero, cero_error, stat_error " ++ nl))%string in
      let p := column_stack [r_hMpc self; shear self; shear_error self;
                             cero self; cero_error self; stat_error self] in
      let f := (f ++ savetxt p)%string in
      (f, OK tt)
  end.

End write_to.

End shear.

(** * Concrete instances, on which the definitions can be run *)

Module Examples.

(** A square root that is exact on squares of rationals and rounds down
    the numerator otherwise. *)
Definition ex_sqrt (x : xnum) : xnum :=
  match x with
  | Fin q =>
      match qsign q with
      | Lt => NaN
      | _ => Fin (Q2Qc (Z.sqrt (Qnum (this q) * Zpos (Qden (this q))) # Qden (this q)))
      end
  | PInf => PInf
  | NInf => NaN
  | NaN => NaN
  end.

(** Evenly spaced edges, end points included. *)
Definition ex_linspace (start stop : xnum) (num : Z) : result (list xnum) :=
  if (num <? 0)%Z then Err ValueError
  else
    let step := xdiv (xsub stop start) (xofZ (num - 1)) in
    OK ((fun k => xadd start (xmul (xofZ (Z.of_nat k)) step)) <$> seq 0 (Z.to_nat num)).

(** Stand-ins for the routines of [gentools]: the separation along the
    right ascension, a zero position angle, and no rotation. *)
#[local] Instance ex_external : External := {|
  np_sqrt := ex_sqrt;
  np_geomspace := fun _ _ _ => Err ValueError;
  np_linspace := ex_linspace;
  sphere_angular_vector := fun ra dec ra0 dec0 => (xabs (xsub ra ra0), xzero);
  polar_rotation := fun e1 e2 theta => (e1, e2)
|}.

(** A generator whose state is a counter. *)
Definition ex_randint (s high size : nat) : list nat * nat :=
  ((fun i => (s + i) mod high)%nat <$> seq 0 size, (s + size)%nat).

Lemma ex_randint_length s high size : length (fst (ex_randint s high size)) = size.
Proof. unfold ex_randint; simpl. by rewrite length_fmap, length_seq. Qed.

Lemma ex_randint_range s high size :
  (0 < high)%nat -> Forall (fun k => (k < high)%nat) (fst (ex_randint s high size)).
Proof.
  intros Hh. unfold ex_randint; simpl. apply Forall_fmap, Forall_forall.
  intros i _. simpl. apply Nat.mod_upper_bound. lia.
Qed.

#[local] Instance ex_random : NumpyRandom := {|
  RNG := nat;
  rng_seed := Z.to_nat;
  rng_randint := ex_randint;
  rng_randint_length := ex_randint_length;
  rng_randint_range := ex_randint_range
|}.

(** The discrete Fourier transform with the twiddle factors [w]: [w k]
    stands for the [k]-th power of the primitive root of unity. *)
Definition csum (l : list cplx) : cplx := fold_left cadd l czero.

Definition dft1 (w : nat -> cplx) (xs : list cplx) : list cplx :=
  tabulate (length xs) (fun k => csum (imap (fun j x => cmul x (w (j * k)%nat)) xs)).

Definition transpose {A} (d : A) (M : matrix A) : matrix A :=
  mtabulate (ncols M) (nrows M) (fun j i => mnth d M i j).

Definition dft2 (w : nat -> cplx) (M : matrix cplx) : matrix cplx :=
  transpose czero (dft1 w <$> transpose czero (dft1 w <$> M)).

(** On a grid of two by two points the root of unity is [-1]. *)
Definition w2 (k : nat) : cplx := if Nat.even k then mkC xone xzero else mkC (xofZ (-1)) xzero.

Definition ex_fft2 (M : matrix cplx) : matrix cplx := dft2 w2 M.
Definition ex_ifft2 (M : matrix cplx) : matrix cplx :=
  mmap (fun c => cmul c (mkC (Fin (qfrac 1 4)) xzero)) (dft2 w2 M).

(** A shear map on two by two points of spacing one half. *)
Definition ex_shear_map : kappa.ShearMap :=
  kappa.mkShearMap
    [[Fin 0; Fin 0]; [Fin (qfrac 1 2); Fin (qfrac 1 2)]]
    [[Fin 0; Fin (qz 3)]; [Fin 0; Fin (qz 3)]]
    [[Fin 1; Fin 0]; [Fin 0; Fin (qz (-1))]]
    [[Fin 0; Fin (qfrac 1 2)]; [Fin (qfrac 1 2); Fin 0]].

Definition ex_ShearMap_init (data : unit) (nbins : nat) (gals_per_bins : xnum)
    (box_size_hMpc : option xnum) (cosmo : unit) : kappa.ShearMap := ex_shear_map.

(** A stand-in for the format [%12.6f]. *)
Definition ex_fmt (x : xnum) : string := "    0.000000"%string.

(** A profile of two bins, all zero. *)
Definition ex_profile : shear.Profile :=
  shear.mkProfile [] [] [] [Fin 1; Fin (qz 2); Fin (qz 3)]
    [Fin (qfrac 3 2); Fin (qfrac 5 2)] [Fin 0; Fin 0] [Fin 0; Fin 0] [Fin 0; Fin 0]
    [Fin 0; Fin 0] [Fin 0; Fin 0] [0%Z; 0%Z].

(** A second constructor of shear maps: the same map with other
    [py] coordinates. *)
Definition ex_ShearMap_init' (data : unit) (nbins : nat) (gals_per_bins : xnum)
    (box_size_hMpc : option xnum) (cosmo : unit) : kappa.ShearMap :=
  kappa.mkShearMap (kappa.sm_px ex_shear_map)
    [[Fin 0; Fin (qz 7)]; [Fin 0; Fin (qz 7)]]
    (kappa.sm_e1 ex_shear_map) (kappa.sm_e2 ex_shear_map).

(** A galaxy at right ascension [ra] (the lens is at the origin). *)
Definition ex_galaxy (ra e1 e2 m w : Qc) : shear.galaxy :=
  shear.mkGalaxy (Fin ra) (Fin 0) (Fin 0) (Fin 0) (Fin e1) (Fin e2) (Fin m) (Fin w)
    (xofZ 1000) (xofZ 1000) (xofZ 500).

(** A catalog of three galaxies, and edges of two bins of which the
    second holds no galaxy. *)
Definition ex_rows : list shear.galaxy :=
  [ex_galaxy (qz 1) (qfrac 1 10) 0 0 1;
   ex_galaxy (qz 2) (qfrac 1 5) 0 (qfrac 1 10) 1;
   ex_galaxy (qz 100) (qfrac 1 5) (qfrac 1 10) 0 (qz 2)].

Definition ex_edges : list xnum := [Fin 1; Fin (qz 3000); Fin (qz 6000)].

Definition ex_h : xnum := Fin (qfrac 7 10).

End Examples.

(** * The statements of the specification, as definitions *)

(** A two-dimensional array given by a function of the coordinates of its
    two axes. *)
Definition grid {X Y A} (F : X -> Y -> A) (xs : list X) (ys : list Y) : matrix A :=
  (fun x => (fun y => F x y) <$> ys) <$> xs.

(** The standard FFT frequency ordering: the integer frequency at index
    [i] of a transform of length [n]. *)
Definition freq_index (n i : nat) : Z :=
  if decide (Z.of_nat i < (Z.of_nat n - 1) / 2 + 1)%Z then Z.of_nat i
  else (Z.of_nat i - Z.of_nat n)%Z.

(** The frequency at index [i] for a grid of [n] points of spacing [d]. *)
Definition freq (n : nat) (d : Qc) (i : nat) : Qc := qz (freq_index n i) / (qz (Z.of_nat n) * d).

(** The kernel of the specification at a frequency pair other than the
    origin: [(kx^2 - ky^2 - 2i kx ky) / (kx^2 + ky^2)]. *)
Definition Dstar_re (kx ky : Qc) : Qc := (kx * kx - ky * ky) / (kx * kx + ky * ky).
Definition Dstar_im (kx ky : Qc) : Qc := - (qz 2 * kx * ky) / (kx * kx + ky * ky).

(** The complex shear field of the specification, [e1 + i e2] at each
    point of an [n] by [n] grid. *)
Definition shear_field (n : nat) (e1 e2 : matrix xnum) : matrix cplx :=
  mtabulate n n (fun i j =>
    cadd (of_real (mnth xzero e1 i j)) (cmul (mkC xzero xone) (of_real (mnth xzero e2 i j)))).

(** The elementwise product of two [n] by [n] complex arrays. *)
Definition hadamard (n : nat) (A B : matrix cplx) : matrix cplx :=
  mtabulate n n (fun i j => cmul (mnth czero A i j) (mnth czero B i j)).

(** One entry of the kernel as [_conjugate_inversion_kernel] computes it,
    before the entry at the origin is overwritten. *)
Definition kernel_entry (kx ky : xnum) : cplx :=
  cdiv (csub (of_real (xsub (xsq kx) (xsq ky)))
             (cmul (cmul (mkC xzero (xofZ 2)) (of_real kx)) (of_real ky)))
       (of_real (xadd (xsq kx) (xsq ky))).

(** ** The profile, galaxy by galaxy *)

(** The physical scale, the ratio [beta] and the critical density of one
    galaxy. *)
Definition gal_Mpc_scale (gal : shear.galaxy) : xnum :=
  xmul (shear.DL gal) (np_deg2rad (xdiv (Fin 1) (xofZ 3600))).

Definition gal_beta (gal : shear.galaxy) : xnum := xdiv (shear.DLS gal) (shear.DS gal).

Definition gal_sigma_critic (gal : shear.galaxy) : xnum :=
  xmul (xmul (xdiv (xsq shear.cvel)
                   (xmul (xmul (xmul (xofZ 4) (Fin np_pi)) shear.G)
                         (xmul (xmul (shear.DL gal) (xofZ 1000000)) shear.pc)))
             (xdiv (Fin 1) (gal_beta gal)))
       (xdiv (xsq shear.pc) shear.Msun).

(** The weight of one galaxy in its bin: catalog weight over the squared
    critical density. *)
Definition gal_weight (gal : shear.galaxy) : xnum :=
  xdiv (shear.weight gal) (xsq (gal_sigma_critic gal)).

(** A finite, strictly positive number. *)
Definition xpositive (x : xnum) : Prop := exists q, x = Fin q /\ 0 < q.

(** The weighted average of the specification. *)
Definition weighted_average (xs ws : list xnum) : xnum :=
  xdiv (xsum (zip_with xmul xs ws)) (xsum ws).

Section Profile_statements.

Context `{Ext : External} `{Rnd : NumpyRandom}.

(** Projected distance and tangential and cross ellipticity of one
    galaxy. *)
Definition gal_dist_hMpc (h : xnum) (gal : shear.galaxy) : xnum :=
  fst (fst (shear.galaxy_geometry h (gal_Mpc_scale gal) gal)).
Definition gal_et (h : xnum) (gal : shear.galaxy) : xnum :=
  snd (fst (shear.galaxy_geometry h (gal_Mpc_scale gal) gal)).
Definition gal_ex (h : xnum) (gal : shear.galaxy) : xnum :=
  snd (shear.galaxy_geometry h (gal_Mpc_scale gal) gal).

(** The arrays read by the loop, for a table of galaxies and the result of
    [np.digitize]. *)
Definition table_arrays (h : xnum) (rows : list shear.galaxy) (digitized : list Z)
    : shear.galaxy_arrays :=
  shear.mkGalaxyArrays ((fun d => (d - 1)%Z) <$> digitized)
    (shear.weight <$> rows) (shear.m <$> rows)
    (gal_et h <$> rows) (gal_ex h <$> rows) (gal_sigma_critic <$> rows).

(** The arrays before the loop: zeros, and ones for [m_cal]. *)
Definition initial_arrays (nbin : Z) : shear.bin_arrays :=
  let zeros := replicate (Z.to_nat nbin) xzero in
  shear.mkBinArrays zeros zeros zeros zeros zeros
    (replicate (Z.to_nat nbin) (Fin 1)) (replicate (Z.to_nat nbin) 0%Z).

(** Right-open membership of a distance in bin [i] of the edges. *)
Definition in_bin (edges : list xnum) (i : nat) (d : xnum) : Prop :=
  exists lo hi, edges !! i = Some lo /\ edges !! S i = Some hi /\
    xleb lo d = true /\ xltb d hi = true.

(** Non-decreasing edges, none of them NaN. *)
Definition nondecreasing (edges : list xnum) : Prop :=
  forall i j a b, (i <= j)%nat -> edges !! i = Some a -> edges !! j = Some b ->
    xleb a b = true.

(** The values held by the arrays of the loop at one bin. *)
Record bin_row := mkBinRow {
  b_shear : xnum;
  b_cero : xnum;
  b_shear_error : xnum;
  b_cero_error : xnum;
  b_stat_error : xnum;
  b_m_cal : xnum;
  b_N : Z
}.

Definition row_at (a : shear.bin_arrays) (i : nat) : option bin_row :=
  x1 ← shear.a_shear a !! i;
  x2 ← shear.a_cero a !! i;
  x3 ← shear.a_shear_error a !! i;
  x4 ← shear.a_cero_error a !! i;
  x5 ← shear.a_stat_error a !! i;
  x6 ← shear.a_m_cal a !! i;
  x7 ← shear.a_N a !! i;
  Some (mkBinRow x1 x2 x3 x4 x5 x6 x7).

Definition set_row (i : nat) (r : bin_row) (a : shear.bin_arrays) : shear.bin_arrays :=
  shear.mkBinArrays
    (<[i := b_shear r]> (shear.a_shear a))
    (<[i := b_cero r]> (shear.a_cero a))
    (<[i := b_shear_error r]> (shear.a_shear_error a))
    (<[i := b_cero_error r]> (shear.a_cero_error a))
    (<[i := b_stat_error r]> (shear.a_stat_error a))
    (<[i := b_m_cal r]> (shear.a_m_cal a))
    (<[i := b_N r]> (shear.a_N a)).

Definition default_row : bin_row := mkBinRow xzero xzero xzero xzero xzero (Fin 1) 0%Z.

(** The rows of the profile: the values of its arrays at one bin. *)
Definition profile_row (p : shear.Profile) (i : nat) (r : bin_row) : Prop :=
  shear.shear p !! i = Some (b_shear r) /\ shear.cero p !! i = Some (b_cero r) /\
  shear.shear_error p !! i = Some (b_shear_error r) /\
  shear.cero_error p !! i = Some (b_cero_error r) /\
  shear.stat_error p !! i = Some (b_stat_error r) /\
  shear.N p !! i = Some (b_N r).

(** Right-open membership, as a test. *)
Definition in_binb (edges : list xnum) (i : nat) (d : xnum) : bool :=
  match edges !! i, edges !! S i with
  | Some lo, Some hi => xleb lo d && xltb d hi
  | _, _ => false
  end.

(** All arrays of the loop have [n] entries. *)
Definition arrays_length (n : nat) (a : shear.bin_arrays) : Prop :=
  length (shear.a_shear a) = n /\ length (shear.a_cero a) = n /\
  length (shear.a_shear_error a) = n /\ length (shear.a_cero_error a) = n /\
  length (shear.a_stat_error a) = n /\ length (shear.a_m_cal a) = n /\
  length (shear.a_N a) = n.

(** The bootstrap errors, computed from the seeded generator. *)
Definition boot_error (shear cero weight : list xnum) (nboot : nat) : result (xnum * xnum) :=
  fst (shear._boot_error shear cero weight nboot (rng_seed 1)).

(** The statistics of a bin that holds the galaxies [G] (at least one);
    [old] holds the values of the arrays before the bin is visited. *)
Definition occupied_bin_stats (h : xnum) (boot_flag : bool) (boot_n : nat)
    (G : list shear.galaxy) (old : bin_row) : result bin_row :=
  let w := gal_weight <$> G in
  let t := (fun gal => xmul (gal_et h gal) (gal_sigma_critic gal)) <$> G in
  let x := (fun gal => xmul (gal_ex h gal) (gal_sigma_critic gal)) <$> G in
  if xeqb (xsum w) xzero then Err ZeroDivisionError
  else
    let m_cal := xadd (Fin 1) (weighted_average (shear.m <$> G) w) in
    let stat :=
      xdiv (np_sqrt (xdiv
              (xsum ((fun gal => xsq (xmul (xmul (Fin (qfrac 1 4)) (gal_weight gal))
                                          (gal_sigma_critic gal))) <$> G))
              (xsq (xsum w)))) m_cal in
    if boot_flag then
      errs ← boot_error t x w boot_n;
      OK (mkBinRow (xdiv (weighted_average t w) m_cal) (xdiv (weighted_average x w) m_cal)
            (xdiv (fst errs) m_cal) (xdiv (snd errs) m_cal) stat m_cal
            (Z.of_nat (length G)))
    else
      OK (mkBinRow (xdiv (weighted_average t w) m_cal) (xdiv (weighted_average x w) m_cal)
            (b_shear_error old) (b_cero_error old) stat m_cal (Z.of_nat (length G))).

(** The statistics of one bin, from the galaxies [G] that fall in it: an
    empty bin keeps the values it had. *)
Definition bin_stats (h : xnum) (boot_flag : bool) (boot_n : nat)
    (G : list shear.galaxy) (old : bin_row) : result bin_row :=
  match G with
  | [] => OK (mkBinRow (b_shear old) (b_cero old) (b_shear_error old) (b_cero_error old)
                (b_stat_error old) (b_m_cal old) 0%Z)
  | _ :: _ => occupied_bin_stats h boot_flag boot_n G old
  end.

(** The galaxies of a table whose bin index is [i]. *)
Definition bin_galaxies (rows : list shear.galaxy) (digit : list Z) (i : nat)
    : list shear.galaxy :=
  mask_select ((fun d => bool_decide (d = Z.of_nat i)) <$> digit) rows.

End Profile_statements.

(** A test that implies [nondecreasing]: each edge is at most the next
    one, and the last one is not NaN. *)
Fixpoint adjacent_le (edges : list xnum) : bool :=
  match edges with
  | [] => true
  | x :: rest =>
      match rest with
      | [] => xeqb x x
      | y :: _ => xleb x y && adjacent_le rest
      end
  end.

(** ** Input validation, as the specification states it *)

Definition strictly_increasing (edges : list xnum) : Prop :=
  forall i j a b, (i < j)%nat -> edges !! i = Some a -> edges !! j = Some b ->
    xltb a b = true.

Definition catalog_rows (cat : shear.catalog) : list shear.galaxy :=
  match cat with
  | shear.DataFrame rows => rows
  | shear.Table rows => rows
  end.

(** The inputs that the specification asks the constructor to reject: an
    empty catalog, a source distance that is zero or negative, edges that
    are not strictly increasing. *)
Definition invalid_input (cat : shear.catalog) (edges : list xnum) : Prop :=
  catalog_rows cat = [] \/
  Exists (fun gal => xleb (shear.DS gal) xzero = true) (catalog_rows cat) \/
  ~ strictly_increasing edges.

(** The exceptions that the numpy and astropy routines of the loop can
    raise. *)
Definition loop_error (e : exn) : Prop :=
  e = IndexError \/ e = ValueError \/ e = ZeroDivisionError.

(** ** The output file, as the specification states it *)

(** The lines [# key = value] of the header. *)
Definition header_lines (header : option (list (string * string))) : string :=
  match header with
  | Some items =>
      fold_right (fun kv acc =>
        ("# " ++ shear.ljust (fst kv) 14 ++ " = " ++ snd kv ++ shear.nl ++ acc)%string)
        EmptyString items
  | None => EmptyString
  end.

(** Whether [sub] occurs in [s]. *)
Fixpoint contains (sub s : string) : bool :=
  String.prefix sub s ||
  match s with
  | EmptyString => false
  | String _ s' => contains sub s'
  end.

(** The block that the specification describes: the title line, a run of
    50 dashes and the line of column names all occur in the text. *)
Definition has_header_and_table (text : string) : bool :=
  contains "# Lensing profile" text && contains (shear.dashes 50) text &&
  contains "r_hMpc, shear, shear_error, cero, cero_error, stat_error" text.

(** * Further statements about the code *)

(** The centers of the bins: [0.5 * (bins[:-1] + bins[1:])]. *)
Definition bin_centers (edges : list xnum) : list xnum :=
  (fun x => xmul (Fin (qfrac 1 2)) x) <$> zip_with xadd (removelast edges) (tail edges).

(** The sum of an array of integers. *)
Definition Zsum (l : list Z) : Z := fold_right Z.add 0%Z l.

(** Whether a distance lies in [first edge, last edge). *)
Definition in_rangeb (edges : list xnum) (d : xnum) : bool :=
  match head edges, last edges with
  | Some lo, Some hi => xleb lo d && xltb d hi
  | _, _ => false
  end.

(** One of the two infinities or NaN. *)
Definition nonfinite (x : xnum) : Prop :=
  match x with
  | Fin _ => False
  | _ => True
  end.

(** The [n] by [n] array of complex zeros. *)
Definition czeros (n : nat) : matrix cplx := mtabulate n n (fun _ _ => czero).

(** Tests of equality of numbers and arrays (NaN counts as equal to
    itself: the test is of the values, not IEEE's [==]). *)
Definition xnum_same (x y : xnum) : bool :=
  match x, y with
  | Fin a, Fin b => Qeq_bool a b
  | PInf, PInf | NInf, NInf | NaN, NaN => true
  | _, _ => false
  end.

Definition cplx_same (a b : cplx) : bool :=
  xnum_same (re a) (re b) && xnum_same (im a) (im b).

Fixpoint list_same {A} (same : A -> A -> bool) (l k : list A) : bool :=
  match l, k with
  | [], [] => true
  | x :: l, y :: k => same x y && list_same same l k
  | _, _ => false
  end.

Definition cmatrix_same (M K : matrix cplx) : bool := list_same (list_same cplx_same) M K.

(** Strictly decreasing edges, and membership in bin [i] of such edges:
    the interval between the later edge, included, and the earlier edge,
    excluded. *)
Definition decreasing (edges : list xnum) : Prop :=
  forall i a b, edges !! i = Some a -> edges !! S i = Some b -> xltb b a = true.

Definition in_binb_decreasing (edges : list xnum) (i : nat) (d : xnum) : bool :=
  match edges !! i, edges !! S i with
  | Some hi, Some lo => xleb lo d && xltb d hi
  | _, _ => false
  end.

(** A test that implies [decreasing]. *)
Fixpoint adjacent_gt (edges : list xnum) : bool :=
  match edges with
  | [] => true
  | x :: rest =>
      match rest with
      | [] => true
      | y :: _ => xltb y x && adjacent_gt rest
      end
  end.

(** ** [KappaMap.gaussian_filter] *)

(** The two routines of [scipy.ndimage] are taken as given:
    [ndimage.zoom(input, zoom, order=0)] and
    [ndimage.gaussian_filter(input, sigma, truncate)], each a function of
    its arguments that returns an array or raises. *)
Section gaussian_filter.

Variable ndimage_zoom : matrix xnum -> xnum -> result (matrix xnum).
Variable ndimage_gaussian_filter : matrix xnum -> xnum -> xnum -> result (matrix xnum).

(** The width of the filter in pixels, [sigma_pix * resize]. *)
Definition filter_sigma (self : kappa.KappaMap) (sigma_hkpc resize : xnum) : xnum :=
  let dx := fst (kappa.bin_size self) in
  let sigma_hMpc := xmul sigma_hkpc (Fin (qfrac 1 1000)) in
  let sigma_pix := xdiv sigma_hMpc dx in
  xmul sigma_pix resize.

Definition gaussian_filter (self : kappa.KappaMap) (sigma_hkpc truncate resize : xnum)
    : result (matrix cplx) :=
  let dx := fst (kappa.bin_size self) in
  let sigma_hMpc := xmul sigma_hkpc (Fin (qfrac 1 1000)) in
  let sigma_pix := xdiv sigma_hMpc dx in
  kE ← ndimage_zoom (kappa.kE self) resize;
  kB ← ndimage_zoom (kappa.kB self) resize;
  kE ← ndimage_gaussian_filter kE (xmul sigma_pix resize) truncate;
  kB ← ndimage_gaussian_filter kB (xmul sigma_pix resize) truncate;
  j_kB ← OK (mmap (fun x => cmul (mkC xzero xone) (of_real x)) kB);
  ew2 xzero czero (fun r c => cadd (of_real r) c) kE j_kB.

End gaussian_filter.

(** * [densmodel/test.py] *)

Module densmodel_test.

(** The constants of the script. *)
Definition G : xnum := Fin (qfrac 667 10000000000000).
Definition pc : xnum := xofZ 30856780000000000.
Definition Msun : xnum := xofZ 1989000000000000000000000000000.

(** A binary elementwise operation on one-dimensional arrays, with
    numpy's broadcasting; ValueError when the lengths cannot be
    broadcast. *)
Definition ew1 {A B C} (dA : A) (dB : B) (f : A -> B -> C) (a : list A) (b : list B)
    : result (list C) :=
  match bcast_dim (length a) (length b) with
  | Some n =>
      OK (tabulate n (fun i =>
            f (nth (bidx (length a) i) a dA) (nth (bidx (length b) i) b dB)))
  | None => Err ValueError
  end.

(** [chi_red(ajuste, data, err, gl)], local to [SIS_stack_fit], on numpy
    arrays. *)
Definition chi_red (ajuste data err : list xnum) (gl : Z) : result xnum :=
  let BIN := Z.of_nat (length data) in
  diff ← ew1 xzero xzero xsub ajuste data;
  terms ← ew1 xzero xzero xdiv (xsq <$> diff) (xsq <$> err);
  OK (xdiv (xsum terms) (xofZ (BIN - 1 - gl))).

(** [sis_profile_sigma(R, sigma)], local to [SIS_stack_fit], for an array
    [R] and one value of [sigma] (a scalar, or the array of one entry that
    [curve_fit] returns: the entries of the result are the same). *)
Definition sis_profile_sigma (R : list xnum) (sigma : xnum) : list xnum :=
  let Rm := (fun r => xmul (xmul r (xofZ 1000000)) pc) <$> R in
  (fun rm =>
     xmul (xdiv (xsq (xmul sigma (xofZ 1000))) (xmul (xmul (Fin (qz 2)) G) rm))
          (xdiv (xsq pc) Msun)) <$> Rm.

End densmodel_test.

Definition finite_nonzero (x : xnum) : Prop :=
  match x with Fin q => q <> 0 | _ => False end.

Definition finite (x : xnum) : Prop := match x with Fin _ => True | _ => False end.

(** Further concrete inputs. *)
Module MoreExamples.

Import Examples.

(** A constructor of shear maps on a single point. *)
Definition ex_ShearMap_init_1 (data : unit) (nbins : nat) (gals_per_bins : xnum)
    (box_size_hMpc : option xnum) (cosmo : unit) : kappa.ShearMap :=
  kappa.mkShearMap [[Fin 0]] [[Fin 0]] [[Fin 1]] [[Fin 0]].

(** A constructor of shear maps without shear, on two by two points of
    spacing one half. *)
Definition ex_ShearMap_init_0 (data : unit) (nbins : nat) (gals_per_bins : xnum)
    (box_size_hMpc : option xnum) (cosmo : unit) : kappa.ShearMap :=
  kappa.mkShearMap (kappa.sm_px ex_shear_map) (kappa.sm_py ex_shear_map)
    [[Fin 0; Fin 0]; [Fin 0; Fin 0]] [[Fin 0; Fin 0]; [Fin 0; Fin 0]].

(** A table of one galaxy, a table of one galaxy of weight 0, a galaxy at
    the position of the lens, and a galaxy whose source distance is 0. *)
Definition ex_row : shear.galaxy := ex_galaxy (qz 1) (qfrac 1 10) 0 0 1.

Definition ex_row_zero_weight : shear.galaxy := ex_galaxy (qz 1) (qfrac 1 10) 0 0 0.

Definition ex_row_at_lens : shear.galaxy := ex_galaxy 0 (qfrac 1 10) 0 0 1.

Definition ex_row_zero_DS : shear.galaxy :=
  shear.mkGalaxy (Fin 0) (Fin 0) (Fin 0) (Fin 0) (Fin (qfrac 1 10)) (Fin 0) (Fin 0) (Fin 1)
    (xofZ 1000) (Fin 0) (xofZ 500).

(** The kernel of two by two points of spacing one half. *)
Definition ex_kernel : matrix cplx :=
  match grid kernel_entry (kappa.fftfreq 2 (Fin (qfrac 1 2)))
          (kappa.fftfreq 2 (Fin (qfrac 1 2))) with
  | (_ :: row) :: rows => (czero :: row) :: rows
  | K => K
  end.

(** A map of two by two points with one infinite B-mode value, and
    stand-ins for the routines of [scipy.ndimage] that return their input. *)
Definition ex_KappaMap : kappa.KappaMap :=
  kappa.mkKappaMap ex_shear_map (kappa.sm_px ex_shear_map) (kappa.sm_px ex_shear_map)
    (Fin (qfrac 1 2), Fin (qfrac 1 2))
    [[mkC (Fin 1) (Fin 0); mkC (Fin (qz 2)) PInf];
     [mkC (Fin 0) (Fin (qz 3)); mkC (Fin (qz (-1))) (Fin 1)]].

Definition ex_zoom (M : matrix xnum) (zoom : xnum) : result (matrix xnum) := OK M.

Definition ex_gaussian_filter (M : matrix xnum) (sigma truncate : xnum)
    : result (matrix xnum) := OK M.

(** Edges of two bins, from the outside inwards. *)
Definition ex_edges_decreasing : list xnum := [Fin (qz 6000); Fin (qz 3000); Fin 1].

End MoreExamples.

(** * Properties *)

(** ** Arithmetic on finite values *)

Lemma Qc_sq_nonneg (x : Qc) : 0 <= x * x.
Proof.
  unfold Qcle, Qcmult, Q2Qc; cbn [this]. rewrite !Qred_correct.
  destruct (Qlt_le_dec (this x) 0)%Q; nra.
Qed.

Lemma Qc_sq_pos (x : Qc) : x <> 0 -> 0 < x * x.
Proof.
  intros Hx.
  assert (~ (this x == 0)%Q) by (intros E; apply Hx, Qc_is_canon; exact E).
  unfold Qclt, Qcmult, Q2Qc; cbn [this]. rewrite !Qred_correct.
  destruct (Qlt_le_dec (this x) 0)%Q; nra.
Qed.

Lemma Qc_sumsq_pos (p q : Qc) : p <> 0 \/ q <> 0 -> 0 < p * p + q * q.
Proof.
  intros [H|H].
  - apply Qclt_le_trans with (p * p + 0).
    + rewrite Qcplus_0_r. by apply Qc_sq_pos.
    + apply Qcplus_le_mono_l, Qc_sq_nonneg.
  - apply Qclt_le_trans with (0 + q * q).
    + rewrite Qcplus_0_l. by apply Qc_sq_pos.
    + apply Qcplus_le_mono_r, Qc_sq_nonneg.
Qed.

Lemma Qclt_irrefl (x : Qc) : ~ x < x.
Proof. apply Qcle_not_lt, Qcle_refl. Qed.

Lemma qsign_Eq (q : Qc) : qsign q = Eq <-> q = 0.
Proof. unfold qsign. symmetry. apply Qceq_alt. Qed.

Lemma qsign_Lt (q : Qc) : qsign q = Lt <-> q < 0.
Proof. unfold qsign. symmetry. apply Qclt_alt. Qed.

Lemma qsign_Gt (q : Qc) : qsign q = Gt <-> 0 < q.
Proof. unfold qsign. symmetry. apply (Qcgt_alt q 0). Qed.

Lemma xdiv_Fin (a b : Qc) : b <> 0 -> xdiv (Fin a) (Fin b) = Fin (a / b).
Proof.
  intros Hb. unfold xdiv. destruct (qsign b) eqn:E; try reflexivity.
  apply qsign_Eq in E. contradiction.
Qed.

Lemma xeqb_Fin (a b : Qc) : xeqb (Fin a) (Fin b) = bool_decide (a = b).
Proof.
  unfold xeqb. destruct (Qccompare a b) eqn:E.
  - apply Qceq_alt in E. by rewrite bool_decide_eq_true_2.
  - rewrite bool_decide_eq_false_2; [done|]. intros ->.
    assert (Qccompare b b = Eq) by (by apply Qceq_alt). congruence.
  - rewrite bool_decide_eq_false_2; [done|]. intros ->.
    assert (Qccompare b b = Eq) by (by apply Qceq_alt). congruence.
Qed.

Lemma xltb_Fin (a b : Qc) : xltb (Fin a) (Fin b) = bool_decide (a < b).
Proof.
  unfold xltb. destruct (Qccompare a b) eqn:E.
  - apply Qceq_alt in E. subst. rewrite bool_decide_eq_false_2; [done|].
    apply Qclt_irrefl.
  - apply Qclt_alt in E. by rewrite bool_decide_eq_true_2.
  - apply Qcgt_alt in E. rewrite bool_decide_eq_false_2; [done|].
    intros H. exact (Qclt_irrefl _ (Qclt_trans _ _ _ H E)).
Qed.

Lemma xabs_Fin_nonzero (d : Qc) : d <> 0 -> exists d', xabs (Fin d) = Fin d' /\ 0 < d'.
Proof.
  intros Hd. unfold xabs. destruct (qsign d) eqn:E.
  - apply qsign_Eq in E. contradiction.
  - apply qsign_Lt in E. exists (- d). split; [done|].
    apply Qclt_minus_iff in E. by rewrite Qcplus_0_l in E.
  - apply qsign_Gt in E. by exists d.
Qed.

(** Dividing a finite complex number by a non-zero finite real divides
    both components. *)
Lemma cdiv_real (a b d : Qc) :
  d <> 0 -> cdiv (mkC (Fin a) (Fin b)) (of_real (Fin d)) = mkC (Fin (a / d)) (Fin (b / d)).
Proof.
  intros Hd. unfold cdiv, of_real; cbn [re im].
  destruct (xabs_Fin_nonzero d Hd) as (d' & -> & Hd').
  assert (Hz : xabs xzero = Fin 0) by reflexivity. rewrite Hz.
  assert (Hge : xgeb (Fin d') (Fin 0) = true).
  { unfold xgeb, xleb. rewrite xltb_Fin, bool_decide_eq_true_2; done. }
  rewrite Hge.
  assert (Hne : xeqb (Fin d') xzero = false).
  { unfold xzero. rewrite xeqb_Fin, bool_decide_eq_false_2; [done|].
    intros ->. by apply Qclt_irrefl in Hd'. }
  rewrite Hne. cbn [andb].
  unfold xzero, xone. rewrite (xdiv_Fin 0 d Hd). cbn [xmul xadd xsub xneg].
  assert (Hs : d + 0 * (0 / d) = d) by (field; done).
  rewrite Hs, (xdiv_Fin 1 d Hd). cbn [xmul].
  f_equal; f_equal; field; done.
Qed.

Lemma qz_nonzero (z : Z) : z <> 0%Z -> qz z <> 0.
Proof.
  intros Hz E. apply Hz.
  assert (H : (this (qz z) == 0)%Q) by (rewrite E; reflexivity).
  unfold qz, Q2Qc in H; cbn [this] in H. rewrite Qred_correct in H.
  unfold Qeq, inject_Z in H; simpl in H. lia.
Qed.

Lemma Qcdiv_nonzero (a b : Qc) : a <> 0 -> b <> 0 -> a / b <> 0.
Proof.
  intros Ha Hb E. apply Ha.
  replace a with (a / b * b) by (field; done). rewrite E. ring.
Qed.

Lemma Qcmult_nonzero (a b : Qc) : a <> 0 -> b <> 0 -> a * b <> 0.
Proof. intros Ha Hb E. by destruct (Qcmult_integral _ _ E). Qed.

(** ** Arrays *)

Lemma grid_lookup {X Y A} (F : X -> Y -> A) xs ys i :
  grid F xs ys !! i = (fun x => F x <$> ys) <$> (xs !! i).
Proof. unfold grid. by rewrite list_lookup_fmap. Qed.

Lemma mget_grid {X Y A} (F : X -> Y -> A) xs ys i j x y :
  xs !! i = Some x -> ys !! j = Some y -> mget (grid F xs ys) i j = OK (F x y).
Proof.
  intros Hx Hy. unfold mget. rewrite grid_lookup, Hx; simpl.
  by rewrite list_lookup_fmap, Hy.
Qed.

Lemma grid_shape {X Y A} (F : X -> Y -> A) xs ys :
  is_shape (length xs) (length ys) (grid F xs ys).
Proof.
  split.
  - unfold grid. by rewrite length_fmap.
  - unfold grid. apply Forall_fmap, Forall_forall. intros x _; simpl.
    by rewrite length_fmap.
Qed.

Lemma mmap_grid {X Y A B} (f : A -> B) (F : X -> Y -> A) xs ys :
  mmap f (grid F xs ys) = grid (fun x y => f (F x y)) xs ys.
Proof.
  unfold mmap, grid. rewrite <- list_fmap_compose. apply list_fmap_ext.
  intros _ x _; simpl. by rewrite <- list_fmap_compose.
Qed.

Lemma mzip_grid {X Y A B C} (f : A -> B -> C) (F : X -> Y -> A) (H : X -> Y -> B) xs ys :
  mzip f (grid F xs ys) (grid H xs ys) = grid (fun x y => f (F x y) (H x y)) xs ys.
Proof.
  unfold mzip, grid. rewrite zip_with_fmap_l, zip_with_fmap_r, zip_with_diag.
  apply list_fmap_ext. intros _ x _; simpl.
  by rewrite zip_with_fmap_l, zip_with_fmap_r, zip_with_diag.
Qed.

Lemma meshgrid_ij_grid {A} (xs ys : list A) :
  meshgrid_ij xs ys = (grid (fun x _ => x) xs ys, grid (fun _ y => y) xs ys).
Proof.
  unfold meshgrid_ij, grid. f_equal. apply list_fmap_ext. intros _ x _; simpl.
  by rewrite list_fmap_id.
Qed.

(** An entry of an array after the assignment [M[0, 0] = v]. *)
Lemma mset_origin {A} (M : matrix A) (v : A) r c :
  is_shape r c M -> (0 < r)%nat -> (0 < c)%nat ->
  exists M', mset M 0 0 v = OK M' /\ is_shape r c M' /\
    mget M' 0 0 = OK v /\
    forall i j, (i, j) <> (0, 0)%nat -> mget M' i j = mget M i j.
Proof.
  intros [Hr Hc] Hr0 Hc0. destruct M as [|row M]; [simpl in Hr; lia|].
  apply Forall_cons in Hc as [Hrow Hc].
  unfold mset; simpl. destruct (decide (0 < length row)%nat) as [_|]; [|lia].
  eexists; split; [reflexivity|]. split; [|split].
  - split; [done|]. apply Forall_cons. split; [|done]. by rewrite length_insert.
  - unfold mget; simpl. destruct row; [simpl in *; lia|]. done.
  - intros i j Hij. unfold mget. destruct i as [|i]; simpl; [|done].
    destruct j as [|j]; [done|]. destruct row; done.
Qed.

(** ** The frequencies of [fftfreq] *)

Lemma arange_length a b : length (arange a b) = Z.to_nat (b - a).
Proof. unfold arange. by rewrite length_fmap, length_seq. Qed.

Lemma arange_lookup a b i :
  (i < Z.to_nat (b - a))%nat -> arange a b !! i = Some (a + Z.of_nat i)%Z.
Proof.
  intros Hi. unfold arange. rewrite list_lookup_fmap, lookup_seq_lt by done.
  done.
Qed.

Lemma fftfreq_length n d : length (kappa.fftfreq n d) = n.
Proof.
  unfold kappa.fftfreq. rewrite length_fmap, length_app, !arange_length.
  assert (0 <= Z.of_nat n)%Z by lia.
  destruct (decide (n = 0)%nat) as [->|]; [done|].
  Z.to_euclidean_division_equations. lia.
Qed.

Lemma fftfreq_lookup n d i :
  d <> 0 -> (i < n)%nat -> kappa.fftfreq n (Fin d) !! i = Some (Fin (freq n d i)).
Proof.
  intros Hd Hi. unfold kappa.fftfreq, freq, freq_index.
  assert (Hn : qz (Z.of_nat n) <> 0) by (apply qz_nonzero; lia).
  assert (Hnd : qz (Z.of_nat n) * d <> 0) by by apply Qcmult_nonzero.
  unfold xofZ at 1. cbn [xmul]. rewrite (xdiv_Fin _ _ Hnd).
  rewrite list_lookup_fmap.
  destruct (decide (Z.of_nat i < (Z.of_nat n - 1) / 2 + 1)%Z) as [Hlt|Hge].
  - rewrite lookup_app_l by (rewrite arange_length; lia).
    rewrite arange_lookup by lia. simpl. do 2 f_equal.
    rewrite Z.add_0_l. field. done.
  - rewrite lookup_app_r by (rewrite arange_length; lia).
    rewrite arange_length.
    rewrite arange_lookup by (Z.to_euclidean_division_equations; lia).
    simpl. do 2 f_equal.
    replace (- (Z.of_nat n / 2) + Z.of_nat (i - Z.to_nat ((Z.of_nat n - 1) / 2 + 1 - 0)))%Z
      with (Z.of_nat i - Z.of_nat n)%Z by (Z.to_euclidean_division_equations; lia).
    field. done.
Qed.

Lemma qz_0 : qz 0 = 0.
Proof. by apply Qc_is_canon. Qed.

Lemma freq_nonzero n d i : d <> 0 -> (0 < i < n)%nat -> freq n d i <> 0.
Proof.
  intros Hd Hi. unfold freq. apply Qcdiv_nonzero.
  - apply qz_nonzero. unfold freq_index. destruct (decide _); lia.
  - apply Qcmult_nonzero; [apply qz_nonzero; lia | done].
Qed.

(** ** The inversion kernel *)

Lemma kernel_unfold bin_size n :
  kappa._conjugate_inversion_kernel bin_size n =
  mset (grid kernel_entry (kappa.fftfreq n (fst bin_size)) (kappa.fftfreq n (snd bin_size)))
    0 0 czero.
Proof.
  unfold kappa._conjugate_inversion_kernel. rewrite meshgrid_ij_grid.
  cbv zeta. rewrite !mmap_grid, !mzip_grid. reflexivity.
Qed.

Lemma kernel_entry_Fin (p q : Qc) :
  p <> 0 \/ q <> 0 ->
  kernel_entry (Fin p) (Fin q) = mkC (Fin (Dstar_re p q)) (Fin (Dstar_im p q)).
Proof.
  intros Hpq. pose proof (Qc_sumsq_pos p q Hpq) as Hpos.
  assert (Hd : p * p + q * q <> 0).
  { intros E. rewrite E in Hpos. by apply Qclt_irrefl in Hpos. }
  unfold kernel_entry, csub, cmul, of_real, xsq, xsub, xzero, xofZ.
  cbn [re im xmul xadd xneg].
  change (mkC (Fin (p * p + q * q)) (Fin 0)) with (of_real (Fin (p * p + q * q))).
  rewrite cdiv_real by done.
  unfold Dstar_re, Dstar_im. f_equal; f_equal; field; done.
Qed.

Lemma xsq_cases (x : xnum) : (exists a, xsq x = Fin a) \/ xsq x = PInf \/ xsq x = NaN.
Proof. destruct x as [p| | |]; [left; by eexists | right; by left | right; by left | right; by right]. Qed.

Lemma xsq_Fin_inv (x : xnum) (a : Qc) : xsq x = Fin a -> exists p, x = Fin p /\ a = p * p.
Proof. destruct x as [p| | |]; try done. intros [= <-]. by exists p. Qed.

Lemma xmul_zero_nonfinite (x : xnum) :
  match x with Fin _ => False | _ => True end -> xmul x (Fin 0) = NaN.
Proof. by destruct x. Qed.

Lemma xadd_nonfinite_l (x y : xnum) :
  match x with Fin _ => False | _ => True end ->
  match xadd x y with Fin _ => False | _ => True end.
Proof. by destruct x, y. Qed.

Lemma xsub_nonfinite_l (x y : xnum) :
  match x with Fin _ => False | _ => True end ->
  match xsub x y with Fin _ => False | _ => True end.
Proof. by destruct x, y. Qed.

Lemma xsub_nonfinite_r (x y : xnum) :
  match y with Fin _ => False | _ => True end ->
  match xsub x y with Fin _ => False | _ => True end.
Proof. by destruct x, y. Qed.

Lemma xmul_NaN_r (x : xnum) : xmul x NaN = NaN.
Proof. by destruct x. Qed.

(** The division by an infinite or NaN real number of a complex number
    whose real part is not finite. *)
Lemma cdiv_nonfinite (c : cplx) (d : xnum) :
  match re c with Fin _ => False | _ => True end ->
  d = PInf \/ d = NaN -> cdiv c (of_real d) = mkC NaN NaN.
Proof.
  intros Hre [-> | ->].
  - unfold cdiv, of_real. cbn [re im].
    assert (Hge : xgeb (xabs PInf) (xabs xzero) = true) by reflexivity.
    assert (Hz : xeqb (xabs PInf) xzero && xeqb (xabs xzero) xzero = false) by reflexivity.
    rewrite Hge, Hz.
    assert (Hrat : xdiv xzero PInf = Fin 0) by reflexivity.
    assert (Hscl : xdiv xone (xadd PInf (xmul xzero (Fin 0))) = Fin 0) by reflexivity.
    rewrite Hrat, Hscl. f_equal.
    + apply xmul_zero_nonfinite. by apply xadd_nonfinite_l.
    + rewrite (xmul_zero_nonfinite (re c) Hre).
      apply xmul_zero_nonfinite. by apply xsub_nonfinite_r.
  - unfold cdiv, of_real. cbn [re im].
    assert (Hge : xgeb (xabs NaN) (xabs xzero) = false) by reflexivity.
    rewrite Hge.
    assert (Hrat : xdiv NaN xzero = NaN) by reflexivity.
    rewrite Hrat, !xmul_NaN_r. by destruct (re c), (im c).
Qed.

Lemma kernel_entry_overflow (kx ky : xnum) :
  xsq kx = PInf \/ xsq ky = PInf -> kernel_entry kx ky = mkC NaN NaN.
Proof.
  intros Hinf. unfold kernel_entry. apply cdiv_nonfinite.
  - unfold csub, of_real. cbn [re]. apply xsub_nonfinite_l.
    destruct Hinf as [H | H]; rewrite H.
    + by apply xsub_nonfinite_l.
    + by apply xsub_nonfinite_r.
  - destruct Hinf as [H | H]; rewrite H.
    + destruct (xsq_cases ky) as [[b ->] | [-> | ->]]; by (left + right).
    + destruct (xsq_cases kx) as [[a ->] | [-> | ->]]; by (left + right).
Qed.

Lemma kernel_entry_finite (kx ky : xnum) (a b c r : Qc) :
  xsq kx = Fin a -> xsq ky = Fin b -> xmul (xmul (xofZ 2) kx) ky = Fin c ->
  xdiv (Fin 1) (xadd (Fin a) (Fin b)) = Fin r ->
  kernel_entry kx ky = mkC (Fin ((a - b) * r)) (Fin (- c * r)).
Proof.
  intros Ha Hb Hc Hr.
  apply xsq_Fin_inv in Ha as (p & -> & ->). apply xsq_Fin_inv in Hb as (q & -> & ->).
  unfold xofZ in Hc. cbn [xmul] in Hc. injection Hc as <-.
  cbn [xadd] in Hr. unfold xdiv in Hr.
  destruct (qsign (p * p + q * q)) eqn:Hs; [done| |];
    injection Hr as <-;
    (assert (Hd : p * p + q * q <> 0)
       by (intros E; apply qsign_Eq in E; rewrite E in Hs; discriminate Hs));
    (assert (Hpq : p <> 0 \/ q <> 0)
       by (destruct (decide (p = 0)) as [->|]; [right; intros ->; apply Hd; ring | by left]));
    rewrite (kernel_entry_Fin p q Hpq); unfold Dstar_re, Dstar_im;
    f_equal; f_equal; field; done.
Qed.

(** C4, as the code has it.  For [n >= 1] the kernel built by
    [_conjugate_inversion_kernel] is an [n] by [n] array whose entry at the
    origin is exactly zero, whatever the bin size.  Every other entry is
    the quotient [(kx^2 - ky^2 - 2i kx ky) / (kx^2 + ky^2)] as the
    floating-point operations of the code compute it at the frequencies of
    [fftfreq], without any guard: when the computed [kx^2], [ky^2],
    [2 kx ky] and the reciprocal of [kx^2 + ky^2] are finite, the entry is
    the numerator times that reciprocal; when the computed [kx^2] or
    [ky^2] is infinite, the entry is NaN in both components. *)
Theorem C4_kernel_values (n : nat) (dx dy : xnum) :
  (0 < n)%nat ->
  exists K,
    kappa._conjugate_inversion_kernel (dx, dy) n = OK K /\
    is_shape n n K /\
    mget K 0 0 = OK (mkC (Fin 0) (Fin 0)) /\
    forall i j kx ky, (i, j) <> (0, 0)%nat ->
      kappa.fftfreq n dx !! i = Some kx -> kappa.fftfreq n dy !! j = Some ky ->
      mget K i j = OK (kernel_entry kx ky) /\
      (forall a b c r,
         xsq kx = Fin a -> xsq ky = Fin b -> xmul (xmul (xofZ 2) kx) ky = Fin c ->
         xdiv (Fin 1) (xadd (Fin a) (Fin b)) = Fin r ->
         kernel_entry kx ky = mkC (Fin ((a - b) * r)) (Fin (- c * r))) /\
      (xsq kx = PInf \/ xsq ky = PInf -> kernel_entry kx ky = mkC NaN NaN).
Proof.
  intros Hn. rewrite kernel_unfold; cbn [fst snd].
  pose proof (grid_shape kernel_entry (kappa.fftfreq n dx) (kappa.fftfreq n dy)) as Hshape.
  rewrite !fftfreq_length in Hshape.
  destruct (mset_origin _ czero n n Hshape Hn Hn) as (K & HK & HKshape & H00 & Hrest).
  exists K. split; [done|]. split; [done|]. split; [done|].
  intros i j kx ky Hij Hkx Hky. split; [|split].
  - rewrite Hrest by done. by apply mget_grid.
  - apply kernel_entry_finite.
  - apply kernel_entry_overflow.
Qed.

(** The specification's kernel is free of NaN wherever [kx^2 + ky^2 > 0];
    the code's is not: for a bin size of zero and two bins, the frequency
    at index 1 is minus infinity on both axes, the computed
    [kx^2 + ky^2] is plus infinity, and the entry is NaN in both
    components. *)
Lemma C4_counterexample :
  exists K,
    kappa._conjugate_inversion_kernel (Fin 0, Fin 0) 2 = OK K /\
    kappa.fftfreq 2 (Fin 0) !! 1%nat = Some NInf /\
    xltb (Fin 0) (xadd (xsq NInf) (xsq NInf)) = true /\
    mget K 1 1 = OK (mkC NaN NaN).
Proof. eexists. split; [vm_compute; reflexivity|]. vm_compute. done. Qed.

(** ** Elementwise operations on arrays of one shape *)

Lemma tabulate_ext {A} n (f g : nat -> A) :
  (forall i, (i < n)%nat -> f i = g i) -> tabulate n f = tabulate n g.
Proof.
  intros H. unfold tabulate. apply list_fmap_ext. intros k i Hk.
  apply lookup_seq in Hk as [-> Hlt]. by apply H.
Qed.

Lemma mtabulate_ext {A} r c (f g : nat -> nat -> A) :
  (forall i j, (i < r)%nat -> (j < c)%nat -> f i j = g i j) ->
  mtabulate r c f = mtabulate r c g.
Proof.
  intros H. unfold mtabulate. apply tabulate_ext. intros i Hi.
  apply tabulate_ext. intros j Hj. by apply H.
Qed.

Lemma mtabulate_shape {A} r c (f : nat -> nat -> A) : is_shape r c (mtabulate r c f).
Proof.
  unfold mtabulate, tabulate. split.
  - by rewrite length_fmap, length_seq.
  - apply Forall_fmap, Forall_forall. intros i _; simpl.
    by rewrite length_fmap, length_seq.
Qed.

Lemma mmap_shape {A B} (f : A -> B) r c (M : matrix A) :
  is_shape r c M -> is_shape r c (mmap f M).
Proof.
  intros [Hr Hc]. unfold mmap. split.
  - by rewrite length_fmap.
  - apply Forall_fmap. eapply Forall_impl; [exact Hc|].
    intros row Hrow; simpl. by rewrite length_fmap.
Qed.

Lemma shape_nrows {A} r c (M : matrix A) : is_shape r c M -> nrows M = r.
Proof. by intros [Hr _]. Qed.

Lemma shape_ncols {A} r c (M : matrix A) : is_shape r c M -> (0 < r)%nat -> ncols M = c.
Proof.
  intros [Hr Hc] H0. unfold ncols. destruct M as [|row M]; [simpl in Hr; lia|].
  by apply Forall_cons in Hc as [Hrow _].
Qed.

Lemma shape_row {A} r c (M : matrix A) i :
  is_shape r c M -> (i < r)%nat -> length (nth i M []) = c.
Proof.
  intros [Hr Hc] Hi. rewrite Forall_forall in Hc. apply Hc.
  apply list_elem_of_In, nth_In. lia.
Qed.

Lemma mnth_mmap {A B} (f : A -> B) dA dB r c (M : matrix A) i j :
  is_shape r c M -> (i < r)%nat -> (j < c)%nat ->
  mnth dB (mmap f M) i j = f (mnth dA M i j).
Proof.
  intros HM Hi Hj. unfold mnth, mmap.
  pose proof (shape_row r c M i HM Hi) as Hrow. destruct HM as [Hr _].
  assert (Hi' : (i < length M)%nat) by lia.
  destruct (lookup_lt_is_Some_2 M i Hi') as [row Hlk].
  rewrite (nth_lookup_Some _ _ [] _ Hlk) in Hrow |- *.
  assert (Hlk' : ((fun row : list A => f <$> row) <$> M) !! i = Some (f <$> row))
    by (by rewrite list_lookup_fmap, Hlk).
  rewrite (nth_lookup_Some _ _ [] _ Hlk').
  assert (Hj' : (j < length row)%nat) by lia.
  destruct (lookup_lt_is_Some_2 row j Hj') as [x Hx].
  rewrite (nth_lookup_Some _ _ dA _ Hx).
  assert (Hx' : (f <$> row) !! j = Some (f x)) by (by rewrite list_lookup_fmap, Hx).
  by rewrite (nth_lookup_Some _ _ dB _ Hx').
Qed.

Lemma bcast_dim_same n : bcast_dim n n = Some n.
Proof. unfold bcast_dim. by rewrite Nat.eqb_refl. Qed.

Lemma bidx_lt n i : (i < n)%nat -> bidx n i = i.
Proof. unfold bidx. intros Hi. destruct (n =? 1)%nat eqn:E; [|done]. apply Nat.eqb_eq in E. lia. Qed.

Lemma ew2_same_shape {A B C} (dA : A) (dB : B) (f : A -> B -> C) n M K :
  (0 < n)%nat -> is_shape n n M -> is_shape n n K ->
  ew2 dA dB f M K = OK (mtabulate n n (fun i j => f (mnth dA M i j) (mnth dB K i j))).
Proof.
  intros Hn HM HK. unfold ew2.
  rewrite (shape_nrows _ _ _ HM), (shape_nrows _ _ _ HK).
  rewrite (shape_ncols _ _ _ HM Hn), (shape_ncols _ _ _ HK Hn).
  rewrite bcast_dim_same. f_equal. apply mtabulate_ext. intros i j Hi Hj.
  by rewrite !bidx_lt.
Qed.

Lemma kernel_shape bin_size n :
  (0 < n)%nat ->
  exists D, kappa._conjugate_inversion_kernel bin_size n = OK D /\ is_shape n n D.
Proof.
  intros Hn. rewrite kernel_unfold.
  pose proof (grid_shape kernel_entry (kappa.fftfreq n (fst bin_size))
                (kappa.fftfreq n (snd bin_size))) as Hshape.
  rewrite !fftfreq_length in Hshape.
  destruct (mset_origin _ czero n n Hshape Hn Hn) as (D & HD & HDshape & _).
  by exists D.
Qed.

(** ** The map reconstructor *)

Section KappaMap_properties.

Context {Data Cosmo : Type}.
Variable ShearMap_init : Data -> nat -> xnum -> option xnum -> Cosmo -> kappa.ShearMap.
Variable fft2 ifft2 : matrix cplx -> matrix cplx.

(** The forward transform returns an array of the shape of its
    argument. *)
Hypothesis fft2_shape : forall n M, is_shape n n M -> is_shape n n (fft2 M).

(** C1.  For a shear map on an [n] by [n] grid ([n >= 1]) whose coordinate
    array holds the two entries from which the bin size is read,
    [KappaMap.__init__] returns a map whose convergence field is the
    inverse transform of the elementwise product of the forward transform
    of the field [e1 + i e2] with the inversion kernel; the E-mode map is
    the real part of that field and the B-mode map its imaginary part. *)
Theorem C1_kaiser_squires (data : Data) (n : nat) (gals_per_bins : xnum)
    (box_size_hMpc : option xnum) (cosmo : Cosmo) :
  let sm := ShearMap_init data n gals_per_bins box_size_hMpc cosmo in
  (0 < n)%nat ->
  is_shape n n (kappa.sm_e1 sm) -> is_shape n n (kappa.sm_e2 sm) ->
  (exists a b, mget (kappa.sm_px sm) 1 0 = OK a /\ mget (kappa.sm_px sm) 0 0 = OK b) ->
  exists km Dconj,
    kappa.KappaMap_init ShearMap_init fft2 ifft2 (Some data) (Some n)
      gals_per_bins box_size_hMpc cosmo = OK km /\
    kappa._conjugate_inversion_kernel (kappa.bin_size km) n = OK Dconj /\
    kappa.kappa km =
      ifft2 (hadamard n (fft2 (shear_field n (kappa.sm_e1 sm) (kappa.sm_e2 sm))) Dconj) /\
    kappa.kE km = mmap re (kappa.kappa km) /\
    kappa.kB km = mmap im (kappa.kappa km).
Proof.
  intros sm Hn He1 He2 (a & b & Ha & Hb).
  unfold kappa.KappaMap_init. cbn [mbind result_bind]. fold sm.
  rewrite Ha, Hb. cbn [mbind result_bind].
  assert (Hj : is_shape n n
            (mmap (fun x => cmul (mkC xzero xone) (of_real x)) (kappa.sm_e2 sm)))
    by (by apply mmap_shape).
  rewrite (ew2_same_shape _ _ _ n _ _ Hn He1 Hj).
  assert (Hgamma :
    mtabulate n n (fun i j =>
      cadd (of_real (mnth xzero (kappa.sm_e1 sm) i j))
           (mnth czero (mmap (fun x => cmul (mkC xzero xone) (of_real x)) (kappa.sm_e2 sm)) i j))
    = shear_field n (kappa.sm_e1 sm) (kappa.sm_e2 sm)).
  { apply mtabulate_ext. intros i j Hi Hjj.
    by rewrite (mnth_mmap _ xzero czero n n _ i j He2 Hi Hjj). }
  rewrite Hgamma.
  destruct (kernel_shape (xsub a b, xsub a b) n Hn) as (D & HD & HDshape).
  rewrite HD. cbn [mbind result_bind].
  assert (Hsf : is_shape n n (shear_field n (kappa.sm_e1 sm) (kappa.sm_e2 sm)))
    by apply mtabulate_shape.
  rewrite (ew2_same_shape _ _ _ n _ _ Hn (fft2_shape _ _ Hsf) HDshape).
  eexists _, D. split; [reflexivity|]. cbn [kappa.bin_size kappa.kappa].
  split; [exact HD|]. split; [reflexivity|]. split; reflexivity.
Qed.

End KappaMap_properties.

Section KappaMap_spacing.

Context {Data Cosmo : Type}.
Variable ShearMap_init ShearMap_init' : Data -> nat -> xnum -> option xnum -> Cosmo -> kappa.ShearMap.
Variable fft2 ifft2 : matrix cplx -> matrix cplx.

(** What a successful call of the constructor has computed. *)
Lemma KappaMap_init_inv data nbins gals_per_bins box_size_hMpc cosmo km :
  kappa.KappaMap_init ShearMap_init fft2 ifft2 data nbins gals_per_bins box_size_hMpc cosmo
    = OK km ->
  exists d n a b gamma Dconj T_kappa,
    data = Some d /\ nbins = Some n /\
    let sm := ShearMap_init d n gals_per_bins box_size_hMpc cosmo in
    mget (kappa.sm_px sm) 1 0 = OK a /\ mget (kappa.sm_px sm) 0 0 = OK b /\
    ew2 xzero czero (fun r c => cadd (of_real r) c) (kappa.sm_e1 sm)
      (mmap (fun x => cmul (mkC xzero xone) (of_real x)) (kappa.sm_e2 sm)) = OK gamma /\
    kappa._conjugate_inversion_kernel (xsub a b, xsub a b) n = OK Dconj /\
    ew2 czero czero cmul (fft2 gamma) Dconj = OK T_kappa /\
    km = kappa.mkKappaMap sm (kappa.sm_px sm) (kappa.sm_px sm) (xsub a b, xsub a b)
           (ifft2 T_kappa).
Proof.
  unfold kappa.KappaMap_init. intros H.
  destruct data as [d|]; [|discriminate].
  destruct nbins as [n|]; [|discriminate].
  cbn [mbind result_bind] in H.
  destruct (mget _ 1 0) as [a|] eqn:Ha; [|discriminate].
  destruct (mget _ 0 0) as [b|] eqn:Hb; [|discriminate].
  cbn [mbind result_bind] in H.
  destruct (ew2 xzero czero _ _ _) as [gamma|] eqn:Hg; [|discriminate].
  cbn [mbind result_bind] in H.
  destruct (kappa._conjugate_inversion_kernel _ _) as [D|] eqn:HD; [|discriminate].
  cbn [mbind result_bind] in H.
  destruct (ew2 czero czero cmul _ _) as [Tk|] eqn:HT; [|discriminate].
  cbn [mbind result_bind] in H. injection H as <-.
  by exists d, n, a, b, gamma, D, Tk.
Qed.

(** C10.  In every map that [KappaMap.__init__] returns, both coordinate
    arrays are the shear map's [px]; the two components of [bin_size] are
    the same number, read from [px]; the kernel is built from the
    frequencies of that one spacing on both axes; and a shear map that
    differs only in its [py] array yields the same bin size and the same
    convergence field. *)
Theorem C10_y_spacing_is_x_spacing data nbins gals_per_bins box_size_hMpc cosmo km :
  (forall d n,
     let sm := ShearMap_init d n gals_per_bins box_size_hMpc cosmo in
     let sm' := ShearMap_init' d n gals_per_bins box_size_hMpc cosmo in
     kappa.sm_px sm' = kappa.sm_px sm /\ kappa.sm_e1 sm' = kappa.sm_e1 sm /\
     kappa.sm_e2 sm' = kappa.sm_e2 sm) ->
  kappa.KappaMap_init ShearMap_init fft2 ifft2 data nbins gals_per_bins box_size_hMpc cosmo
    = OK km ->
  kappa.px km = kappa.sm_px (kappa.shear_map km) /\
  kappa.py km = kappa.sm_px (kappa.shear_map km) /\
  (exists a b,
     mget (kappa.sm_px (kappa.shear_map km)) 1 0 = OK a /\
     mget (kappa.sm_px (kappa.shear_map km)) 0 0 = OK b /\
     kappa.bin_size km = (xsub a b, xsub a b)) /\
  snd (kappa.bin_size km) = fst (kappa.bin_size km) /\
  (forall n, kappa._conjugate_inversion_kernel (kappa.bin_size km) n =
     mset (grid kernel_entry (kappa.fftfreq n (fst (kappa.bin_size km)))
             (kappa.fftfreq n (fst (kappa.bin_size km)))) 0 0 czero) /\
  exists km',
    kappa.KappaMap_init ShearMap_init' fft2 ifft2 data nbins gals_per_bins box_size_hMpc cosmo
      = OK km' /\
    kappa.bin_size km' = kappa.bin_size km /\ kappa.kappa km' = kappa.kappa km /\
    kappa.py km' = kappa.py km.
Proof.
  intros Hagree H.
  destruct (KappaMap_init_inv _ _ _ _ _ _ H)
    as (d & n & a & b & gamma & D & Tk & -> & -> & Ha & Hb & Hg & HD & HT & ->).
  cbn [kappa.px kappa.py kappa.shear_map kappa.bin_size kappa.kappa fst snd].
  split; [done|]. split; [done|]. split; [by exists a, b|]. split; [done|].
  split; [intros n'; by rewrite kernel_unfold|].
  destruct (Hagree d n) as (Hpx & He1 & He2).
  unfold kappa.KappaMap_init. cbn [mbind result_bind].
  rewrite Hpx, He1, He2, Ha, Hb. cbn [mbind result_bind].
  rewrite Hg. cbn [mbind result_bind]. rewrite HD. cbn [mbind result_bind].
  rewrite HT. cbn [mbind result_bind]. eexists. split; [reflexivity|]. done.
Qed.

End KappaMap_spacing.

(** ** The profile builder: one bin *)

Lemma mask_select_fmap {A B} (f : A -> B) mask (l : list A) :
  mask_select mask (f <$> l) = f <$> mask_select mask l.
Proof.
  revert l. induction mask as [|b mask IH]; intros [|x l]; simpl; try done.
  destruct b; simpl; by rewrite IH.
Qed.

Lemma mask_sum_select {A} mask (l : list A) :
  length mask = length l -> shear.mask_sum mask = Z.of_nat (length (mask_select mask l)).
Proof.
  unfold shear.mask_sum. revert l.
  induction mask as [|b mask IH]; intros [|x l] Hlen; simpl in *; try done.
  injection Hlen as Hlen. specialize (IH l Hlen).
  destruct b.
  - rewrite filter_cons_True by done. simpl. lia.
  - rewrite filter_cons_False by done. done.
Qed.

Lemma np_average_weighted (a w : list xnum) :
  np_average a w =
  if xeqb (xsum w) xzero then Err ZeroDivisionError else OK (weighted_average a w).
Proof. reflexivity. Qed.

Section Profile_bin.

Context `{Ext : External} `{Rnd : NumpyRandom}.

(** The generator is left as it was found, and the errors do not depend
    on its state. *)
Lemma boot_error_state sh ce w nb s :
  shear._boot_error sh ce w nb s = (boot_error sh ce w nb, s).
Proof.
  unfold boot_error, shear._boot_error.
  destruct (bootstrap (seq 0 (length sh)) nb (rng_seed 1)) as [r s']. reflexivity.
Qed.

Lemma row_at_Some a i r :
  row_at a i = Some r ->
  shear.a_shear a !! i = Some (b_shear r) /\ shear.a_cero a !! i = Some (b_cero r) /\
  shear.a_shear_error a !! i = Some (b_shear_error r) /\
  shear.a_cero_error a !! i = Some (b_cero_error r) /\
  shear.a_stat_error a !! i = Some (b_stat_error r) /\
  shear.a_m_cal a !! i = Some (b_m_cal r) /\ shear.a_N a !! i = Some (b_N r).
Proof.
  unfold row_at. intros H.
  destruct (shear.a_shear a !! i); [|done]. destruct (shear.a_cero a !! i); [|done].
  destruct (shear.a_shear_error a !! i); [|done].
  destruct (shear.a_cero_error a !! i); [|done].
  destruct (shear.a_stat_error a !! i); [|done].
  destruct (shear.a_m_cal a !! i); [|done]. destruct (shear.a_N a !! i); [|done].
  simpl in H. injection H as <-. done.
Qed.

Lemma row_at_lookups a i x1 x2 x3 x4 x5 x6 x7 :
  shear.a_shear a !! i = Some x1 -> shear.a_cero a !! i = Some x2 ->
  shear.a_shear_error a !! i = Some x3 -> shear.a_cero_error a !! i = Some x4 ->
  shear.a_stat_error a !! i = Some x5 -> shear.a_m_cal a !! i = Some x6 ->
  shear.a_N a !! i = Some x7 ->
  row_at a i = Some (mkBinRow x1 x2 x3 x4 x5 x6 x7).
Proof. unfold row_at. by intros -> -> -> -> -> -> ->. Qed.

(** The body of the loop writes, at index [i], the statistics of the
    galaxies of bin [i]. *)
Lemma bin_body_stats h rows digitized bf bn i a s old :
  length digitized = length rows ->
  row_at a i = Some old ->
  shear.bin_body (table_arrays h rows digitized) bf bn i a s =
  (r ← bin_stats h bf bn (bin_galaxies rows ((fun d => (d - 1)%Z) <$> digitized) i) old;
   OK (set_row i r a), s).
Proof.
  intros Hlen Hold.
  apply row_at_Some in Hold as (H1 & H2 & H3 & H4 & H5 & H6 & H7).
  unfold shear.bin_body, shear.bin_mask, bin_galaxies, table_arrays.
  cbn [shear.g_digit shear.g_weight shear.g_m shear.g_et shear.g_ex shear.g_sigma_critic
       shear.a_shear shear.a_cero shear.a_shear_error shear.a_cero_error
       shear.a_stat_error shear.a_m_cal shear.a_N].
  set (mask := (fun d => bool_decide (d = Z.of_nat i)) <$> ((fun d => (d - 1)%Z) <$> digitized)).
  assert (Hmask : length mask = length rows)
    by (unfold mask; by rewrite !length_fmap).
  rewrite (mask_sum_select mask rows Hmask).
  rewrite !mask_select_fmap.
  set (G := mask_select mask rows).
  assert (Hi : (i < length (shear.a_N a))%nat) by (by eapply lookup_lt_Some).
  rewrite list_lookup_insert_eq by done.
  destruct (decide (Some (Z.of_nat (length G)) = Some 0%Z)) as [Hz|Hnz].
  { assert (HG : G = []) by (destruct G; [done|simpl in Hz; injection Hz; lia]).
    rewrite HG. cbn [bin_stats mbind result_bind].
    do 2 f_equal. unfold set_row; simpl.
    destruct a; simpl in *. f_equal; symmetry; by apply list_insert_id. }
  assert (Hw : zip_with xdiv (shear.weight <$> G) (xsq <$> (gal_sigma_critic <$> G))
               = gal_weight <$> G).
  { rewrite <- list_fmap_compose, zip_with_fmap_l, zip_with_fmap_r, zip_with_diag. done. }
  rewrite Hw.
  assert (Ht : zip_with xmul (gal_et h <$> G) (gal_sigma_critic <$> G)
               = (fun gal => xmul (gal_et h gal) (gal_sigma_critic gal)) <$> G)
    by (by rewrite zip_with_fmap_l, zip_with_fmap_r, zip_with_diag).
  assert (Hx : zip_with xmul (gal_ex h <$> G) (gal_sigma_critic <$> G)
               = (fun gal => xmul (gal_ex h gal) (gal_sigma_critic gal)) <$> G)
    by (by rewrite zip_with_fmap_l, zip_with_fmap_r, zip_with_diag).
  rewrite Ht, Hx.
  assert (Hs : (fun x => xsq x)
                 <$> zip_with xmul ((fun w => xmul (Fin (qfrac 1 4)) w) <$> (gal_weight <$> G))
                       (gal_sigma_critic <$> G)
               = (fun gal => xsq (xmul (xmul (Fin (qfrac 1 4)) (gal_weight gal))
                                       (gal_sigma_critic gal))) <$> G).
  { rewrite <- list_fmap_compose, zip_with_fmap_l, zip_with_fmap_r, zip_with_diag.
    by rewrite <- list_fmap_compose. }
  rewrite Hs.
  rewrite !np_average_weighted.
  assert (Hst : bin_stats h bf bn G old = occupied_bin_stats h bf bn G old).
  { destruct G; [simpl in Hnz; done|done]. }
  rewrite Hst. unfold occupied_bin_stats.
  destruct (xeqb (xsum (gal_weight <$> G)) xzero); [done|].
  rewrite boot_error_state.
  destruct bf.
  - destruct (boot_error _ _ _ bn) as [[err_t err_x]|e]; [|done].
    reflexivity.
  - cbn [mbind result_bind]. do 2 f_equal. unfold set_row.
    cbn [b_shear b_cero b_shear_error b_cero_error b_stat_error b_m_cal b_N
         shear.a_shear shear.a_cero shear.a_shear_error shear.a_cero_error
         shear.a_stat_error shear.a_m_cal shear.a_N].
    f_equal; symmetry; by apply list_insert_id.
Qed.

End Profile_bin.

(** ** The profile builder: the loop over the bins *)

Section Profile_loop.

Context `{Ext : External} `{Rnd : NumpyRandom}.

Lemma arrays_length_row nb a i :
  arrays_length nb a -> (i < nb)%nat -> exists old, row_at a i = Some old.
Proof.
  intros (L1 & L2 & L3 & L4 & L5 & L6 & L7) Hi.
  destruct (lookup_lt_is_Some_2 (shear.a_shear a) i) as [x1 H1]; [lia|].
  destruct (lookup_lt_is_Some_2 (shear.a_cero a) i) as [x2 H2]; [lia|].
  destruct (lookup_lt_is_Some_2 (shear.a_shear_error a) i) as [x3 H3]; [lia|].
  destruct (lookup_lt_is_Some_2 (shear.a_cero_error a) i) as [x4 H4]; [lia|].
  destruct (lookup_lt_is_Some_2 (shear.a_stat_error a) i) as [x5 H5]; [lia|].
  destruct (lookup_lt_is_Some_2 (shear.a_m_cal a) i) as [x6 H6]; [lia|].
  destruct (lookup_lt_is_Some_2 (shear.a_N a) i) as [x7 H7]; [lia|].
  eexists. by apply row_at_lookups.
Qed.

Lemma set_row_length nb i r a : arrays_length nb a -> arrays_length nb (set_row i r a).
Proof.
  intros (L1 & L2 & L3 & L4 & L5 & L6 & L7). unfold arrays_length, set_row; simpl.
  by rewrite !length_insert.
Qed.

Lemma row_at_set_row_eq nb i r a :
  arrays_length nb a -> (i < nb)%nat -> row_at (set_row i r a) i = Some r.
Proof.
  intros (L1 & L2 & L3 & L4 & L5 & L6 & L7) Hi. destruct r.
  apply row_at_lookups; unfold set_row; simpl; apply list_lookup_insert_eq; lia.
Qed.

Lemma row_at_set_row_ne i j r a : i <> j -> row_at (set_row i r a) j = row_at a j.
Proof.
  intros Hij. unfold row_at, set_row; simpl.
  by rewrite !list_lookup_insert_ne.
Qed.

(** What the loop over the bins [i0, i0 + count) leaves behind: the state
    of the generator is the one it started from; on success every bin of
    the range holds its statistics and the other bins are untouched; a
    failure is the failure of the statistics of one bin of the range. *)
Lemma bin_loop_spec h rows digitized bf bn nb count :
  length digitized = length rows ->
  forall i0 a s,
  arrays_length nb a -> (i0 + count <= nb)%nat ->
  let G := bin_galaxies rows ((fun d => (d - 1)%Z) <$> digitized) in
  let res := shear.bin_loop (table_arrays h rows digitized) bf bn i0 count a s in
  snd res = s /\
  match fst res with
  | OK a' =>
      arrays_length nb a' /\
      (forall i, (i0 <= i < i0 + count)%nat ->
         exists old r, row_at a i = Some old /\
           bin_stats h bf bn (G i) old = OK r /\ row_at a' i = Some r) /\
      (forall j, (j < i0 \/ i0 + count <= j)%nat -> row_at a' j = row_at a j)
  | Err e =>
      exists i old, (i0 <= i < i0 + count)%nat /\ row_at a i = Some old /\
        bin_stats h bf bn (G i) old = Err e
  end.
Proof.
  intros Hlen. induction count as [|count IH]; intros i0 a s Ha Hle G res.
  { subst res; simpl. split; [done|]. split; [done|]. split; [intros; lia|done]. }
  subst res. cbn [shear.bin_loop].
  destruct (arrays_length_row nb a i0 Ha) as [old Hold]; [lia|].
  rewrite (bin_body_stats h rows digitized bf bn i0 a s old Hlen Hold).
  fold (G i0).
  destruct (bin_stats h bf bn (G i0) old) as [r|e] eqn:Hst; cbn [mbind result_bind].
  2:{ split; [done|]. cbn [fst]. exists i0, old. split; [lia|done]. }
  assert (Ha1 : arrays_length nb (set_row i0 r a)) by by apply set_row_length.
  specialize (IH (S i0) (set_row i0 r a) s Ha1 ltac:(lia)). cbv zeta in IH.
  destruct IH as [IHs IHr]. split; [done|].
  destruct (fst (shear.bin_loop _ bf bn (S i0) count (set_row i0 r a) s)) as [a'|e] eqn:Hres.
  - destruct IHr as (Hlen' & Hin & Hout). split; [done|]. split.
    + intros i Hi. destruct (decide (i = i0)) as [->|Hne].
      * exists old, r. split; [done|]. split; [done|].
        rewrite Hout by lia. eapply row_at_set_row_eq; [done|lia].
      * destruct (Hin i ltac:(lia)) as (old' & r' & Ho & Hs & Hr).
        exists old', r'. rewrite row_at_set_row_ne in Ho by done. done.
    + intros j Hj. rewrite Hout by lia. apply row_at_set_row_ne. lia.
  - destruct IHr as (i & old' & Hi & Ho & Hs).
    exists i, old'. split; [lia|]. rewrite row_at_set_row_ne in Ho by lia. done.
Qed.

End Profile_loop.

(** ** The profile builder: the constructor *)

Section Profile_constructor.

Context `{Ext : External} `{Rnd : NumpyRandom}.

(** The constructor on a table with named columns, with its arrays
    written galaxy by galaxy. *)
(** The loop of the search has ended when the fuel is spent: after at
    most [max_idx - min_idx] passes the bounds have met, on any array. *)
Lemma binsearch_loop_ends fuel arr key min_idx max_idx :
  (max_idx - min_idx <= fuel)%nat ->
  (snd (binsearch_loop fuel arr key min_idx max_idx)
   <= fst (binsearch_loop fuel arr key min_idx max_idx))%nat.
Proof.
  revert min_idx max_idx. induction fuel as [|fuel IH]; intros mn mx Hfuel.
  { cbn [binsearch_loop fst snd]. lia. }
  cbn [binsearch_loop]. destruct (mn <? mx)%nat eqn:Hlt.
  - apply Nat.ltb_lt in Hlt.
    assert (Hhalf : ((mx - mn) / 2 < mx - mn)%nat) by (apply Nat.div_lt; lia).
    destruct (npy_le _ key); apply IH; lia.
  - apply Nat.ltb_ge in Hlt. cbn [fst snd]. lia.
Qed.

Lemma binsearch_keys_length arr keys min_idx max_idx last :
  length (binsearch_keys arr keys min_idx max_idx last) = length keys.
Proof.
  revert min_idx max_idx last. induction keys as [|key keys IH]; intros mn mx last; [done|].
  cbn [binsearch_keys]. destruct (if npy_le last key then _ else _) as [mn' mx'].
  destruct (binsearch_loop _ _ _ _ _) as [mn'' mx'']. cbn [length]. by rewrite IH.
Qed.

Lemma np_searchsorted_right_length arr keys :
  length (np_searchsorted_right arr keys) = length keys.
Proof. destruct keys; [done|]. apply binsearch_keys_length. Qed.

Lemma np_digitize_length x bins digitized :
  np_digitize x bins = OK digitized -> length digitized = length x.
Proof.
  unfold np_digitize. destruct (check_array_monotonic bins =? 0)%Z; [done|].
  destruct (check_array_monotonic bins =? -1)%Z; intros [= <-];
    by rewrite length_fmap, np_searchsorted_right_length.
Qed.

Lemma Profile_init_Table h rows rin rout bins space bf bn s :
  shear.Profile_init (shear.Table rows) rin rout bins space h bf bn s =
  match shear.make_bins rin rout bins space with
  | Err e => (Err e, s)
  | OK edges =>
      match np_digitize (gal_dist_hMpc h <$> rows) edges with
      | Err e => (Err e, s)
      | OK digitized =>
          let nbin := (Z.of_nat (length edges) - 1)%Z in
          if (nbin <? 0)%Z then (Err ValueError, s)
          else
            match shear.bin_loop (table_arrays h rows digitized) bf bn 0 (Z.to_nat nbin)
                    (initial_arrays nbin) s with
            | (Err e, s) => (Err e, s)
            | (OK a, s) =>
                (OK (shear.mkProfile (gal_Mpc_scale <$> rows) (gal_beta <$> rows)
                       (gal_sigma_critic <$> rows) edges
                       ((fun x => xmul (Fin (qfrac 1 2)) x)
                          <$> zip_with xadd (removelast edges) (tail edges))
                       (shear.a_shear a) (shear.a_cero a) (shear.a_shear_error a)
                       (shear.a_cero_error a) (shear.a_stat_error a) (shear.a_N a)), s)
            end
      end
  end.
Proof.
  unfold shear.Profile_init, shear.column, shear.set_sigma_critic, shear.set_Mpc_scale.
  cbn [mbind result_bind].
  assert (H1 : (fun d => xmul d (np_deg2rad (xdiv (Fin 1) (xofZ 3600)))) <$> (shear.DL <$> rows)
               = gal_Mpc_scale <$> rows) by (by rewrite <- list_fmap_compose).
  rewrite H1.
  assert (H2 : zip_with xdiv (shear.DLS <$> rows) (shear.DS <$> rows) = gal_beta <$> rows)
    by (by rewrite zip_with_fmap_l, zip_with_fmap_r, zip_with_diag).
  rewrite H2.
  assert (H3 : zip_with (fun d b =>
      xmul (xmul (xdiv (xsq shear.cvel)
                       (xmul (xmul (xmul (xofZ 4) (Fin np_pi)) shear.G)
                             (xmul (xmul d (xofZ 1000000)) shear.pc)))
                 (xdiv (Fin 1) b))
           (xdiv (xsq shear.pc) shear.Msun)) (shear.DL <$> rows) (gal_beta <$> rows)
      = gal_sigma_critic <$> rows)
    by (by rewrite zip_with_fmap_l, zip_with_fmap_r, zip_with_diag).
  rewrite H3.
  assert (H4 : zip_with (shear.galaxy_geometry h) (gal_Mpc_scale <$> rows) rows
               = (fun gal => shear.galaxy_geometry h (gal_Mpc_scale gal) gal) <$> rows)
    by (by rewrite zip_with_fmap_l, zip_with_diag).
  rewrite H4, <- !list_fmap_compose.
  change ((fun t : xnum * xnum * xnum => t.1.1) ∘ _) with (gal_dist_hMpc h).
  change ((fun t : xnum * xnum * xnum => t.1.2) ∘ _) with (gal_et h).
  change (snd ∘ _) with (gal_ex h).
  destruct (shear.make_bins rin rout bins space) as [edges|e]; [|done].
  cbn [mbind result_bind].
  destruct (np_digitize (gal_dist_hMpc h <$> rows) edges) as [digitized|e]; [|done].
  cbn [mbind result_bind]. unfold np_full.
  destruct (Z.of_nat (length edges) - 1 <? 0)%Z; [done|].
  cbn [mbind result_bind]. reflexivity.
Qed.

Lemma row_at_initial nbin i :
  (i < Z.to_nat nbin)%nat -> row_at (initial_arrays nbin) i = Some default_row.
Proof.
  intros Hi. unfold initial_arrays; cbv zeta.
  apply row_at_lookups; simpl; by apply lookup_replicate_2.
Qed.

Lemma initial_arrays_length nbin : arrays_length (Z.to_nat nbin) (initial_arrays nbin).
Proof. unfold arrays_length, initial_arrays; simpl. by rewrite !length_replicate. Qed.

(** The constructor on a table, bin by bin.  It leaves the generator as
    it found it.  When the edges are there and [np.digitize] accepts them,
    it returns a profile in which every bin holds the statistics of its
    galaxies, computed from the default values, or it fails as the
    statistics of one of the bins fail. *)
Lemma Profile_init_bins h rows rin rout bins space bf bn s edges digitized :
  shear.make_bins rin rout bins space = OK edges ->
  np_digitize (gal_dist_hMpc h <$> rows) edges = OK digitized ->
  (0 < length edges)%nat ->
  let nbin := (length edges - 1)%nat in
  let G := bin_galaxies rows ((fun d => (d - 1)%Z) <$> digitized) in
  let res := shear.Profile_init (shear.Table rows) rin rout bins space h bf bn s in
  snd res = s /\
  match fst res with
  | OK p =>
      shear.bins p = edges /\
      length (shear.shear p) = nbin /\ length (shear.cero p) = nbin /\
      length (shear.shear_error p) = nbin /\ length (shear.cero_error p) = nbin /\
      length (shear.stat_error p) = nbin /\ length (shear.N p) = nbin /\
      forall i, (i < nbin)%nat ->
        exists r, bin_stats h bf bn (G i) default_row = OK r /\ profile_row p i r
  | Err e =>
      exists i, (i < nbin)%nat /\ bin_stats h bf bn (G i) default_row = Err e
  end.
Proof.
  intros Hbins Hdig Hpos nbin G res. subst res.
  rewrite Profile_init_Table, Hbins, Hdig. cbv zeta.
  assert (Hnb : (Z.of_nat (length edges) - 1 <? 0)%Z = false) by lia.
  rewrite Hnb.
  assert (Hto : Z.to_nat (Z.of_nat (length edges) - 1) = nbin) by (subst nbin; lia).
  assert (Hlen : length digitized = length rows).
  { rewrite (np_digitize_length _ _ _ Hdig). by rewrite length_fmap. }
  pose proof (bin_loop_spec h rows digitized bf bn nbin nbin Hlen 0
                (initial_arrays (Z.of_nat (length edges) - 1)) s) as Hloop.
  rewrite <- Hto in Hloop at 1.
  specialize (Hloop (initial_arrays_length _) ltac:(lia)). cbv zeta in Hloop.
  rewrite Hto.
  destruct (shear.bin_loop _ bf bn 0 nbin _ s) as [[a|e] s'].
  - destruct Hloop as [Hs (Hl & Hin & _)]. simpl in Hs. subst s'. split; [done|].
    cbn [fst shear.bins shear.shear shear.cero shear.shear_error shear.cero_error
         shear.stat_error shear.N].
    destruct Hl as (L1 & L2 & L3 & L4 & L5 & L6 & L7).
    do 7 (split; [done|]).
    intros i Hi. destruct (Hin i ltac:(lia)) as (old & r & Ho & Hst & Hr).
    rewrite row_at_initial in Ho by lia. injection Ho as <-.
    exists r. split; [done|].
    apply row_at_Some in Hr as (R1 & R2 & R3 & R4 & R5 & R6 & R7).
    unfold profile_row. simpl. done.
  - destruct Hloop as [Hs (i & old & Hi & Ho & Hst)]. simpl in Hs. subst s'.
    split; [done|]. cbn [fst]. exists i. split; [lia|].
    rewrite row_at_initial in Ho by lia. by injection Ho as <-.
Qed.

End Profile_constructor.

(** ** Order on the extended numbers, and [np.digitize] *)

Lemma xeqb_sym a b : xeqb a b = xeqb b a.
Proof.
  destruct a as [p| | |], b as [q| | |]; try reflexivity.
  rewrite !xeqb_Fin. apply bool_decide_ext. split; congruence.
Qed.

Lemma xleb_not_gt a b : xleb a b = true -> xltb b a = false.
Proof.
  unfold xleb. destruct a as [p| | |], b as [q| | |]; try done.
  rewrite !xltb_Fin, xeqb_Fin. intros H.
  apply bool_decide_eq_false_2. intros Hlt.
  apply orb_true_iff in H as [H|H]; apply bool_decide_eq_true_1 in H.
  - exact (Qclt_irrefl _ (Qclt_trans _ _ _ H Hlt)).
  - subst. by apply Qclt_irrefl in Hlt.
Qed.

Lemma xltb_total a b :
  xltb a b = false -> xeqb a a = true -> xeqb b b = true -> xleb b a = true.
Proof.
  unfold xleb. destruct a as [p| | |], b as [q| | |]; try done.
  rewrite !xltb_Fin, !xeqb_Fin. intros H _ _.
  apply bool_decide_eq_false_1 in H. apply Qcnot_lt_le in H.
  apply Qcle_lt_or_eq in H as [H|E].
  - by rewrite (bool_decide_eq_true_2 _ H).
  - rewrite (bool_decide_eq_true_2 (q = p)) by done. apply orb_true_r.
Qed.

Lemma xltb_le_trans d a b : xltb d a = true -> xleb a b = true -> xltb d b = true.
Proof.
  unfold xleb. destruct d as [r| | |], a as [p| | |], b as [q| | |]; try done.
  rewrite !xltb_Fin, xeqb_Fin. intros H1 H2.
  apply bool_decide_eq_true_1 in H1. apply bool_decide_eq_true_2.
  apply orb_true_iff in H2 as [H2|H2]; apply bool_decide_eq_true_1 in H2.
  - by eapply Qclt_trans.
  - by subst.
Qed.

Lemma xltb_trans a b c : xltb a b = true -> xltb b c = true -> xltb a c = true.
Proof.
  destruct a as [p| | |], b as [q| | |], c as [r| | |]; try done.
  rewrite !xltb_Fin. intros H1%bool_decide_eq_true H2%bool_decide_eq_true.
  apply bool_decide_eq_true. by eapply Qclt_trans.
Qed.

Lemma xleb_lt_trans a b c : xleb a b = true -> xltb b c = true -> xltb a c = true.
Proof.
  unfold xleb. intros [Hlt|Heq]%orb_true_iff Hbc; [by eapply xltb_trans|].
  destruct a as [p| | |], b as [q| | |]; try done.
  rewrite xeqb_Fin in Heq. apply bool_decide_eq_true in Heq. by subst.
Qed.

Lemma xltb_not_nan_l a b : xltb a b = true -> xeqb a a = true.
Proof.
  destruct a as [p| | |]; [| done | done | by destruct b].
  intros _. rewrite xeqb_Fin. by apply bool_decide_eq_true_2.
Qed.

Lemma xleb_not_nan_r a b : xleb a b = true -> xeqb b b = true.
Proof.
  unfold xleb. destruct b as [q| | |]; [| done | done | by destruct a].
  intros _. rewrite xeqb_Fin. by apply bool_decide_eq_true_2.
Qed.

Lemma npy_lt_not_nan v x : xeqb x x = true -> npy_lt v x = xltb v x.
Proof. unfold npy_lt. intros ->. simpl. apply orb_false_r. Qed.

Lemma nondecreasing_tail e edges : nondecreasing (e :: edges) -> nondecreasing edges.
Proof. intros H i j a b Hij Ha Hb. by apply (H (S i) (S j) a b); [lia| |]. Qed.

Lemma nondecreasing_not_nan edges i e :
  nondecreasing edges -> edges !! i = Some e -> xeqb e e = true.
Proof. intros H He. apply (xleb_not_nan_r e e). by apply (H i i); [lia| |]. Qed.

(** On non-decreasing edges the scan stops at the first edge greater than
    the value: the edges before it are not greater, the edges from it on
    are. *)
Lemma searchsorted_right_spec edges d :
  nondecreasing edges ->
  let k := searchsorted_right edges d in
  (k <= length edges)%nat /\
  (forall i e, (i < k)%nat -> edges !! i = Some e -> xltb d e = false) /\
  (forall i e, (k <= i)%nat -> edges !! i = Some e -> xltb d e = true).
Proof.
  induction edges as [|x edges IH]; intros Hnd; simpl.
  { split; [lia|]. split; intros; [lia|done]. }
  assert (Hx : xeqb x x = true) by (by apply (nondecreasing_not_nan (x :: edges) 0%nat)).
  rewrite (npy_lt_not_nan d x Hx).
  destruct (xltb d x) eqn:Hlt.
  - split; [lia|]. split; [intros; lia|].
    intros i e _ He. apply (xltb_le_trans d x e Hlt). by apply (Hnd 0%nat i); [lia| |].
  - destruct (IH (nondecreasing_tail _ _ Hnd)) as (Hk & Hbefore & Hafter).
    split; [lia|]. split.
    + intros [|i] e Hi He; simpl in He; [by injection He as <-|].
      apply (Hbefore i); [lia|done].
    + intros [|i] e Hi He; [lia|]. simpl in He. apply (Hafter i); [lia|done].
Qed.

(** The bin index of a distance is [i] exactly when the distance lies in
    the right-open interval of bin [i]. *)
Lemma digit_in_bin edges d i :
  nondecreasing edges -> (S i < length edges)%nat ->
  bool_decide ((Z.of_nat (searchsorted_right edges d) - 1)%Z = Z.of_nat i) = in_binb edges i d.
Proof.
  intros Hnd Hi. destruct (searchsorted_right_spec edges d Hnd) as (Hk & Hbefore & Hafter).
  unfold in_binb.
  destruct (lookup_lt_is_Some_2 edges i) as [lo Hlo]; [lia|].
  destruct (lookup_lt_is_Some_2 edges (S i)) as [hi Hhi]; [lia|].
  rewrite Hlo, Hhi.
  destruct (decide (searchsorted_right edges d = S i)) as [E|NE].
  - rewrite bool_decide_eq_true_2 by lia. symmetry. apply andb_true_iff.
    assert (Hd : xltb d hi = true) by (apply (Hafter (S i)); [lia|done]).
    split; [|done].
    apply xltb_total.
    + apply (Hbefore i); [lia|done].
    + by apply (xltb_not_nan_l d hi).
    + by apply (nondecreasing_not_nan edges i).
  - rewrite bool_decide_eq_false_2 by lia. symmetry. apply andb_false_iff.
    destruct (decide (searchsorted_right edges d <= i)%nat) as [Hle|Hgt].
    + left. apply not_true_iff_false. intros Hlo'.
      apply xleb_not_gt in Hlo'. rewrite (Hafter i lo Hle Hlo) in Hlo'. done.
    + right. apply (Hbefore (S i)); [lia|done].
Qed.

Lemma never_decreases_nondecreasing x edges :
  nondecreasing (x :: edges) -> never_decreases x edges = true.
Proof.
  revert x. induction edges as [|y edges IH]; intros x Hnd; simpl; [done|].
  unfold xgtb. rewrite (xleb_not_gt x y) by (apply (Hnd 0%nat 1%nat); [lia|done|done]).
  apply IH. by eapply nondecreasing_tail.
Qed.

Lemma skip_repeated_suffix x edges :
  exists n, skip_repeated x edges = drop n edges.
Proof.
  induction edges as [|y edges [n IH]]; simpl; [by exists 0%nat|].
  destruct (xeqb y x); [by exists (S n)|by exists 0%nat].
Qed.

Lemma skip_repeated_head x edges y rest :
  skip_repeated x edges = y :: rest -> xeqb y x = false.
Proof.
  induction edges as [|z edges IH]; simpl; [done|].
  destruct (xeqb z x) eqn:E; [done|]. by intros [= <- <-].
Qed.

Lemma nondecreasing_drop n edges : nondecreasing edges -> nondecreasing (drop n edges).
Proof.
  intros H i j a b Hij Ha Hb. rewrite lookup_drop in Ha, Hb.
  by apply (H (n + i)%nat (n + j)%nat); [lia| |].
Qed.

(** ** The binary search on sorted edges *)

Lemma npy_le_sorted edges i e key :
  nondecreasing edges -> edges !! i = Some e -> npy_le e key = negb (xltb key e).
Proof.
  intros Hnd He. unfold npy_le.
  by rewrite (npy_lt_not_nan key e (nondecreasing_not_nan edges i e Hnd He)).
Qed.

(** The loop of the search ends with both bounds at the index of the
    scan, when it starts from bounds that enclose it. *)
Lemma binsearch_loop_sorted edges key fuel :
  nondecreasing edges ->
  forall min_idx max_idx,
  (min_idx <= searchsorted_right edges key <= max_idx)%nat ->
  (max_idx <= length edges)%nat -> (max_idx - min_idx <= fuel)%nat ->
  binsearch_loop fuel edges key min_idx max_idx
  = (searchsorted_right edges key, searchsorted_right edges key).
Proof.
  intros Hnd. destruct (searchsorted_right_spec edges key Hnd) as (Hk & Hbefore & Hafter).
  set (k := searchsorted_right edges key) in *.
  induction fuel as [|fuel IH]; intros mn mx Hbounds Hmx Hfuel.
  { cbn [binsearch_loop]. f_equal; lia. }
  cbn [binsearch_loop]. destruct (mn <? mx)%nat eqn:Hlt.
  - apply Nat.ltb_lt in Hlt.
    assert (Hhalf : ((mx - mn) / 2 < mx - mn)%nat) by (apply Nat.div_lt; lia).
    set (mid := (mn + (mx - mn) / 2)%nat) in *.
    destruct (lookup_lt_is_Some_2 edges mid) as [e He]; [lia|].
    rewrite (nth_lookup_Some _ _ NaN _ He), (npy_le_sorted edges mid e key Hnd He).
    destruct (xltb key e) eqn:Hcmp; cbn [negb].
    + apply IH; [|lia|lia]. split; [lia|].
      destruct (decide (k <= mid)%nat) as [|Hgt]; [done|].
      rewrite (Hbefore mid e ltac:(lia) He) in Hcmp. done.
    + apply IH; [|lia|lia]. split; [|lia].
      destruct (decide (S mid <= k)%nat) as [|Hle]; [done|].
      rewrite (Hafter mid e ltac:(lia) He) in Hcmp. done.
  - apply Nat.ltb_ge in Hlt. f_equal; lia.
Qed.

(** The index of the scan grows with the key, in the order of the
    search. *)
Lemma searchsorted_right_mono edges last key :
  nondecreasing edges ->
  (if npy_le last key
   then (searchsorted_right edges last <= searchsorted_right edges key)%nat
   else (searchsorted_right edges key <= searchsorted_right edges last)%nat).
Proof.
  intros Hnd.
  destruct (searchsorted_right_spec edges last Hnd) as (Hl & Hlb & Hla).
  destruct (searchsorted_right_spec edges key Hnd) as (Hk & Hkb & Hka).
  set (kl := searchsorted_right edges last) in *.
  set (kk := searchsorted_right edges key) in *.
  unfold npy_le, npy_lt. destruct (xltb key last || negb (xeqb last last) && xeqb key key)
    eqn:Hcmp; cbn [negb].
  - destruct (decide (kk <= kl)%nat) as [|Hgt]; [done|]. exfalso.
    destruct (lookup_lt_is_Some_2 edges kl) as [e He]; [lia|].
    pose proof (Hla kl e ltac:(lia) He) as H1.
    pose proof (Hkb kl e ltac:(lia) He) as H2.
    apply orb_true_iff in Hcmp as [Hc|Hc].
    + by rewrite (xltb_trans key last e Hc H1) in H2.
    + apply andb_true_iff in Hc as [Hc _].
      by rewrite (xltb_not_nan_l last e H1) in Hc.
  - destruct (decide (kl <= kk)%nat) as [|Hgt]; [done|]. exfalso.
    destruct (lookup_lt_is_Some_2 edges kk) as [e He]; [lia|].
    pose proof (Hka kk e ltac:(lia) He) as H1.
    pose proof (Hlb kk e ltac:(lia) He) as H2.
    apply orb_false_iff in Hcmp as [Hc1 Hc2].
    pose proof (xltb_not_nan_l key e H1) as Hkey. rewrite Hkey, andb_true_r in Hc2.
    apply negb_false_iff in Hc2.
    pose proof (xltb_total key last Hc1 Hkey Hc2) as Hle.
    by rewrite (xleb_lt_trans last key e Hle H1) in H2.
Qed.

Lemma binsearch_keys_sorted edges keys last :
  nondecreasing edges ->
  binsearch_keys edges keys (searchsorted_right edges last) (searchsorted_right edges last)
    last = searchsorted_right edges <$> keys.
Proof.
  intros Hnd. revert last. induction keys as [|key keys IH]; intros last; [done|].
  cbn [binsearch_keys]. rewrite fmap_cons.
  destruct (searchsorted_right_spec edges last Hnd) as (Hl & _ & _).
  destruct (searchsorted_right_spec edges key Hnd) as (Hk & _ & _).
  pose proof (searchsorted_right_mono edges last key Hnd) as Hmono.
  destruct (npy_le last key).
  - rewrite (binsearch_loop_sorted edges key (length edges) Hnd) by lia.
    by rewrite IH.
  - destruct (searchsorted_right edges last <? length edges)%nat eqn:Hlt.
    + apply Nat.ltb_lt in Hlt.
      rewrite (binsearch_loop_sorted edges key (length edges) Hnd) by lia.
      by rewrite IH.
    + rewrite (binsearch_loop_sorted edges key (length edges) Hnd) by lia.
      by rewrite IH.
Qed.

(** On sorted edges without NaN, [np.searchsorted] returns for each key
    the index of the scan. *)
Lemma np_searchsorted_right_sorted edges keys :
  nondecreasing edges ->
  np_searchsorted_right edges keys = searchsorted_right edges <$> keys.
Proof.
  intros Hnd. destruct keys as [|key keys]; [done|].
  unfold np_searchsorted_right. cbn [binsearch_keys]. rewrite fmap_cons.
  destruct (searchsorted_right_spec edges key Hnd) as (Hk & _ & _).
  assert (Hrefl : npy_le key key = true).
  { unfold npy_le, npy_lt. destruct key as [q| | |]; try done.
    rewrite xltb_Fin, xeqb_Fin, bool_decide_eq_false_2 by apply Qclt_irrefl.
    by rewrite bool_decide_eq_true_2. }
  rewrite Hrefl.
  rewrite (binsearch_loop_sorted edges key (length edges) Hnd) by lia.
  by rewrite binsearch_keys_sorted.
Qed.

(** [np.digitize] accepts non-decreasing edges and searches them from the
    left. *)
Lemma np_digitize_nondecreasing x edges :
  nondecreasing edges ->
  np_digitize x edges = OK ((fun v => Z.of_nat (searchsorted_right edges v)) <$> x).
Proof.
  intros Hnd. unfold np_digitize.
  assert (Hmono : check_array_monotonic edges = 1%Z).
  { unfold check_array_monotonic. destruct edges as [|x0 rest]; [done|].
    destruct (skip_repeated x0 rest) as [|next rest'] eqn:Hskip; [done|].
    destruct (skip_repeated_suffix x0 rest) as [n Hn]. rewrite Hskip in Hn.
    pose proof (skip_repeated_head _ _ _ _ Hskip) as Hne.
    assert (Hin : rest !! n = Some next) by (by rewrite <- (Nat.add_0_r n), <- lookup_drop, <- Hn).
    assert (Hle : xleb x0 next = true) by (apply (Hnd 0%nat (S n)); [lia|done|done]).
    assert (Hlt : xltb x0 next = true).
    { unfold xleb in Hle. rewrite xeqb_sym, Hne, orb_false_r in Hle. done. }
    rewrite Hlt, never_decreases_nondecreasing; [done|].
    rewrite Hn. apply nondecreasing_drop. by eapply nondecreasing_tail. }
  rewrite Hmono. cbn [Z.eqb]. f_equal.
  rewrite (np_searchsorted_right_sorted edges x Hnd). by rewrite <- list_fmap_compose.
Qed.

Lemma mask_select_filter {A} (b : A -> bool) (l : list A) :
  mask_select (b <$> l) l = List.filter b l.
Proof.
  induction l as [|x l IH]; [done|].
  rewrite fmap_cons. cbn [mask_select List.filter]. destruct (b x); by rewrite IH.
Qed.

(** The galaxies of bin [i] are the galaxies whose distance lies in the
    right-open interval of bin [i]. *)
Lemma bin_galaxies_interval `{Ext : External} h rows edges i :
  nondecreasing edges -> (S i < length edges)%nat ->
  bin_galaxies rows
    ((fun d => (d - 1)%Z)
       <$> ((fun v => Z.of_nat (searchsorted_right edges v)) <$> (gal_dist_hMpc h <$> rows))) i
  = List.filter (fun gal => in_binb edges i (gal_dist_hMpc h gal)) rows.
Proof.
  intros Hnd Hi. unfold bin_galaxies. rewrite <- !list_fmap_compose.
  rewrite <- mask_select_filter. f_equal. apply list_fmap_ext.
  intros _ gal _. simpl. by apply digit_in_bin.
Qed.

(** ** Determinism of the bootstrap step *)

Section Profile_determinism.

Context `{Ext : External} `{Rnd : NumpyRandom}.

Lemma bin_body_state g bf bn i a s s0 :
  shear.bin_body g bf bn i a s = (fst (shear.bin_body g bf bn i a s0), s).
Proof.
  unfold shear.bin_body. destruct (decide _); [done|].
  destruct (np_average _ _); [|done]. destruct (np_average _ _); [|done].
  destruct (np_average _ _); [|done]. destruct bf; [|done].
  rewrite !boot_error_state. by destruct (boot_error _ _ _ _) as [[??]|?].
Qed.

Lemma bin_loop_state g bf bn count : forall i a s s0,
  shear.bin_loop g bf bn i count a s = (fst (shear.bin_loop g bf bn i count a s0), s).
Proof.
  induction count as [|count IH]; intros i a s s0; simpl; [done|].
  rewrite (bin_body_state g bf bn i a s s0), (bin_body_state g bf bn i a s0 s0).
  destruct (fst (shear.bin_body g bf bn i a s0)) as [a'|e]; [|done].
  apply IH.
Qed.

Lemma Profile_init_state cat rin rout bins space h bf bn s s0 :
  shear.Profile_init cat rin rout bins space h bf bn s =
  (fst (shear.Profile_init cat rin rout bins space h bf bn s0), s).
Proof.
  unfold shear.Profile_init.
  match goal with |- context [match ?b with OK _ => _ | Err _ => _ end] =>
    destruct b as [[[[[[[[sc be] si] bi] rh] nb] a] g]|e] end; [|done].
  rewrite (bin_loop_state g bf bn _ 0 a s s0), (bin_loop_state g bf bn _ 0 a s0 s0).
  by destruct (fst (shear.bin_loop g bf bn 0 _ a s0)).
Qed.

(** C7.  Two runs of the constructor on the same arguments give the same
    result (profile or exception, bootstrap errors included) whatever the
    states of the global random generator at the two calls, and each run
    leaves the generator in the state it found; the same holds of
    [_boot_error] alone, which seeds the generator with 1 before it
    resamples. *)
Theorem C7_bootstrap_deterministic cat rin rout bins space h bf bn
    (sh ce w : list xnum) (s1 s2 : RNG) :
  fst (shear.Profile_init cat rin rout bins space h bf bn s1) =
    fst (shear.Profile_init cat rin rout bins space h bf bn s2) /\
  snd (shear.Profile_init cat rin rout bins space h bf bn s1) = s1 /\
  fst (shear._boot_error sh ce w bn s1) = fst (shear._boot_error sh ce w bn s2) /\
  snd (shear._boot_error sh ce w bn s1) = s1.
Proof.
  rewrite (Profile_init_state cat rin rout bins space h bf bn s1 s2).
  rewrite !boot_error_state. done.
Qed.

End Profile_determinism.

(** ** Empty bins *)

Section Profile_empty_bins.

Context `{Ext : External} `{Rnd : NumpyRandom}.

Lemma bin_stats_N h bf bn G old r :
  bin_stats h bf bn G old = OK r -> b_N r = Z.of_nat (length G).
Proof.
  destruct G as [|gal G]; simpl; [by intros [= <-]|].
  unfold occupied_bin_stats. destruct (xeqb _ _); [done|].
  destruct bf.
  - destruct (boot_error _ _ _ _) as [errs|]; [|done]. by intros [= <-].
  - by intros [= <-].
Qed.

(** C6.  Let the edges be there and accepted by [np.digitize].  The visit
    of a bin that holds no galaxy raises nothing and changes no value of
    that bin (its count is stored as 0); a failure of the constructor is
    the failure of a bin that holds at least one galaxy; and in every
    profile the constructor returns, a bin without galaxies has tangential
    shear, cross shear, both bootstrap errors and the statistical error
    exactly 0 and the count 0. *)
Theorem C6_empty_bins_are_zero h rows rin rout bins space bf bn s edges digitized :
  shear.make_bins rin rout bins space = OK edges ->
  np_digitize (gal_dist_hMpc h <$> rows) edges = OK digitized ->
  (0 < length edges)%nat ->
  let nbin := (length edges - 1)%nat in
  let G := bin_galaxies rows ((fun d => (d - 1)%Z) <$> digitized) in
  let res := shear.Profile_init (shear.Table rows) rin rout bins space h bf bn s in
  (forall i a s' old, G i = [] -> row_at a i = Some old ->
     shear.bin_body (table_arrays h rows digitized) bf bn i a s' =
     (OK (set_row i (mkBinRow (b_shear old) (b_cero old) (b_shear_error old)
                       (b_cero_error old) (b_stat_error old) (b_m_cal old) 0%Z) a), s')) /\
  (forall e, fst res = Err e ->
     exists i, (i < nbin)%nat /\ G i <> [] /\
       occupied_bin_stats h bf bn (G i) default_row = Err e) /\
  (forall p, fst res = OK p ->
     forall i, (i < nbin)%nat -> G i = [] ->
       shear.shear p !! i = Some (Fin 0) /\ shear.cero p !! i = Some (Fin 0) /\
       shear.shear_error p !! i = Some (Fin 0) /\ shear.cero_error p !! i = Some (Fin 0) /\
       shear.stat_error p !! i = Some (Fin 0) /\ shear.N p !! i = Some 0%Z).
Proof.
  intros Hbins Hdig Hpos nbin G res.
  assert (Hlen : length digitized = length rows).
  { rewrite (np_digitize_length _ _ _ Hdig). by rewrite length_fmap. }
  pose proof (Profile_init_bins h rows rin rout bins space bf bn s edges digitized
                Hbins Hdig Hpos) as [_ Hres].
  fold nbin G res in Hres.
  split; [|split].
  - intros i a s' old HG Hold.
    rewrite (bin_body_stats h rows digitized bf bn i a s' old Hlen Hold).
    fold (G i). by rewrite HG.
  - intros e He. rewrite He in Hres. destruct Hres as (i & Hi & Hst).
    exists i. split; [done|]. destruct (G i) as [|gal Gi] eqn:HG; [done|]. done.
  - intros p Hp i Hi HG. rewrite Hp in Hres.
    destruct Hres as (_ & _ & _ & _ & _ & _ & _ & Hrows).
    destruct (Hrows i Hi) as (r & Hst & Hr). rewrite HG in Hst.
    simpl in Hst. injection Hst as <-.
    destruct Hr as (R1 & R2 & R3 & R4 & R5 & R6). done.
Qed.

End Profile_empty_bins.

(** ** Assignment of the galaxies to the bins *)

Lemma xleb_Fin (a b : Qc) : xleb (Fin a) (Fin b) = bool_decide (a <= b).
Proof.
  unfold xleb. rewrite xltb_Fin, xeqb_Fin.
  destruct (decide (a <= b)) as [H|H].
  - rewrite (bool_decide_eq_true_2 _ H). apply Qcle_lt_or_eq in H as [H|H].
    + by rewrite (bool_decide_eq_true_2 _ H).
    + rewrite (bool_decide_eq_true_2 _ H). apply orb_true_r.
  - rewrite (bool_decide_eq_false_2 _ H).
    rewrite bool_decide_eq_false_2 by (intros Hlt; by apply H, Qclt_le_weak).
    rewrite bool_decide_eq_false_2; [done|]. intros ->. apply H, Qcle_refl.
Qed.

Lemma xleb_trans a b c : xleb a b = true -> xleb b c = true -> xleb a c = true.
Proof.
  destruct a as [p| | |], b as [q| | |], c as [r| | |]; try done.
  rewrite !xleb_Fin. intros H1 H2.
  apply bool_decide_eq_true_1 in H1, H2. apply bool_decide_eq_true_2.
  by eapply Qcle_trans.
Qed.

Lemma in_binb_true edges i d :
  in_binb edges i d = true <-> in_bin edges i d.
Proof.
  unfold in_binb, in_bin. split.
  - destruct (edges !! i) as [lo|]; [|done]. destruct (edges !! S i) as [hi|]; [|done].
    intros H. apply andb_true_iff in H as [H1 H2]. by exists lo, hi.
  - intros (lo & hi & -> & -> & H1 & H2). by rewrite H1, H2.
Qed.

Lemma in_bin_unique edges d i j :
  nondecreasing edges -> in_bin edges i d -> in_bin edges j d -> i = j.
Proof.
  assert (Hlt : forall i j, nondecreasing edges -> in_bin edges i d -> in_bin edges j d ->
                  ~ (i < j)%nat).
  { clear i j. intros i j Hnd (lo & hi & Hlo & Hhi & H1 & H2) (lo' & hi' & Hlo' & Hhi' & H1' & H2') Hij.
    assert (Hle : xleb hi lo' = true) by (apply (Hnd (S i) j); [lia|done|done]).
    pose proof (xltb_le_trans d hi lo' H2 Hle) as Hd.
    apply xleb_not_gt in H1'. congruence. }
  intros Hnd Hi Hj.
  destruct (Nat.lt_trichotomy i j) as [H|[H|H]]; [|done|].
  - by destruct (Hlt i j Hnd Hi Hj).
  - by destruct (Hlt j i Hnd Hj Hi).
Qed.

Lemma in_bin_range edges d i lo hi :
  nondecreasing edges -> head edges = Some lo -> last edges = Some hi ->
  in_bin edges i d -> xleb lo d = true /\ xltb d hi = true.
Proof.
  intros Hnd Hhead Hlast (a & b & Ha & Hb & H1 & H2).
  rewrite head_lookup in Hhead. rewrite last_lookup in Hlast.
  pose proof (lookup_lt_Some _ _ _ Hb) as Hlen.
  split.
  - apply (xleb_trans lo a d); [|done]. apply (Hnd 0%nat i); [lia|done|done].
  - apply (xltb_le_trans d b hi H2). apply (Hnd (S i) (pred (length edges))); [lia|done|done].
Qed.

Section Profile_binning.

Context `{Ext : External} `{Rnd : NumpyRandom}.

(** C5.  Let the edges be non-decreasing.  The galaxies entering the
    statistics of bin [i] are exactly the galaxies of the catalog whose
    projected distance [d] satisfies [edge_i <= d < edge_(i+1)]: the
    constructor returns the profile whose bin [i] holds the statistics of
    those galaxies and their number (or fails as the statistics of one bin
    fail).  A distance lies in at most one bin, and a distance outside
    [first edge, last edge] lies in none, so that such a galaxy enters no
    statistic. *)
Theorem C5_right_open_bins h rows rin rout bins space bf bn s edges :
  shear.make_bins rin rout bins space = OK edges ->
  nondecreasing edges -> (0 < length edges)%nat ->
  let nbin := (length edges - 1)%nat in
  let members i := List.filter (fun gal => in_binb edges i (gal_dist_hMpc h gal)) rows in
  match fst (shear.Profile_init (shear.Table rows) rin rout bins space h bf bn s) with
  | OK p =>
      forall i, (i < nbin)%nat ->
        exists r, bin_stats h bf bn (members i) default_row = OK r /\ profile_row p i r /\
          shear.N p !! i = Some (Z.of_nat (length (members i)))
  | Err e =>
      exists i, (i < nbin)%nat /\ bin_stats h bf bn (members i) default_row = Err e
  end /\
  (forall d i, in_binb edges i d = true <-> in_bin edges i d) /\
  (forall d i j, in_binb edges i d = true -> in_binb edges j d = true -> i = j) /\
  (forall d lo hi, head edges = Some lo -> last edges = Some hi ->
     xleb lo d && xleb d hi = false -> forall i, in_binb edges i d = false).
Proof.
  intros Hbins Hnd Hpos nbin members.
  pose proof (np_digitize_nondecreasing (gal_dist_hMpc h <$> rows) edges Hnd) as Hdig.
  pose proof (Profile_init_bins h rows rin rout bins space bf bn s edges _
                Hbins Hdig Hpos) as [_ Hres].
  cbv zeta in Hres. fold nbin in Hres.
  assert (HG : forall i, (i < nbin)%nat ->
            bin_galaxies rows
              ((fun d => (d - 1)%Z)
                 <$> ((fun v => Z.of_nat (searchsorted_right edges v))
                        <$> (gal_dist_hMpc h <$> rows))) i = members i).
  { intros i Hi. apply bin_galaxies_interval; [done|]. subst nbin. lia. }
  split; [|split; [|split]].
  - destruct (fst (shear.Profile_init _ _ _ _ _ _ _ _ _)) as [p|e].
    + destruct Hres as (_ & _ & _ & _ & _ & _ & _ & Hrows).
      intros i Hi. destruct (Hrows i Hi) as (r & Hst & Hr).
      rewrite (HG i Hi) in Hst. exists r. split; [done|]. split; [done|].
      destruct Hr as (_ & _ & _ & _ & _ & HN). rewrite HN.
      by rewrite (bin_stats_N _ _ _ _ _ _ Hst).
    + destruct Hres as (i & Hi & Hst). exists i. split; [done|].
      by rewrite (HG i Hi) in Hst.
  - intros d i. apply in_binb_true.
  - intros d i j Hi Hj. apply in_binb_true in Hi, Hj. by eapply in_bin_unique.
  - intros d lo hi Hhead Hlast Hout i. apply not_true_iff_false. intros Hin.
    apply in_binb_true in Hin.
    destruct (in_bin_range edges d i lo hi Hnd Hhead Hlast Hin) as [H1 H2].
    unfold xleb at 2 in Hout. rewrite H1, H2 in Hout. done.
Qed.

End Profile_binning.

(** ** When the statistics of a bin are defined *)

Lemma xsum_fold_positive l :
  Forall xpositive l -> forall q0, 0 <= q0 ->
  exists q, fold_left xadd l (Fin q0) = Fin q /\ q0 <= q /\ (l <> [] -> 0 < q).
Proof.
  induction 1 as [|x l (p & -> & Hp) _ IH]; intros q0 Hq0; simpl.
  { exists q0. split; [done|]. split; [apply Qcle_refl|done]. }
  assert (H0 : 0 < q0 + p) by (by apply Qcplus_nonneg_pos).
  destruct (IH (q0 + p) (Qclt_le_weak _ _ H0)) as (q & Hq & Hle & _).
  exists q. split; [done|].
  assert (Hlt : 0 < q) by (by eapply Qclt_le_trans).
  split; [|done].
  apply Qcle_trans with (q0 + p); [|done].
  rewrite <- (Qcplus_0_r q0) at 1. apply Qcplus_le_mono_l. by apply Qclt_le_weak.
Qed.

Lemma xsum_positive l : l <> [] -> Forall xpositive l -> xpositive (xsum l).
Proof.
  intros Hne Hl. destruct (xsum_fold_positive l Hl 0 (Qcle_refl 0)) as (q & Hq & _ & Hpos).
  exists q. split; [done|by apply Hpos].
Qed.

Lemma xpositive_nonzero x : xpositive x -> xeqb x xzero = false.
Proof.
  intros (q & -> & Hq). unfold xzero. rewrite xeqb_Fin.
  apply bool_decide_eq_false_2. intros ->. by apply Qclt_irrefl in Hq.
Qed.

Lemma fancy_ok {A} (arr : list A) idx :
  Forall (fun k => (k < length arr)%nat) idx ->
  exists r, fancy arr idx = OK r /\ length r = length idx /\
    forall P : A -> Prop, Forall P arr -> Forall P r.
Proof.
  induction 1 as [|k idx Hk _ (r & Hr & Hlen & HP)]; simpl.
  { exists []. split; [done|]. split; [done|]. intros; constructor. }
  destruct (lookup_lt_is_Some_2 arr k Hk) as [x Hx]. rewrite Hx, Hr.
  cbn [mbind result_bind]. exists (x :: r). split; [done|]. split; [simpl; lia|].
  intros P HPa. constructor; [|by apply HP].
  rewrite Forall_forall in HPa. apply HPa. by eapply list_elem_of_lookup_2.
Qed.

Lemma fancy2_ok {A} (arr : list A) (idx : matrix nat) :
  Forall (fun row => row <> [] /\ Forall (fun k => (k < length arr)%nat) row) idx ->
  exists M, fancy2 arr idx = OK M /\ length M = length idx /\
    forall P : A -> Prop, Forall P arr -> Forall (fun row => row <> [] /\ Forall P row) M.
Proof.
  induction 1 as [|row idx [Hne Hrow] _ (M & HM & Hlen & HP)]; simpl.
  { exists []. split; [done|]. split; [done|]. intros; constructor. }
  destruct (fancy_ok arr row Hrow) as (r & Hr & Hrlen & HrP).
  rewrite Hr, HM. cbn [mbind result_bind]. exists (r :: M).
  split; [done|]. split; [simpl; lia|].
  intros P HPa. constructor; [|by apply HP]. split; [|by apply HrP].
  destruct r; [|done]. destruct row; [done|simpl in Hrlen; lia].
Qed.

Lemma np_average_axis1_ok (a w : matrix xnum) :
  Forall (fun row => row <> [] /\ Forall xpositive row) w ->
  exists r, np_average_axis1 a w = OK r.
Proof.
  intros Hw. unfold np_average_axis1.
  assert (Hex : existsb (fun s => xeqb s xzero) (xsum <$> w) = false).
  { induction Hw as [|row w [Hne Hrow] _ IH]; [done|].
    rewrite fmap_cons. cbn [existsb].
    by rewrite (xpositive_nonzero _ (xsum_positive row Hne Hrow)), IH. }
  rewrite Hex. by eexists.
Qed.

Section Profile_defined.

Context `{Ext : External} `{Rnd : NumpyRandom}.

Lemma bootstrap_loop_ok (n : nat) bn s :
  (0 < n)%nat ->
  exists rows, fst (bootstrap_loop (seq 0 n) bn s) = OK rows /\
    Forall (fun row => row <> [] /\ Forall (fun k => (k < n)%nat) row) rows.
Proof.
  intros Hn. revert s. induction bn as [|bn IH]; intros s; simpl.
  { exists []. split; [done|constructor]. }
  rewrite length_seq.
  pose proof (rng_randint_length s n n) as Hlen.
  pose proof (rng_randint_range s n n Hn) as Hrange.
  destruct (rng_randint s n n) as [bootarr s1]. cbn [fst] in Hlen, Hrange.
  assert (Hidx : Forall (fun k => (k < length (seq 0 n))%nat) bootarr)
    by (by rewrite length_seq).
  destruct (fancy_ok (seq 0 n) bootarr Hidx) as (row & Hrow & Hrlen & HrP).
  rewrite Hrow. destruct (IH s1) as (rows & Hrows & HF).
  destruct (bootstrap_loop (seq 0 n) bn s1) as [rest s2]. cbn [fst] in Hrows. subst rest.
  cbn [fst mbind result_bind]. exists (row :: rows). split; [done|].
  constructor; [|done]. split.
  - destruct row; [|done]. simpl in Hrlen. lia.
  - apply HrP, Forall_forall. intros k Hk. apply elem_of_seq in Hk. lia.
Qed.

Lemma bootstrap_ok (n : nat) bn s :
  (0 < n)%nat -> (0 < bn)%nat ->
  exists rows, fst (bootstrap (seq 0 n) bn s) = OK rows /\
    Forall (fun row => row <> [] /\ Forall (fun k => (k < n)%nat) row) rows.
Proof.
  intros Hn Hbn. unfold bootstrap. rewrite length_seq.
  destruct (decide (n < 1 \/ bn < 1)%nat); [lia|]. by apply bootstrap_loop_ok.
Qed.

Lemma boot_error_ok sh ce w bn :
  (0 < bn)%nat ->
  length sh = length w -> length ce = length w -> w <> [] -> Forall xpositive w ->
  exists errs, boot_error sh ce w bn = OK errs.
Proof.
  intros Hbn Hsh Hce Hne Hw. unfold boot_error, shear._boot_error.
  assert (Hn : (0 < length sh)%nat) by (destruct w; [done|simpl in Hsh; lia]).
  destruct (bootstrap_ok (length sh) bn (rng_seed 1) Hn Hbn) as (rows & Hrows & HF).
  destruct (bootstrap (seq 0 (length sh)) bn (rng_seed 1)) as [r s']. cbn [fst] in Hrows.
  subst r. cbn [fst mbind result_bind].
  destruct (fancy2_ok sh rows) as (S1 & HS1 & _ & _); [done|].
  destruct (fancy2_ok ce rows) as (C1 & HC1 & _ & _); [by rewrite Hce, <- Hsh|].
  destruct (fancy2_ok w rows) as (W1 & HW1 & _ & HWP); [by rewrite <- Hsh|].
  rewrite HS1, HC1, HW1. cbn [mbind result_bind].
  pose proof (HWP xpositive Hw) as HWpos.
  destruct (np_average_axis1_ok S1 W1 HWpos) as (r1 & Hr1).
  destruct (np_average_axis1_ok C1 W1 HWpos) as (r2 & Hr2).
  rewrite Hr1, Hr2. cbn [mbind result_bind]. by eexists.
Qed.

(** The statistics of a bin are defined when the weights of its galaxies
    are finite and positive and, if the bootstrap is asked for, at least
    one resample is drawn. *)
Lemma bin_stats_ok h bf bn G old :
  (bf = true -> (0 < bn)%nat) ->
  Forall (fun gal => xpositive (gal_weight gal)) G ->
  exists r, bin_stats h bf bn G old = OK r.
Proof.
  intros Hbn HG. destruct G as [|gal G']; [by eexists|].
  set (G := gal :: G') in *. change (bin_stats h bf bn G old) with
    (occupied_bin_stats h bf bn G old).
  unfold occupied_bin_stats.
  assert (Hw : Forall xpositive (gal_weight <$> G)) by (by apply Forall_fmap).
  assert (Hne : gal_weight <$> G <> []) by done.
  rewrite (xpositive_nonzero _ (xsum_positive _ Hne Hw)).
  destruct bf; [|by eexists].
  destruct (boot_error_ok
              ((fun gal => xmul (gal_et h gal) (gal_sigma_critic gal)) <$> G)
              ((fun gal => xmul (gal_ex h gal) (gal_sigma_critic gal)) <$> G)
              (gal_weight <$> G) bn) as (errs & Herrs);
    [by apply Hbn|by rewrite !length_fmap|by rewrite !length_fmap|done|done|].
  rewrite Herrs. cbn [mbind result_bind]. by eexists.
Qed.

Lemma mask_select_Forall {A} (P : A -> Prop) mask (l : list A) :
  Forall P l -> Forall P (mask_select mask l).
Proof.
  intros Hl. revert mask. induction Hl as [|x l Hx _ IH]; intros [|b mask]; simpl;
    try constructor.
  destruct b; [constructor; [done|apply IH]|apply IH].
Qed.

(** C2.  Let the edges be there and accepted by [np.digitize].  If the
    weight [catalogWeight / Sigma_crit^2] of every galaxy is finite and
    positive (and at least one resample is drawn when the bootstrap is
    asked for), the constructor returns a profile.  In every profile it
    returns, each bin that holds at least one galaxy has weights of
    non-zero sum, and with [weight_i = catalogWeight_i / Sigma_crit_i^2]
    and [m_cal = 1 + weighted_average(m, weight)] its tangential shear is
    [weighted_average(e_t * Sigma_crit, weight) / m_cal] and its cross
    shear is [weighted_average(e_x * Sigma_crit, weight) / m_cal]. *)
Theorem C2_weighted_shear h rows rin rout bins space bf bn s edges digitized :
  shear.make_bins rin rout bins space = OK edges ->
  np_digitize (gal_dist_hMpc h <$> rows) edges = OK digitized ->
  (0 < length edges)%nat ->
  let nbin := (length edges - 1)%nat in
  let G := bin_galaxies rows ((fun d => (d - 1)%Z) <$> digitized) in
  let res := shear.Profile_init (shear.Table rows) rin rout bins space h bf bn s in
  ((bf = true -> (0 < bn)%nat) ->
   Forall (fun gal => xpositive (xdiv (shear.weight gal) (xsq (gal_sigma_critic gal)))) rows ->
   exists p, fst res = OK p) /\
  (forall p, fst res = OK p ->
     forall i, (i < nbin)%nat -> G i <> [] ->
       let weight := (fun gal => xdiv (shear.weight gal) (xsq (gal_sigma_critic gal))) <$> G i in
       let m_cal := xadd (Fin 1) (weighted_average (shear.m <$> G i) weight) in
       xeqb (xsum weight) xzero = false /\
       shear.shear p !! i =
         Some (xdiv (weighted_average
                       ((fun gal => xmul (gal_et h gal) (gal_sigma_critic gal)) <$> G i)
                       weight) m_cal) /\
       shear.cero p !! i =
         Some (xdiv (weighted_average
                       ((fun gal => xmul (gal_ex h gal) (gal_sigma_critic gal)) <$> G i)
                       weight) m_cal)).
Proof.
  intros Hbins Hdig Hpos nbin G res.
  pose proof (Profile_init_bins h rows rin rout bins space bf bn s edges digitized
                Hbins Hdig Hpos) as [_ Hres].
  fold nbin G res in Hres. split.
  - intros Hbn Hw. destruct (fst res) as [p|e]; [by eexists|].
    destruct Hres as (i & Hi & Hst).
    destruct (bin_stats_ok h bf bn (G i) default_row Hbn) as (r & Hr); [|congruence].
    unfold G, bin_galaxies. by apply mask_select_Forall.
  - intros p Hp i Hi HG. rewrite Hp in Hres.
    destruct Hres as (_ & _ & _ & _ & _ & _ & _ & Hrows).
    assert (Hst : exists r, occupied_bin_stats h bf bn (G i) default_row = OK r /\
                    profile_row p i r).
    { destruct (Hrows i Hi) as (r & Hst & Hr). exists r. split; [|done].
      destruct (G i); [done|exact Hst]. }
    destruct Hst as (r & Hst & (R1 & R2 & _)). rewrite R1, R2.
    cbv zeta.
    change (fun gal : shear.galaxy => xdiv (shear.weight gal) (xsq (gal_sigma_critic gal)))
      with gal_weight.
    unfold occupied_bin_stats in Hst.
    destruct (xeqb (xsum (gal_weight <$> G i)) xzero); [done|]. split; [done|].
    destruct bf.
    + destruct (boot_error _ _ _ _) as [errs|]; [|done].
      cbn [mbind result_bind] in Hst. by injection Hst as <-.
    + by injection Hst as <-.
Qed.

End Profile_defined.

(** ** Writing the profile *)

Lemma string_app_assoc (a b c : string) : ((a ++ b) ++ c = a ++ (b ++ c))%string.
Proof. induction a as [|ch a IH]; [done|]. change (String ch ((a ++ b) ++ c) = String ch (a ++ (b ++ c)))%string. by f_equal. Qed.

Lemma string_app_nil_r (a : string) : (a ++ EmptyString = a)%string.
Proof. induction a as [|ch a IH]; [done|]. change (String ch (a ++ EmptyString) = String ch a)%string. by f_equal. Qed.

Lemma header_fold items f :
  fold_left (fun f kv =>
    (f ++ ("# " ++ shear.ljust (fst kv) 14 ++ " = " ++ snd kv ++ shear.nl))%string) items f
  = (f ++ header_lines (Some items))%string.
Proof.
  revert f. induction items as [|kv items IH]; intros f; simpl.
  { by rewrite string_app_nil_r. }
  rewrite IH, string_app_assoc. f_equal.
  unfold header_lines. cbn [fold_right]. by rewrite !string_app_assoc.
Qed.

(** What [write_to] leaves in the file, and how it ends. *)
Lemma write_to_result fmt self file header colnames now :
  shear.write_to fmt self file header colnames now =
  ((file ++ (("# " ++ shear.dashes 48 ++ shear.nl) ++ ("# Lensing profile " ++ shear.nl)
             ++ header_lines header ++ ("# " ++ shear.nl)))%string,
   Err NameError).
Proof.
  unfold shear.write_to.
  assert (Hg : read_global shear.module_globals "datetime" now = Err NameError)
    by reflexivity.
  rewrite Hg. f_equal. destruct header as [items|].
  - rewrite header_fold. by rewrite !string_app_assoc.
  - simpl header_lines. by rewrite !string_app_assoc.
Qed.

(** C9.  The name [datetime] is not bound in [profile.py]; every call of
    [write_to] therefore ends with NameError, after it has appended to the
    file the first separator, the title, the lines of the header
    dictionary and an empty comment line, and nothing else: no timestamp,
    no column names, no row of the profile. *)
Theorem C9_write_to_raises_NameError fmt self file header colnames now :
  name_bound shear.module_globals "datetime" = false /\
  snd (shear.write_to fmt self file header colnames now) = Err NameError /\
  fst (shear.write_to fmt self file header colnames now) =
    (file ++ (("# " ++ shear.dashes 48 ++ shear.nl) ++ ("# Lensing profile " ++ shear.nl)
              ++ header_lines header ++ ("# " ++ shear.nl)))%string /\
  forall self', fst (shear.write_to fmt self' file header colnames now) =
                fst (shear.write_to fmt self file header colnames now).
Proof.
  split; [reflexivity|]. rewrite write_to_result. split; [done|]. split; [done|].
  intros self'. by rewrite write_to_result.
Qed.

(** C8, as the code has it.  Every call of [write_to] appends to the file,
    in this order: a separator line made of ["# "] and 48 dashes (50
    characters in all), the line ["# Lensing profile "], one line
    ["# key = value"] for each entry of the header dictionary, the key
    padded to 14 characters, and the line ["# "]. *)
Theorem C8_header_block fmt self file header colnames now :
  String.length ("# " ++ shear.dashes 48) = 50%nat /\
  exists rest,
    fst (shear.write_to fmt self file header colnames now) =
    (file ++ ((("# " ++ shear.dashes 48) ++ shear.nl)
              ++ ("# Lensing profile " ++ shear.nl)
              ++ header_lines header
              ++ ("# " ++ shear.nl)
              ++ rest))%string.
Proof.
  split; [reflexivity|]. exists EmptyString. rewrite write_to_result. cbn [fst].
  by rewrite string_app_nil_r, ?string_app_assoc.
Qed.

(** The text of the specification does not describe the file after a call:
    on an empty file, without header dictionary, the call ends with
    NameError and the file holds neither a run of 50 dashes nor the line of
    column names. *)
Lemma C8_counterexample :
  let out := shear.write_to Examples.ex_fmt Examples.ex_profile EmptyString None true
               "2020-01-01 00:00:00" in
  has_header_and_table (fst out) = false /\
  contains (shear.dashes 50) (fst out) = false /\
  contains "r_hMpc, shear, shear_error, cero, cero_error, stat_error" (fst out) = false /\
  snd out = Err NameError.
Proof. vm_compute. done. Qed.

(** ** Input validation *)

Lemma fancy_error {A} (arr : list A) idx e : fancy arr idx = Err e -> loop_error e.
Proof.
  induction idx as [|k idx IH]; simpl; [done|].
  destruct (arr !! k); [|intros [= <-]; by left].
  destruct (fancy arr idx); [done|]. cbn [mbind result_bind]. intros [= <-]. by apply IH.
Qed.

Lemma fancy2_error {A} (arr : list A) idx e : fancy2 arr idx = Err e -> loop_error e.
Proof.
  induction idx as [|row idx IH]; simpl; [done|].
  destruct (fancy arr row) eqn:Hrow; cbn [mbind result_bind].
  - destruct (fancy2 arr idx); [done|]. cbn [mbind result_bind]. intros [= <-]. by apply IH.
  - intros [= <-]. by eapply fancy_error.
Qed.

Lemma np_average_axis1_error a w e : np_average_axis1 a w = Err e -> loop_error e.
Proof.
  unfold np_average_axis1. destruct (existsb _ _); [|done]. intros [= <-]. right. by right.
Qed.

Section Profile_validation.

Context `{Ext : External} `{Rnd : NumpyRandom}.

Lemma bootstrap_loop_error {A} (data : list A) bn s e :
  fst (bootstrap_loop data bn s) = Err e -> loop_error e.
Proof.
  revert s. induction bn as [|bn IH]; intros s; simpl; [done|].
  destruct (rng_randint s (length data) (length data)) as [bootarr s1].
  destruct (fancy data bootarr) eqn:Hrow; [|intros [= <-]; by eapply fancy_error].
  specialize (IH s1). destruct (bootstrap_loop data bn s1) as [[rest|e'] s2];
    cbn [fst mbind result_bind] in *; [done|].
  intros [= <-]. by apply IH.
Qed.

Lemma bootstrap_error {A} (data : list A) bn s e :
  fst (bootstrap data bn s) = Err e -> loop_error e.
Proof.
  unfold bootstrap. destruct (decide _); [intros [= <-]; right; by left|].
  apply bootstrap_loop_error.
Qed.

Lemma boot_error_error sh ce w bn e : boot_error sh ce w bn = Err e -> loop_error e.
Proof.
  unfold boot_error, shear._boot_error.
  pose proof (bootstrap_error (seq 0 (length sh)) bn (rng_seed 1)) as Hb.
  destruct (bootstrap (seq 0 (length sh)) bn (rng_seed 1)) as [[rows|e'] s'];
    cbn [fst mbind result_bind] in *; [|intros [= ?]; subst; by apply Hb].
  destruct (fancy2 sh rows) as [S1|] eqn:H1; cbn [mbind result_bind];
    [|intros [= ?]; subst; by eapply fancy2_error].
  destruct (fancy2 ce rows) as [C1|] eqn:H2; cbn [mbind result_bind];
    [|intros [= ?]; subst; by eapply fancy2_error].
  destruct (fancy2 w rows) as [W1|] eqn:H3; cbn [mbind result_bind];
    [|intros [= ?]; subst; by eapply fancy2_error].
  destruct (np_average_axis1 S1 W1) eqn:H4; cbn [mbind result_bind];
    [|intros [= ?]; subst; by eapply np_average_axis1_error].
  destruct (np_average_axis1 C1 W1) eqn:H5; cbn [mbind result_bind];
    [done|intros [= ?]; subst; by eapply np_average_axis1_error].
Qed.

Lemma bin_stats_error h bf bn G old e : bin_stats h bf bn G old = Err e -> loop_error e.
Proof.
  destruct G as [|gal G]; [done|]. simpl. unfold occupied_bin_stats.
  destruct (xeqb _ _); [intros [= <-]; right; by right|].
  destruct bf; [|done].
  destruct (boot_error _ _ _ _) eqn:Hb; [done|].
  cbn [mbind result_bind]. intros [= <-]. by eapply boot_error_error.
Qed.

Lemma bin_galaxies_nil digit i : bin_galaxies [] digit i = [].
Proof. unfold bin_galaxies. by destruct (_ <$> digit). Qed.

(** C3, as the code has it.  The constructor checks none of its inputs and
    never fails with InvalidInputError.  Called with an array of edges, it
    can only fail with IndexError, ValueError or ZeroDivisionError; on a
    table it fails with ValueError when the edges are not monotonic; and on
    an empty table with monotonic edges (at least one) it returns a profile
    in which every bin has all statistics 0 and the count 0. *)
Theorem C3_no_input_validation rin rout edges space h bf bn s :
  (forall cat e,
     fst (shear.Profile_init cat rin rout (shear.BinsArray edges) space h bf bn s) = Err e ->
     e <> InvalidInputError /\ loop_error e) /\
  (forall rows, check_array_monotonic edges = 0%Z ->
     fst (shear.Profile_init (shear.Table rows) rin rout (shear.BinsArray edges)
            space h bf bn s) = Err ValueError) /\
  (check_array_monotonic edges <> 0%Z -> (0 < length edges)%nat ->
   exists p,
     fst (shear.Profile_init (shear.Table []) rin rout (shear.BinsArray edges)
            space h bf bn s) = OK p /\
     forall i, (i < length edges - 1)%nat ->
       shear.shear p !! i = Some (Fin 0) /\ shear.cero p !! i = Some (Fin 0) /\
       shear.shear_error p !! i = Some (Fin 0) /\ shear.cero_error p !! i = Some (Fin 0) /\
       shear.stat_error p !! i = Some (Fin 0) /\ shear.N p !! i = Some 0%Z).
Proof.
  assert (Hbins : (0 < length edges)%nat ->
            shear.make_bins rin rout (shear.BinsArray edges) space = OK edges).
  { intros Hpos. destruct edges; [simpl in Hpos; lia|done]. }
  assert (Herr : forall cat e,
     fst (shear.Profile_init cat rin rout (shear.BinsArray edges) space h bf bn s) = Err e ->
     loop_error e).
  { intros [rows|rows] e.
    { unfold shear.Profile_init. cbn. intros [= <-]. by left. }
    destruct (decide (0 < length edges)%nat) as [Hpos|Hzero].
    - destruct (np_digitize (gal_dist_hMpc h <$> rows) edges) as [digitized|e'] eqn:Hdig.
      + pose proof (Profile_init_bins h rows rin rout (shear.BinsArray edges) space bf bn s
                      edges digitized (Hbins Hpos) Hdig Hpos) as [_ Hres].
        cbv zeta in Hres. intros He. rewrite He in Hres.
        destruct Hres as (i & _ & Hst). by eapply bin_stats_error.
      + rewrite Profile_init_Table, (Hbins Hpos), Hdig.
        cbn [fst]. intros [= <-]. unfold np_digitize in Hdig.
        destruct (check_array_monotonic edges =? 0)%Z; [|by destruct (_ =? _)%Z].
        injection Hdig as <-. right. by left.
    - destruct edges; [|simpl in Hzero; lia].
      rewrite Profile_init_Table. cbn [shear.make_bins fst]. intros [= <-]. by left. }
  split; [|split].
  - intros cat e He. split; [|by eapply Herr].
    destruct (Herr cat e He) as [->|[->| ->]]; done.
  - intros rows Hmono. destruct edges as [|e0 edges']; [done|].
    rewrite Profile_init_Table. cbn [shear.make_bins].
    unfold np_digitize. by rewrite Hmono.
  - intros Hmono Hpos.
    assert (Hdig : exists digitized, np_digitize (gal_dist_hMpc h <$> []) edges = OK digitized).
    { unfold np_digitize. destruct (check_array_monotonic edges =? 0)%Z eqn:E; [lia|].
      destruct (_ =? -1)%Z; by eexists. }
    destruct Hdig as [digitized Hdig].
    pose proof (Profile_init_bins h [] rin rout (shear.BinsArray edges) space bf bn s
                  edges digitized (Hbins Hpos) Hdig Hpos) as [_ Hres].
    cbv zeta in Hres.
    destruct (fst (shear.Profile_init _ _ _ _ _ _ _ _ _)) as [p|e].
    + exists p. split; [done|]. intros i Hi.
      destruct Hres as (_ & _ & _ & _ & _ & _ & _ & Hrows).
      destruct (Hrows i Hi) as (r & Hst & Hr). rewrite bin_galaxies_nil in Hst.
      simpl in Hst. injection Hst as <-.
      destruct Hr as (R1 & R2 & R3 & R4 & R5 & R6). done.
    + destruct Hres as (i & _ & Hst). by rewrite bin_galaxies_nil in Hst.
Qed.

End Profile_validation.

(** The inputs that the specification wants rejected are accepted: an
    empty catalog, a galaxy whose source distance is zero, and edges with a
    repeated value each yield a profile and no exception. *)
Lemma C3_counterexample :
  let edges := [Fin 1; Fin (qz 2); Fin (qz 3)] in
  let repeated := [Fin 1; Fin 1; Fin (qz 3000)] in
  let gal := Examples.ex_galaxy (qz 1) (qfrac 1 10) 0 0 1 in
  let gal0 := shear.mkGalaxy (Fin 1) (Fin 0) (Fin 0) (Fin 0) (Fin (qfrac 1 10)) (Fin 0)
                (Fin 0) (Fin 1) (xofZ 1000) (Fin 0) (xofZ 500) in
  let run cat edges :=
    fst (shear.Profile_init (Ext := Examples.ex_external) (Rnd := Examples.ex_random)
           cat (Fin 1) (Fin (qz 3)) (shear.BinsArray edges) "log" (Fin (qfrac 7 10))
           true 3 0%nat) in
  (invalid_input (shear.Table []) edges /\ exists p, run (shear.Table []) edges = OK p) /\
  (invalid_input (shear.Table [gal0]) edges /\ exists p, run (shear.Table [gal0]) edges = OK p) /\
  (invalid_input (shear.Table [gal]) repeated /\
   exists p, run (shear.Table [gal]) repeated = OK p).
Proof.
  cbv zeta. split; [|split].
  - split; [by left|]. eexists. vm_compute. reflexivity.
  - split; [right; left; constructor; reflexivity|]. eexists. vm_compute. reflexivity.
  - split.
    + right. right. intros H. specialize (H 0%nat 1%nat (Fin 1) (Fin 1)).
      assert (Hlt : xltb (Fin 1) (Fin 1) = true) by (apply H; [lia|done|done]).
      vm_compute in Hlt. done.
    + eexists. vm_compute. reflexivity.
Qed.

(** ** The statements on concrete inputs *)

Ltac qc_nonzero :=
  let E := fresh in intros E; apply (f_equal this) in E; vm_compute in E; discriminate E.

Lemma adjacent_le_nondecreasing edges : adjacent_le edges = true -> nondecreasing edges.
Proof.
  induction edges as [|x rest IH]; intros Hadj i j a b Hij Ha Hb; [done|].
  assert (Hrest : adjacent_le rest = true /\ forall y, rest !! 0%nat = Some y -> xleb x y = true).
  { simpl in Hadj. destruct rest as [|y rest']; [done|].
    apply andb_true_iff in Hadj as [H1 H2]. split; [done|]. by intros ? [= <-]. }
  destruct Hrest as [Hrest Hhead]. specialize (IH Hrest).
  assert (Hx : xeqb x x = true).
  { simpl in Hadj. destruct rest as [|y rest']; [done|].
    apply andb_true_iff in Hadj as [H1 _]. unfold xleb in H1.
    destruct x; try done. rewrite xeqb_Fin. by apply bool_decide_eq_true_2. }
  assert (Hall : forall k c, rest !! k = Some c -> xleb x c = true).
  { intros k c Hc. destruct rest as [|y rest']; [done|].
    apply (xleb_trans x y c); [by apply Hhead|].
    apply (IH 0%nat k); [lia|done|done]. }
  destruct i as [|i], j as [|j]; simpl in Ha, Hb.
  - injection Ha as <-. injection Hb as <-. unfold xleb. rewrite Hx. apply orb_true_r.
  - injection Ha as <-. by eapply Hall.
  - lia.
  - apply (IH i j); [lia|done|done].
Qed.

(** The kernel of a grid of three points with spacings 1/2 and 1/3. *)
Lemma C4_kernel_values_witness :
  (0 < 3)%nat /\
  exists K,
    kappa._conjugate_inversion_kernel (Fin (qfrac 1 2), Fin (qfrac 1 3)) 3 = OK K /\
    is_shape 3 3 K /\
    mget K 0 0 = OK (mkC (Fin 0) (Fin 0)) /\
    forall i j kx ky, (i, j) <> (0, 0)%nat ->
      kappa.fftfreq 3 (Fin (qfrac 1 2)) !! i = Some kx ->
      kappa.fftfreq 3 (Fin (qfrac 1 3)) !! j = Some ky ->
      mget K i j = OK (kernel_entry kx ky) /\
      (forall a b c r,
         xsq kx = Fin a -> xsq ky = Fin b -> xmul (xmul (xofZ 2) kx) ky = Fin c ->
         xdiv (Fin 1) (xadd (Fin a) (Fin b)) = Fin r ->
         kernel_entry kx ky = mkC (Fin ((a - b) * r)) (Fin (- c * r))) /\
      (xsq kx = PInf \/ xsq ky = PInf -> kernel_entry kx ky = mkC NaN NaN).
Proof.
  split; [lia|].
  apply (C4_kernel_values 3 (Fin (qfrac 1 2)) (Fin (qfrac 1 3))). lia.
Defined.

Lemma dft1_length w xs : length (Examples.dft1 w xs) = length xs.
Proof. unfold Examples.dft1, tabulate. by rewrite length_fmap, length_seq. Qed.

Lemma transpose_square {A} (d : A) n (M : matrix A) :
  is_shape n n M -> is_shape n n (Examples.transpose d M).
Proof.
  intros HM. unfold Examples.transpose. destruct (decide (n = 0)%nat) as [->|Hn].
  - destruct HM as [Hr _]. destruct M; [|done]. apply mtabulate_shape.
  - rewrite (shape_nrows _ _ _ HM), (shape_ncols _ _ _ HM) by lia. apply mtabulate_shape.
Qed.

Lemma ex_fft2_shape n M : is_shape n n M -> is_shape n n (Examples.ex_fft2 M).
Proof.
  intros HM. unfold Examples.ex_fft2, Examples.dft2.
  assert (Hrows : forall K, is_shape n n K -> is_shape n n (Examples.dft1 Examples.w2 <$> K)).
  { intros K [Hr Hc]. split; [by rewrite length_fmap|].
    apply Forall_fmap. eapply Forall_impl; [exact Hc|].
    intros row Hrow; simpl. by rewrite dft1_length. }
  by apply transpose_square, Hrows, transpose_square, Hrows.
Qed.

(** The reconstruction of a shear map of two by two points, with the
    discrete Fourier transform of length two. *)
Lemma C1_kaiser_squires_witness :
  let sm := Examples.ex_ShearMap_init tt 2 (Fin 1) None tt in
  (forall n M, is_shape n n M -> is_shape n n (Examples.ex_fft2 M)) /\
  (0 < 2)%nat /\ is_shape 2 2 (kappa.sm_e1 sm) /\ is_shape 2 2 (kappa.sm_e2 sm) /\
  (exists a b, mget (kappa.sm_px sm) 1 0 = OK a /\ mget (kappa.sm_px sm) 0 0 = OK b) /\
  exists km Dconj,
    kappa.KappaMap_init Examples.ex_ShearMap_init Examples.ex_fft2 Examples.ex_ifft2
      (Some tt) (Some 2%nat) (Fin 1) None tt = OK km /\
    kappa._conjugate_inversion_kernel (kappa.bin_size km) 2 = OK Dconj /\
    kappa.kappa km =
      Examples.ex_ifft2
        (hadamard 2 (Examples.ex_fft2 (shear_field 2 (kappa.sm_e1 sm) (kappa.sm_e2 sm))) Dconj) /\
    kappa.kE km = mmap re (kappa.kappa km) /\
    kappa.kB km = mmap im (kappa.kappa km).
Proof.
  assert (Hs1 : is_shape 2 2 (kappa.sm_e1 Examples.ex_shear_map))
    by (split; [reflexivity|repeat constructor]).
  assert (Hs2 : is_shape 2 2 (kappa.sm_e2 Examples.ex_shear_map))
    by (split; [reflexivity|repeat constructor]).
  assert (Hpx : exists a b, mget (kappa.sm_px Examples.ex_shear_map) 1 0 = OK a /\
                  mget (kappa.sm_px Examples.ex_shear_map) 0 0 = OK b)
    by (eexists _, _; split; reflexivity).
  cbv zeta. split; [exact ex_fft2_shape|]. split; [lia|]. split; [exact Hs1|].
  split; [exact Hs2|]. split; [exact Hpx|].
  exact (C1_kaiser_squires Examples.ex_ShearMap_init Examples.ex_fft2 Examples.ex_ifft2
           ex_fft2_shape tt 2 (Fin 1) None tt ltac:(lia) Hs1 Hs2 Hpx).
Defined.

(** Two shear maps of two by two points that differ in their [py] arrays
    only. *)
Lemma C10_y_spacing_is_x_spacing_witness :
  exists km km',
    kappa.KappaMap_init Examples.ex_ShearMap_init Examples.ex_fft2 Examples.ex_ifft2
      (Some tt) (Some 2%nat) (Fin 1) None tt = OK km /\
    kappa.KappaMap_init Examples.ex_ShearMap_init' Examples.ex_fft2 Examples.ex_ifft2
      (Some tt) (Some 2%nat) (Fin 1) None tt = OK km' /\
    kappa.py km = kappa.sm_px (kappa.shear_map km) /\
    snd (kappa.bin_size km) = fst (kappa.bin_size km) /\
    kappa.bin_size km' = kappa.bin_size km /\ kappa.kappa km' = kappa.kappa km.
Proof.
  assert (Hrun : exists km,
    kappa.KappaMap_init Examples.ex_ShearMap_init Examples.ex_fft2 Examples.ex_ifft2
      (Some tt) (Some 2%nat) (Fin 1) None tt = OK km)
    by (eexists; vm_compute; reflexivity).
  destruct Hrun as [km Hrun].
  assert (Hagree : forall (d : unit) (n : nat),
     let sm := Examples.ex_ShearMap_init d n (Fin 1) None tt in
     let sm' := Examples.ex_ShearMap_init' d n (Fin 1) None tt in
     kappa.sm_px sm' = kappa.sm_px sm /\ kappa.sm_e1 sm' = kappa.sm_e1 sm /\
     kappa.sm_e2 sm' = kappa.sm_e2 sm)
    by (intros d n; repeat split).
  destruct (C10_y_spacing_is_x_spacing Examples.ex_ShearMap_init Examples.ex_ShearMap_init'
              Examples.ex_fft2 Examples.ex_ifft2 (Some tt) (Some 2%nat) (Fin 1) None tt km
              Hagree Hrun)
    as (_ & Hpy & _ & Hbin & _ & km' & Hrun' & Hbin' & Hkappa & _).
  exists km, km'. repeat split; assumption.
Defined.

Lemma ex_rows_weights_positive :
  Forall (fun gal => xpositive (xdiv (shear.weight gal) (xsq (gal_sigma_critic gal))))
    Examples.ex_rows.
Proof.
  repeat constructor;
    (eexists; split; [vm_compute; reflexivity | vm_compute; reflexivity]).
Qed.

Lemma ex_digitize :
  np_digitize
    (gal_dist_hMpc (Ext := Examples.ex_external) Examples.ex_h <$> Examples.ex_rows)
    Examples.ex_edges = OK [1%Z; 1%Z; 1%Z].
Proof. vm_compute. reflexivity. Qed.

(** The first bin of the profile of three galaxies. *)
Lemma C2_weighted_shear_witness :
  let G := Examples.ex_rows in
  let weight := (fun gal => xdiv (shear.weight gal) (xsq (gal_sigma_critic gal))) <$> G in
  let m_cal := xadd (Fin 1) (weighted_average (shear.m <$> G) weight) in
  exists p,
    fst (shear.Profile_init (Ext := Examples.ex_external) (Rnd := Examples.ex_random)
           (shear.Table Examples.ex_rows) (Fin 1) (Fin 1) (shear.BinsArray Examples.ex_edges)
           "log" Examples.ex_h true 3 0%nat) = OK p /\
    xeqb (xsum weight) xzero = false /\
    shear.shear p !! 0%nat =
      Some (xdiv (weighted_average
                    ((fun gal => xmul (gal_et (Ext := Examples.ex_external) Examples.ex_h gal)
                                   (gal_sigma_critic gal)) <$> G) weight) m_cal) /\
    shear.cero p !! 0%nat =
      Some (xdiv (weighted_average
                    ((fun gal => xmul (gal_ex (Ext := Examples.ex_external) Examples.ex_h gal)
                                   (gal_sigma_critic gal)) <$> G) weight) m_cal).
Proof.
  destruct (C2_weighted_shear (Ext := Examples.ex_external) (Rnd := Examples.ex_random)
              Examples.ex_h Examples.ex_rows (Fin 1) (Fin 1)
              (shear.BinsArray Examples.ex_edges) "log" true 3 0%nat
              Examples.ex_edges [1%Z; 1%Z; 1%Z] eq_refl ex_digitize ltac:(simpl; lia))
    as [Hdefined Hvalues].
  destruct (Hdefined ltac:(intros _; lia) ex_rows_weights_positive) as [p Hp].
  exists p. split; [exact Hp|].
  assert (Hne : bin_galaxies Examples.ex_rows ((fun d => (d - 1)%Z) <$> [1%Z; 1%Z; 1%Z]) 0
                <> []) by (intros E; vm_compute in E; discriminate E).
  exact (Hvalues p Hp 0%nat ltac:(simpl; lia) Hne).
Defined.

(** The second bin of the profile of three galaxies, which holds none of
    them. *)
Lemma C6_empty_bins_are_zero_witness :
  exists p,
    fst (shear.Profile_init (Ext := Examples.ex_external) (Rnd := Examples.ex_random)
           (shear.Table Examples.ex_rows) (Fin 1) (Fin 1) (shear.BinsArray Examples.ex_edges)
           "log" Examples.ex_h true 3 0%nat) = OK p /\
    shear.shear p !! 1%nat = Some (Fin 0) /\ shear.cero p !! 1%nat = Some (Fin 0) /\
    shear.shear_error p !! 1%nat = Some (Fin 0) /\
    shear.cero_error p !! 1%nat = Some (Fin 0) /\
    shear.stat_error p !! 1%nat = Some (Fin 0) /\ shear.N p !! 1%nat = Some 0%Z.
Proof.
  destruct (C6_empty_bins_are_zero (Ext := Examples.ex_external) (Rnd := Examples.ex_random)
              Examples.ex_h Examples.ex_rows (Fin 1) (Fin 1)
              (shear.BinsArray Examples.ex_edges) "log" true 3 0%nat
              Examples.ex_edges [1%Z; 1%Z; 1%Z] eq_refl ex_digitize ltac:(simpl; lia))
    as (_ & _ & Hzero).
  assert (Hrun : exists p,
    fst (shear.Profile_init (Ext := Examples.ex_external) (Rnd := Examples.ex_random)
           (shear.Table Examples.ex_rows) (Fin 1) (Fin 1) (shear.BinsArray Examples.ex_edges)
           "log" Examples.ex_h true 3 0%nat) = OK p)
    by (eexists; vm_compute; reflexivity).
  destruct Hrun as [p Hp]. exists p. split; [exact Hp|].
  exact (Hzero p Hp 1%nat ltac:(simpl; lia) eq_refl).
Defined.

(** The two bins of the profile of three galaxies. *)
Lemma C5_right_open_bins_witness :
  nondecreasing Examples.ex_edges /\
  (forall d lo hi, head Examples.ex_edges = Some lo -> last Examples.ex_edges = Some hi ->
     xleb lo d && xleb d hi = false -> forall i, in_binb Examples.ex_edges i d = false) /\
  match fst (shear.Profile_init (Ext := Examples.ex_external) (Rnd := Examples.ex_random)
               (shear.Table Examples.ex_rows) (Fin 1) (Fin 1)
               (shear.BinsArray Examples.ex_edges) "log" Examples.ex_h true 3 0%nat) with
  | OK p =>
      forall i, (i < 2)%nat ->
        exists r,
          bin_stats (Ext := Examples.ex_external) (Rnd := Examples.ex_random)
            Examples.ex_h true 3
            (List.filter (fun gal => in_binb Examples.ex_edges i
                                       (gal_dist_hMpc (Ext := Examples.ex_external)
                                          Examples.ex_h gal)) Examples.ex_rows)
            default_row = OK r /\ profile_row p i r /\
          shear.N p !! i =
            Some (Z.of_nat (length (List.filter
                    (fun gal => in_binb Examples.ex_edges i
                                  (gal_dist_hMpc (Ext := Examples.ex_external)
                                     Examples.ex_h gal)) Examples.ex_rows)))
  | Err e => False
  end.
Proof.
  assert (Hnd : nondecreasing Examples.ex_edges)
    by (apply adjacent_le_nondecreasing; vm_compute; reflexivity).
  destruct (C5_right_open_bins (Ext := Examples.ex_external) (Rnd := Examples.ex_random)
              Examples.ex_h Examples.ex_rows (Fin 1) (Fin 1)
              (shear.BinsArray Examples.ex_edges) "log" true 3 0%nat
              Examples.ex_edges eq_refl Hnd ltac:(simpl; lia))
    as (Hres & _ & _ & Hout).
  split; [exact Hnd|]. split; [exact Hout|].
  assert (Hrun : exists p,
    fst (shear.Profile_init (Ext := Examples.ex_external) (Rnd := Examples.ex_random)
           (shear.Table Examples.ex_rows) (Fin 1) (Fin 1) (shear.BinsArray Examples.ex_edges)
           "log" Examples.ex_h true 3 0%nat) = OK p)
    by (eexists; vm_compute; reflexivity).
  destruct Hrun as [p Hp]. rewrite Hp in Hres |- *. exact Hres.
Defined.

(** The profile of an empty table over two bins. *)
Lemma C3_no_input_validation_witness :
  exists p,
    fst (shear.Profile_init (Ext := Examples.ex_external) (Rnd := Examples.ex_random)
           (shear.Table []) (Fin 1) (Fin 1) (shear.BinsArray Examples.ex_edges)
           "log" Examples.ex_h true 3 0%nat) = OK p /\
    forall i, (i < 2)%nat ->
      shear.shear p !! i = Some (Fin 0) /\ shear.cero p !! i = Some (Fin 0) /\
      shear.shear_error p !! i = Some (Fin 0) /\ shear.cero_error p !! i = Some (Fin 0) /\
      shear.stat_error p !! i = Some (Fin 0) /\ shear.N p !! i = Some 0%Z.
Proof.
  destruct (C3_no_input_validation (Ext := Examples.ex_external) (Rnd := Examples.ex_random)
              (Fin 1) (Fin 1) Examples.ex_edges "log" Examples.ex_h true 3 0%nat)
    as (_ & _ & Hempty).
  apply Hempty; [vm_compute; discriminate|simpl; lia].
Defined.

(** * Further properties of the profile builder *)

Section Profile_more.

Context `{Ext : External} `{Rnd : NumpyRandom}.

(** What a call that returns a profile was given, and the arrays that the
    profile stores from before the loop. *)
Lemma Profile_init_OK_inv cat rin rout bins space h bf bn s p :
  fst (shear.Profile_init cat rin rout bins space h bf bn s) = OK p ->
  exists rows edges digitized,
    cat = shear.Table rows /\
    shear.make_bins rin rout bins space = OK edges /\
    np_digitize (gal_dist_hMpc h <$> rows) edges = OK digitized /\
    length digitized = length rows /\
    (0 < length edges)%nat /\
    shear.bins p = edges /\ shear.r_hMpc p = bin_centers edges /\
    shear.Mpc_scale p = gal_Mpc_scale <$> rows /\ shear.beta p = gal_beta <$> rows /\
    shear.sigma_critic p = gal_sigma_critic <$> rows.
Proof.
  destruct cat as [rows|rows]; [by unfold shear.Profile_init|].
  rewrite Profile_init_Table.
  destruct (shear.make_bins rin rout bins space) as [edges|] eqn:Hbins; [|done].
  destruct (np_digitize _ edges) as [digitized|] eqn:Hdig; [|done]. cbv zeta.
  destruct (Z.of_nat (length edges) - 1 <? 0)%Z eqn:Hneg; [done|].
  destruct (shear.bin_loop _ _ _ _ _ _ _) as [[a|e] s']; [|done].
  cbn [fst]. intros [= <-]. exists rows, edges, digitized.
  split; [done|]. split; [done|]. split; [done|]. split.
  { rewrite (np_digitize_length _ _ _ Hdig). by rewrite length_fmap. }
  split; [lia|]. done.
Qed.

Lemma bin_centers_length edges : length (bin_centers edges) = (length edges - 1)%nat.
Proof.
  unfold bin_centers. rewrite length_fmap, length_zip_with, length_tl.
  rewrite removelast_firstn_len, length_take. destruct edges; simpl; lia.
Qed.

Lemma bin_centers_lookup edges i lo hi :
  edges !! i = Some lo -> edges !! S i = Some hi ->
  bin_centers edges !! i = Some (xmul (Fin (qfrac 1 2)) (xadd lo hi)).
Proof.
  intros Hlo Hhi. unfold bin_centers.
  rewrite list_lookup_fmap, lookup_zip_with, lookup_tail, Hhi.
  rewrite removelast_firstn_len, lookup_take_lt, Hlo; [done|].
  apply lookup_lt_Some in Hhi. lia.
Qed.

Lemma Qc_midpoint (a b : Qc) :
  a <= b -> a <= qfrac 1 2 * (a + b) /\ qfrac 1 2 * (a + b) <= b.
Proof.
  intros Hab.
  assert (Hh : qfrac 1 2 + qfrac 1 2 = 1) by (by apply Qc_is_canon).
  assert (Ha : a = qfrac 1 2 * (a + a)).
  { transitivity ((qfrac 1 2 + qfrac 1 2) * a); [rewrite Hh; ring|ring]. }
  assert (Hb : b = qfrac 1 2 * (b + b)).
  { transitivity ((qfrac 1 2 + qfrac 1 2) * b); [rewrite Hh; ring|ring]. }
  assert (Hpos : 0 <= qfrac 1 2) by done.
  split.
  - rewrite Ha at 1. rewrite !(Qcmult_comm (qfrac 1 2)).
    apply Qcmult_le_compat_r; [|done]. apply Qcplus_le_compat; [apply Qcle_refl|done].
  - rewrite Hb at 2. rewrite !(Qcmult_comm (qfrac 1 2)).
    apply Qcmult_le_compat_r; [|done]. apply Qcplus_le_compat; [done|apply Qcle_refl].
Qed.

(** X1.  In every profile that the constructor returns, the radius of a bin is
    half the sum of its two edges, as computed; for two finite edges of
    which the second is not the smaller, the radius, when it is finite,
    lies between the two edges (bounds included). *)
Theorem X1_bin_centers cat rin rout bins space h bf bn s p :
  fst (shear.Profile_init cat rin rout bins space h bf bn s) = OK p ->
  (forall i lo hi, shear.bins p !! i = Some lo -> shear.bins p !! S i = Some hi ->
     shear.r_hMpc p !! i = Some (xmul (Fin (qfrac 1 2)) (xadd lo hi))) /\
  (forall i a b c, shear.bins p !! i = Some (Fin a) -> shear.bins p !! S i = Some (Fin b) ->
     a <= b -> shear.r_hMpc p !! i = Some (Fin c) -> a <= c /\ c <= b).
Proof.
  intros Hp.
  destruct (Profile_init_OK_inv _ _ _ _ _ _ _ _ _ _ Hp)
    as (rows & edges & digitized & _ & _ & _ & _ & _ & -> & -> & _).
  split.
  - intros i lo hi. apply bin_centers_lookup.
  - intros i a b c Ha Hb Hab Hc.
    rewrite (bin_centers_lookup _ _ _ _ Ha Hb) in Hc. cbn [xadd xmul] in Hc.
    injection Hc as <-. by apply Qc_midpoint.
Qed.

(** X2.  In every profile that the constructor returns, the arrays of the bins
    all have one entry per bin, that is one less than there are edges, and
    the arrays of the galaxies have one entry per row of the catalog. *)
Theorem X2_aligned_arrays cat rin rout bins space h bf bn s p :
  fst (shear.Profile_init cat rin rout bins space h bf bn s) = OK p ->
  let nbin := (length (shear.bins p) - 1)%nat in
  (0 < length (shear.bins p))%nat /\
  length (shear.r_hMpc p) = nbin /\ length (shear.shear p) = nbin /\
  length (shear.cero p) = nbin /\ length (shear.shear_error p) = nbin /\
  length (shear.cero_error p) = nbin /\ length (shear.stat_error p) = nbin /\
  length (shear.N p) = nbin /\
  length (shear.Mpc_scale p) = length (catalog_rows cat) /\
  length (shear.beta p) = length (catalog_rows cat) /\
  length (shear.sigma_critic p) = length (catalog_rows cat).
Proof.
  intros Hp.
  destruct (Profile_init_OK_inv _ _ _ _ _ _ _ _ _ _ Hp)
    as (rows & edges & digitized & -> & Hbins & Hdig & _ & Hpos & Hb & Hr & Hm & Hbe & Hsc).
  pose proof (Profile_init_bins h rows rin rout bins space bf bn s edges digitized
                Hbins Hdig Hpos) as [_ Hres].
  cbv zeta in Hres. rewrite Hp in Hres.
  destruct Hres as (_ & L1 & L2 & L3 & L4 & L5 & L6 & _).
  cbv zeta. rewrite Hb, Hr, Hm, Hbe, Hsc, bin_centers_length, !length_fmap. simpl.
  repeat split; done.
Qed.

(** X3.  Without the bootstrap ([boot_flag] false), both bootstrap errors of
    every bin of the returned profile are exactly 0. *)
Theorem X3_no_bootstrap_no_errors cat rin rout bins space h bn s p :
  fst (shear.Profile_init cat rin rout bins space h false bn s) = OK p ->
  Forall (fun x => x = Fin 0) (shear.shear_error p) /\
  Forall (fun x => x = Fin 0) (shear.cero_error p).
Proof.
  intros Hp.
  destruct (Profile_init_OK_inv _ _ _ _ _ _ _ _ _ _ Hp)
    as (rows & edges & digitized & -> & Hbins & Hdig & _ & Hpos & _).
  pose proof (Profile_init_bins h rows rin rout bins space false bn s edges digitized
                Hbins Hdig Hpos) as [_ Hres].
  cbv zeta in Hres. rewrite Hp in Hres.
  destruct Hres as (_ & _ & _ & L3 & L4 & _ & _ & Hrows).
  assert (Hrow : forall i, (i < length edges - 1)%nat ->
            shear.shear_error p !! i = Some (Fin 0) /\ shear.cero_error p !! i = Some (Fin 0)).
  { intros i Hi. destruct (Hrows i Hi) as (r & Hst & (_ & _ & R3 & R4 & _)).
    rewrite R3, R4.
    destruct (bin_galaxies _ _ i) as [|gal G]; simpl in Hst.
    - by injection Hst as <-.
    - unfold occupied_bin_stats in Hst. destruct (xeqb _ _); [done|].
      by injection Hst as <-. }
  split; apply Forall_lookup; intros i x Hx.
  - pose proof (lookup_lt_Some _ _ _ Hx) as Hi. rewrite L3 in Hi.
    destruct (Hrow i Hi) as [H1 _]. congruence.
  - pose proof (lookup_lt_Some _ _ _ Hx) as Hi. rewrite L4 in Hi.
    destruct (Hrow i Hi) as [_ H2]. congruence.
Qed.

(** X4.  A catalog passed as a pandas DataFrame never yields a profile: the
    array that [to_numpy] returns has no named columns, and the first
    column access raises IndexError. *)
Theorem X4_DataFrame_IndexError rows rin rout bins space h bf bn s :
  shear.Profile_init (shear.DataFrame rows) rin rout bins space h bf bn s
  = (Err IndexError, s).
Proof. reflexivity. Qed.

(** ** The counts of the bins *)

Lemma Zsum_app l k : Zsum (l ++ k) = (Zsum l + Zsum k)%Z.
Proof. induction l as [|x l IH]; simpl; [done|]. rewrite IH. lia. Qed.

Lemma Zsum_add {A} (f g : A -> Z) (l : list A) :
  Zsum ((fun x => (f x + g x)%Z) <$> l) = (Zsum (f <$> l) + Zsum (g <$> l))%Z.
Proof.
  induction l as [|x l IH]; [done|].
  rewrite !fmap_cons. unfold Zsum in *. cbn [fold_right]. rewrite IH. lia.
Qed.

Lemma Zsum_indicator n k :
  Zsum ((fun i => if bool_decide ((Z.of_nat k - 1)%Z = Z.of_nat i) then 1%Z else 0%Z)
          <$> seq 0 n)
  = if bool_decide (1 <= k <= n)%nat then 1%Z else 0%Z.
Proof.
  induction n as [|n IH]; [simpl; by rewrite bool_decide_eq_false_2 by lia|].
  rewrite seq_S, fmap_app, Zsum_app, IH. simpl.
  repeat case_bool_decide; lia.
Qed.

(** The scan of non-decreasing edges stops inside the array, and not at
    its first edge, exactly for the distances in [first edge, last edge). *)
Lemma searchsorted_in_range edges d :
  nondecreasing edges -> (0 < length edges)%nat ->
  bool_decide (1 <= searchsorted_right edges d <= length edges - 1)%nat = in_rangeb edges d.
Proof.
  intros Hnd Hpos.
  destruct (searchsorted_right_spec edges d Hnd) as (Hk & Hbefore & Hafter).
  unfold in_rangeb. rewrite head_lookup, last_lookup.
  destruct (lookup_lt_is_Some_2 edges 0) as [lo Hlo]; [lia|].
  destruct (lookup_lt_is_Some_2 edges (pred (length edges))) as [hi Hhi]; [lia|].
  rewrite Hlo, Hhi.
  set (k := searchsorted_right edges d) in *.
  destruct (decide (1 <= k <= length edges - 1)%nat) as [Hin|Hout].
  - rewrite bool_decide_eq_true_2 by done. symmetry. apply andb_true_iff.
    assert (Hd : xltb d hi = true) by (apply (Hafter (pred (length edges))); [lia|done]).
    split; [|done]. apply xltb_total.
    + apply (Hbefore 0%nat); [lia|done].
    + by apply (xltb_not_nan_l d hi).
    + by apply (nondecreasing_not_nan edges 0%nat).
  - rewrite bool_decide_eq_false_2 by done. symmetry. apply andb_false_iff.
    destruct (decide (k = 0)%nat) as [Hk0|Hk0].
    + left. apply not_true_iff_false. intros Hle. apply xleb_not_gt in Hle.
      rewrite (Hafter 0%nat lo) in Hle by (done || lia). done.
    + right. apply (Hbefore (pred (length edges))); [lia|done].
Qed.

Lemma count_bins edges d :
  nondecreasing edges -> (0 < length edges)%nat ->
  Zsum ((fun i => if in_binb edges i d then 1%Z else 0%Z) <$> seq 0 (length edges - 1))
  = if in_rangeb edges d then 1%Z else 0%Z.
Proof.
  intros Hnd Hpos. rewrite <- (searchsorted_in_range edges d Hnd Hpos).
  rewrite <- Zsum_indicator. f_equal. apply list_fmap_ext. intros j i Hi.
  apply lookup_seq in Hi as [Hij Hi]. simpl in Hij. subst i.
  by rewrite (digit_in_bin edges d j Hnd) by lia.
Qed.

Lemma Zsum_zeros {A} (l : list A) : Zsum ((fun _ => 0%Z) <$> l) = 0%Z.
Proof.
  induction l as [|x l IH]; [done|].
  rewrite fmap_cons. unfold Zsum in *. cbn [fold_right]. by rewrite IH.
Qed.

Lemma count_members {A} (P : nat -> A -> bool) (Q : A -> bool) (l : list A) n :
  (forall x, Zsum ((fun i => if P i x then 1%Z else 0%Z) <$> seq 0 n)
             = if Q x then 1%Z else 0%Z) ->
  Zsum ((fun i => Z.of_nat (length (List.filter (P i) l))) <$> seq 0 n)
  = Z.of_nat (length (List.filter Q l)).
Proof.
  intros HPQ. induction l as [|x l IH].
  { cbn [List.filter length Z.of_nat]. apply Zsum_zeros. }
  transitivity (Zsum ((fun i => ((if P i x then 1 else 0)
                                 + Z.of_nat (length (List.filter (P i) l)))%Z) <$> seq 0 n)).
  { f_equal. apply list_fmap_ext. intros _ i _. cbn [List.filter].
    destruct (P i x); cbn [length]; lia. }
  rewrite (Zsum_add (fun i => if P i x then 1%Z else 0%Z)
             (fun i => Z.of_nat (length (List.filter (P i) l)))).
  rewrite IH, HPQ. cbn [List.filter]. destruct (Q x); cbn [length]; lia.
Qed.

(** X5.  For non-decreasing edges, the counts of the bins of the returned
    profile add up to the number of galaxies whose distance lies in
    [first edge, last edge): a galaxy is counted once or not at all, and
    the sum never exceeds the size of the catalog. *)
Theorem X5_counts_add_up h rows rin rout bins space bf bn s edges p :
  shear.make_bins rin rout bins space = OK edges ->
  nondecreasing edges ->
  fst (shear.Profile_init (shear.Table rows) rin rout bins space h bf bn s) = OK p ->
  Zsum (shear.N p)
    = Z.of_nat (length (List.filter (fun gal => in_rangeb edges (gal_dist_hMpc h gal)) rows)) /\
  (Zsum (shear.N p) <= Z.of_nat (length rows))%Z.
Proof.
  intros Hbins Hnd Hp.
  destruct (Profile_init_OK_inv _ _ _ _ _ _ _ _ _ _ Hp)
    as (rows' & edges' & digitized & [= <-] & Hbins' & Hdig & _ & Hpos & _).
  rewrite Hbins in Hbins'. injection Hbins' as <-.
  rewrite (np_digitize_nondecreasing _ _ Hnd) in Hdig. injection Hdig as <-.
  pose proof (Profile_init_bins h rows rin rout bins space bf bn s edges _
                Hbins (np_digitize_nondecreasing _ _ Hnd) Hpos) as [_ Hres].
  cbv zeta in Hres. rewrite Hp in Hres.
  destruct Hres as (_ & _ & _ & _ & _ & _ & LN & Hrows).
  assert (HN : shear.N p =
            (fun i => Z.of_nat (length (List.filter
                        (fun gal => in_binb edges i (gal_dist_hMpc h gal)) rows)))
              <$> seq 0 (length edges - 1)).
  { apply list_eq. intros i. rewrite list_lookup_fmap.
    destruct (decide (i < length edges - 1)%nat) as [Hi|Hi].
    - rewrite lookup_seq_lt by done. simpl.
      destruct (Hrows i Hi) as (r & Hst & (_ & _ & _ & _ & _ & R6)).
      rewrite R6, (bin_stats_N _ _ _ _ _ _ Hst).
      rewrite bin_galaxies_interval by (done || lia). done.
    - rewrite lookup_ge_None_2 by lia. rewrite lookup_seq_ge by lia. done. }
  assert (Hsum : Zsum (shear.N p) =
            Z.of_nat (length (List.filter
                        (fun gal => in_rangeb edges (gal_dist_hMpc h gal)) rows))).
  { rewrite HN.
    apply (count_members (fun i gal => in_binb edges i (gal_dist_hMpc h gal))).
    intros gal. by apply count_bins. }
  split; [done|]. rewrite Hsum.
  pose proof (List.filter_length_le
                (fun gal => in_rangeb edges (gal_dist_hMpc h gal)) rows). lia.
Qed.

(** ** Failures of the loop *)

Lemma xsum_zeros (l : list xnum) : Forall (fun x => x = Fin 0) l -> xsum l = Fin 0.
Proof.
  unfold xsum, xzero. induction 1 as [|x l -> _ IH]; [done|].
  cbn [fold_left xadd]. by rewrite Qcplus_0_l.
Qed.

(** When every bin that holds a galaxy fails in the same way, and one bin
    holds a galaxy, the constructor fails in that way. *)
Lemma Profile_init_uniform_failure h rows rin rout bins space bf bn s edges digitized e0 :
  shear.make_bins rin rout bins space = OK edges ->
  np_digitize (gal_dist_hMpc h <$> rows) edges = OK digitized ->
  (0 < length edges)%nat ->
  let G := bin_galaxies rows ((fun d => (d - 1)%Z) <$> digitized) in
  (forall i, G i <> [] -> bin_stats h bf bn (G i) default_row = Err e0) ->
  (exists i, (i < length edges - 1)%nat /\ G i <> []) ->
  fst (shear.Profile_init (shear.Table rows) rin rout bins space h bf bn s) = Err e0.
Proof.
  intros Hbins Hdig Hpos G Hfail (i0 & Hi0 & Hne).
  pose proof (Profile_init_bins h rows rin rout bins space bf bn s edges digitized
                Hbins Hdig Hpos) as [_ Hres].
  cbv zeta in Hres. fold G in Hres.
  destruct (fst (shear.Profile_init _ _ _ _ _ _ _ _ _)) as [p|e].
  - destruct Hres as (_ & _ & _ & _ & _ & _ & _ & Hrows).
    destruct (Hrows i0 Hi0) as (r & Hst & _). rewrite (Hfail i0 Hne) in Hst. done.
  - destruct Hres as (i & Hi & Hst).
    destruct (G i) as [|gal Gi] eqn:HG; [done|].
    rewrite <- HG in Hst. rewrite Hfail in Hst by (rewrite HG; done). congruence.
Qed.

(** X6.  When the weight [catalogWeight / Sigma_crit^2] of every galaxy is zero
    and some bin holds a galaxy, the constructor raises ZeroDivisionError
    (from [np.average]): a bin of zero total weight is not left at zero. *)
Theorem X6_zero_weights_ZeroDivisionError h rows rin rout bins space bf bn s edges digitized :
  shear.make_bins rin rout bins space = OK edges ->
  np_digitize (gal_dist_hMpc h <$> rows) edges = OK digitized ->
  (0 < length edges)%nat ->
  Forall (fun gal => xdiv (shear.weight gal) (xsq (gal_sigma_critic gal)) = Fin 0) rows ->
  (exists i, (i < length edges - 1)%nat /\
     bin_galaxies rows ((fun d => (d - 1)%Z) <$> digitized) i <> []) ->
  fst (shear.Profile_init (shear.Table rows) rin rout bins space h bf bn s)
  = Err ZeroDivisionError.
Proof.
  intros Hbins Hdig Hpos Hw Hne.
  apply (Profile_init_uniform_failure h rows rin rout bins space bf bn s edges digitized
           ZeroDivisionError Hbins Hdig Hpos); [|done].
  intros i HG.
  assert (HwG : Forall (fun gal => gal_weight gal = Fin 0)
                  (bin_galaxies rows ((fun d => (d - 1)%Z) <$> digitized) i))
    by (unfold bin_galaxies; by apply mask_select_Forall).
  destruct (bin_galaxies _ _ i) as [|gal Gi] eqn:HGi; [done|]. rewrite <- HGi in *.
  assert (Hst : bin_stats h bf bn (bin_galaxies rows ((fun d => (d - 1)%Z) <$> digitized) i)
                  default_row
                = occupied_bin_stats h bf bn
                    (bin_galaxies rows ((fun d => (d - 1)%Z) <$> digitized) i) default_row)
    by (by rewrite HGi).
  rewrite Hst. unfold occupied_bin_stats.
  rewrite (xsum_zeros (gal_weight <$> _)) by (by apply Forall_fmap).
  reflexivity.
Qed.

(** X7.  With the bootstrap on and [boot_n = 0], a catalog of finite positive
    weights with a galaxy in some bin makes the constructor raise
    ValueError: [astropy.stats.bootstrap] refuses to draw no resample. *)
Theorem X7_no_resample_ValueError h rows rin rout bins space s edges digitized :
  shear.make_bins rin rout bins space = OK edges ->
  np_digitize (gal_dist_hMpc h <$> rows) edges = OK digitized ->
  (0 < length edges)%nat ->
  Forall (fun gal => xpositive (xdiv (shear.weight gal) (xsq (gal_sigma_critic gal)))) rows ->
  (exists i, (i < length edges - 1)%nat /\
     bin_galaxies rows ((fun d => (d - 1)%Z) <$> digitized) i <> []) ->
  fst (shear.Profile_init (shear.Table rows) rin rout bins space h true 0 s)
  = Err ValueError.
Proof.
  intros Hbins Hdig Hpos Hw Hne.
  apply (Profile_init_uniform_failure h rows rin rout bins space true 0%nat s edges digitized
           ValueError Hbins Hdig Hpos); [|done].
  intros i HG.
  assert (HwG : Forall (fun gal => xpositive (gal_weight gal))
                  (bin_galaxies rows ((fun d => (d - 1)%Z) <$> digitized) i))
    by (unfold bin_galaxies; by apply mask_select_Forall).
  destruct (bin_galaxies _ _ i) as [|gal Gi] eqn:HGi; [done|]. rewrite <- HGi in *.
  assert (Hst : bin_stats h true 0 (bin_galaxies rows ((fun d => (d - 1)%Z) <$> digitized) i)
                  default_row
                = occupied_bin_stats h true 0
                    (bin_galaxies rows ((fun d => (d - 1)%Z) <$> digitized) i) default_row)
    by (by rewrite HGi).
  rewrite Hst. unfold occupied_bin_stats.
  assert (Hne' : gal_weight <$> bin_galaxies rows ((fun d => (d - 1)%Z) <$> digitized) i <> [])
    by (rewrite HGi; done).
  rewrite (xpositive_nonzero _ (xsum_positive _ Hne' (proj2 (Forall_fmap _ _ _) HwG))).
  unfold boot_error, shear._boot_error, bootstrap.
  destruct (decide _) as [_|Hno]; [done|]. exfalso. apply Hno. right. lia.
Qed.

(** ** A bin that holds one galaxy *)

Lemma xadd_zero_l (x : xnum) : xadd xzero x = x.
Proof. destruct x as [q| | |]; cbn [xadd xzero]; try reflexivity. f_equal. ring. Qed.

Lemma weighted_average_single (t w : xnum) :
  weighted_average [t] [w] = xdiv (xmul t w) w.
Proof.
  unfold weighted_average, xsum. cbn [zip_with fold_left]. by rewrite !xadd_zero_l.
Qed.

End Profile_more.

Section Profile_single.

Context `{Ext : External} `{Rnd : NumpyRandom}.

(** X8.  A bin that holds a single galaxy has the count 1, and its shear
    is that galaxy's [e_t * Sigma_crit], multiplied and divided by its
    weight [w] (the weighted average of one value), over
    [m_cal = 1 + (m * w) / w]; its cross shear likewise with [e_x]. *)
Theorem X8_single_galaxy_bin h rows rin rout bins space bf bn s edges digitized p i gal :
  shear.make_bins rin rout bins space = OK edges ->
  np_digitize (gal_dist_hMpc h <$> rows) edges = OK digitized ->
  fst (shear.Profile_init (shear.Table rows) rin rout bins space h bf bn s) = OK p ->
  (i < length edges - 1)%nat ->
  bin_galaxies rows ((fun d => (d - 1)%Z) <$> digitized) i = [gal] ->
  let w := gal_weight gal in
  let m_cal := xadd (Fin 1) (xdiv (xmul (shear.m gal) w) w) in
  shear.shear p !! i
    = Some (xdiv (xdiv (xmul (xmul (gal_et h gal) (gal_sigma_critic gal)) w) w) m_cal) /\
  shear.cero p !! i
    = Some (xdiv (xdiv (xmul (xmul (gal_ex h gal) (gal_sigma_critic gal)) w) w) m_cal) /\
  shear.N p !! i = Some 1%Z.
Proof.
  intros Hbins Hdig Hp Hi HG w m_cal.
  assert (Hpos : (0 < length edges)%nat) by lia.
  pose proof (Profile_init_bins h rows rin rout bins space bf bn s edges digitized
                Hbins Hdig Hpos) as [_ Hres].
  cbv zeta in Hres. rewrite Hp in Hres.
  destruct Hres as (_ & _ & _ & _ & _ & _ & _ & Hrows).
  destruct (Hrows i Hi) as (r & Hst & (R1 & R2 & _ & _ & _ & R6)).
  rewrite R1, R2, R6. rewrite HG in Hst.
  cbn [bin_stats] in Hst. unfold occupied_bin_stats in Hst.
  cbn [fmap list_fmap] in Hst.
  destruct (xeqb (xsum [gal_weight gal]) xzero); [done|].
  rewrite !weighted_average_single in Hst.
  destruct bf.
  - destruct (boot_error _ _ _ _) as [errs|]; [|done].
    cbn [mbind result_bind] in Hst. injection Hst as <-. done.
  - injection Hst as <-. done.
Qed.

End Profile_single.

(** ** Galaxies outside the range of the edges *)

Lemma in_binb_in_rangeb edges i d :
  nondecreasing edges -> in_binb edges i d = true -> in_rangeb edges d = true.
Proof.
  intros Hnd Hin. apply in_binb_true in Hin.
  unfold in_rangeb.
  destruct Hin as (a & b & Ha & Hb & H1 & H2).
  assert (Hlen : (S i < length edges)%nat) by (by eapply lookup_lt_Some).
  destruct (lookup_lt_is_Some_2 edges 0) as [lo Hlo]; [lia|].
  destruct (lookup_lt_is_Some_2 edges (pred (length edges))) as [hi Hhi]; [lia|].
  assert (Hhead : head edges = Some lo) by (by rewrite head_lookup).
  assert (Hlast : last edges = Some hi) by (by rewrite last_lookup).
  rewrite Hhead, Hlast.
  destruct (in_bin_range edges d i lo hi Hnd Hhead Hlast) as [R1 R2].
  { by exists a, b. }
  by rewrite R1, R2.
Qed.

Lemma list_eq_lookups {A} (l k : list A) n :
  length l = n -> length k = n ->
  (forall i, (i < n)%nat -> l !! i = k !! i) -> l = k.
Proof.
  intros Hl Hk H. apply list_eq. intros i.
  destruct (decide (i < n)%nat) as [Hi|Hi]; [by apply H|].
  by rewrite !lookup_ge_None_2 by lia.
Qed.

Section Profile_outside.

Context `{Ext : External} `{Rnd : NumpyRandom}.

(** X9.  For non-decreasing edges, a galaxy whose distance lies outside
    [first edge, last edge) has no effect on the statistics: taking it out
    of the catalog gives a profile with the same edges, radii, shears,
    errors and counts. *)
Theorem X9_outside_galaxy_ignored h rows1 gal rows2 rin rout bins space bf bn s edges p :
  shear.make_bins rin rout bins space = OK edges ->
  nondecreasing edges ->
  in_rangeb edges (gal_dist_hMpc h gal) = false ->
  fst (shear.Profile_init (shear.Table (rows1 ++ gal :: rows2)) rin rout bins space
         h bf bn s) = OK p ->
  exists p',
    fst (shear.Profile_init (shear.Table (rows1 ++ rows2)) rin rout bins space
           h bf bn s) = OK p' /\
    shear.bins p' = shear.bins p /\ shear.r_hMpc p' = shear.r_hMpc p /\
    shear.shear p' = shear.shear p /\ shear.cero p' = shear.cero p /\
    shear.shear_error p' = shear.shear_error p /\
    shear.cero_error p' = shear.cero_error p /\
    shear.stat_error p' = shear.stat_error p /\ shear.N p' = shear.N p.
Proof.
  intros Hbins Hnd Hout Hp.
  destruct (Profile_init_OK_inv _ _ _ _ _ _ _ _ _ _ Hp)
    as (rows' & edges' & digitized & _ & Hbins' & _ & _ & Hpos & Hb & Hr & _).
  rewrite Hbins in Hbins'. injection Hbins' as <-.
  pose proof (Profile_init_bins h (rows1 ++ gal :: rows2) rin rout bins space bf bn s edges _
                Hbins (np_digitize_nondecreasing _ _ Hnd) Hpos) as [_ Hres].
  cbv zeta in Hres. rewrite Hp in Hres.
  destruct Hres as (_ & L1 & L2 & L3 & L4 & L5 & L6 & Hrows).
  pose proof (Profile_init_bins h (rows1 ++ rows2) rin rout bins space bf bn s edges _
                Hbins (np_digitize_nondecreasing _ _ Hnd) Hpos) as [_ Hres'].
  cbv zeta in Hres'.
  assert (Hmem : forall i, (i < length edges - 1)%nat ->
    bin_galaxies (rows1 ++ rows2)
      ((fun d => (d - 1)%Z) <$> ((fun v => Z.of_nat (searchsorted_right edges v))
                                   <$> (gal_dist_hMpc h <$> rows1 ++ rows2))) i
    = bin_galaxies (rows1 ++ gal :: rows2)
        ((fun d => (d - 1)%Z) <$> ((fun v => Z.of_nat (searchsorted_right edges v))
                                     <$> (gal_dist_hMpc h <$> rows1 ++ gal :: rows2))) i).
  { intros i Hi. rewrite !bin_galaxies_interval by (done || lia).
    rewrite !List.filter_app. f_equal. cbn [List.filter].
    destruct (in_binb edges i (gal_dist_hMpc h gal)) eqn:Hin; [|done].
    rewrite (in_binb_in_rangeb edges i _ Hnd Hin) in Hout. done. }
  destruct (fst (shear.Profile_init (shear.Table (rows1 ++ rows2)) _ _ _ _ _ _ _ _))
    as [p'|e] eqn:Hp'.
  2:{ destruct Hres' as (i & Hi & Hst). rewrite (Hmem i Hi) in Hst.
      destruct (Hrows i Hi) as (r & Hst' & _). congruence. }
  exists p'. split; [done|].
  destruct (Profile_init_OK_inv _ _ _ _ _ _ _ _ _ _ Hp')
    as (rows'' & edges'' & digitized'' & _ & Hbins'' & _ & _ & _ & Hb' & Hr' & _).
  rewrite Hbins in Hbins''. injection Hbins'' as <-.
  split; [congruence|]. split; [congruence|].
  destruct Hres' as (_ & L1' & L2' & L3' & L4' & L5' & L6' & Hrows').
  assert (Hsame : forall i, (i < length edges - 1)%nat ->
            exists r, profile_row p i r /\ profile_row p' i r).
  { intros i Hi. destruct (Hrows i Hi) as (r & Hst & Hr1).
    destruct (Hrows' i Hi) as (r' & Hst' & Hr2).
    rewrite (Hmem i Hi) in Hst'. exists r. split; [done|]. congruence. }
  repeat split;
    (eapply list_eq_lookups; [eassumption|eassumption|];
     intros i Hi; destruct (Hsame i Hi) as (r & (A1 & A2 & A3 & A4 & A5 & A6)
                                              & (B1 & B2 & B3 & B4 & B5 & B6));
     congruence).
Qed.

End Profile_outside.

(** ** The critical density *)

Section Profile_sigma_critic.

Context `{Ext : External} `{Rnd : NumpyRandom}.


(** X11.  A source distance of zero raises nothing.  For a galaxy with
    [DS = 0], a finite non-zero [DLS] and a [DL] for which the computed
    factor [cvel^2 / (4 pi G (DL 10^6 pc))] is finite, the returned profile
    has an infinite [beta] and the critical density 0, so that the weight
    [w / Sigma_crit^2] of the galaxy is a division by zero: an infinity of
    the sign of [w], NaN for [w = 0]. *)
Theorem X11_zero_source_distance cat rin rout bins space h bf bn s p k gal (dls A : Qc) :
  fst (shear.Profile_init cat rin rout bins space h bf bn s) = OK p ->
  catalog_rows cat !! k = Some gal ->
  shear.DS gal = Fin 0 -> shear.DLS gal = Fin dls -> dls <> 0 ->
  xdiv (xsq shear.cvel)
       (xmul (xmul (xmul (xofZ 4) (Fin np_pi)) shear.G)
             (xmul (xmul (shear.DL gal) (xofZ 1000000)) shear.pc)) = Fin A ->
  (shear.beta p !! k = Some PInf \/ shear.beta p !! k = Some NInf) /\
  shear.sigma_critic p !! k = Some (Fin 0) /\
  forall w, shear.weight gal = Fin w ->
    xdiv (shear.weight gal) (xsq (gal_sigma_critic gal)) = inf_of_sign (qsign w).
Proof.
  intros Hp Hk HDS HDLS Hdls HA.
  destruct (Profile_init_OK_inv _ _ _ _ _ _ _ _ _ _ Hp)
    as (rows & edges & digitized & -> & _ & _ & _ & _ & _ & _ & _ & -> & ->).
  simpl in Hk. rewrite !list_lookup_fmap, Hk. simpl.
  assert (Hbeta : gal_beta gal = PInf \/ gal_beta gal = NInf).
  { unfold gal_beta. rewrite HDLS, HDS. unfold xdiv.
    assert (Hz : qsign 0 = Eq) by (by apply qsign_Eq). rewrite Hz.
    destruct (qsign dls) eqn:E; [|by right|by left]. by apply qsign_Eq in E. }
  assert (HM : qz 1989000000000000000000000000000 <> 0) by qc_nonzero.
  assert (Hsig : gal_sigma_critic gal = Fin 0).
  { unfold gal_sigma_critic. rewrite HA.
    assert (Hinv : xdiv (Fin 1) (gal_beta gal) = Fin 0)
      by (destruct Hbeta as [-> | ->]; reflexivity).
    rewrite Hinv. unfold shear.pc, shear.Msun, xsq, xofZ. cbn [xmul].
    rewrite (xdiv_Fin _ _ HM). cbn [xmul]. f_equal. ring. }
  split; [destruct Hbeta as [-> | ->]; by (left + right)|].
  split; [by rewrite Hsig|].
  intros w ->. rewrite Hsig. unfold xsq. cbn [xmul]. unfold xdiv.
  assert (Hz : qsign (0 * 0) = Eq) by (apply qsign_Eq; ring). by rewrite Hz.
Qed.

End Profile_sigma_critic.

(** * Further properties of the map reconstructor *)

Section KappaMap_more.

Context {Data Cosmo : Type}.
Variable ShearMap_init : Data -> nat -> xnum -> option xnum -> Cosmo -> kappa.ShearMap.
Variable fft2 ifft2 : matrix cplx -> matrix cplx.

(** X12.  Without data the constructor raises ValueError; with data but without
    [nbins] it raises NameError, whatever the data: the default number of
    bins is computed from [nGalaxies], a name that is bound nowhere. *)
Theorem X12_KappaMap_missing_arguments nbins gals_per_bins box_size_hMpc cosmo :
  kappa.KappaMap_init ShearMap_init fft2 ifft2 None nbins gals_per_bins box_size_hMpc cosmo
    = Err ValueError /\
  forall data,
    kappa.KappaMap_init ShearMap_init fft2 ifft2 (Some data) None gals_per_bins
      box_size_hMpc cosmo = Err NameError.
Proof. split; [reflexivity|]. intros data. reflexivity. Qed.

(** X13.  A shear map whose coordinate array [px] has fewer than two rows (a
    grid of one point, for instance) makes the constructor raise IndexError:
    the bin size is read from [px[1,0]]. *)
Theorem X13_KappaMap_single_row data n gals_per_bins box_size_hMpc cosmo :
  (length (kappa.sm_px (ShearMap_init data n gals_per_bins box_size_hMpc cosmo)) < 2)%nat ->
  kappa.KappaMap_init ShearMap_init fft2 ifft2 (Some data) (Some n) gals_per_bins
    box_size_hMpc cosmo = Err IndexError.
Proof.
  intros Hlen. unfold kappa.KappaMap_init. cbn [mbind result_bind].
  assert (Hget : mget (kappa.sm_px (ShearMap_init data n gals_per_bins box_size_hMpc cosmo))
                   1 0 = Err IndexError).
  { unfold mget. by rewrite lookup_ge_None_2 by lia. }
  by rewrite Hget.
Qed.

End KappaMap_more.

(** An entry of the kernel away from the origin, for finite non-zero
    spacings. *)
Lemma kernel_entries n (dx dy : Qc) K i j :
  dx <> 0 -> dy <> 0 ->
  kappa._conjugate_inversion_kernel (Fin dx, Fin dy) n = OK K ->
  (i < n)%nat -> (j < n)%nat -> (i, j) <> (0, 0)%nat ->
  (freq n dx i <> 0 \/ freq n dy j <> 0) /\
  mget K i j = OK (mkC (Fin (Dstar_re (freq n dx i) (freq n dy j)))
                       (Fin (Dstar_im (freq n dx i) (freq n dy j)))).
Proof.
  intros Hdx Hdy HK Hi Hj Hij. rewrite kernel_unfold in HK; cbn [fst snd] in HK.
  pose proof (grid_shape kernel_entry (kappa.fftfreq n (Fin dx)) (kappa.fftfreq n (Fin dy)))
    as Hshape.
  rewrite !fftfreq_length in Hshape.
  destruct (mset_origin _ czero n n Hshape ltac:(lia) ltac:(lia)) as (K' & HK' & _ & _ & Hrest).
  rewrite HK in HK'. injection HK' as <-.
  assert (Hk : freq n dx i <> 0 \/ freq n dy j <> 0).
  { destruct (decide (i = 0)%nat) as [->|Hi0].
    - right. apply freq_nonzero; [done|]. split; [|done]. destruct j; [done|lia].
    - left. apply freq_nonzero; [done|lia]. }
  split; [done|]. rewrite Hrest by done.
  rewrite (mget_grid _ _ _ i j (Fin (freq n dx i)) (Fin (freq n dy j)))
    by (by apply fftfreq_lookup).
  by rewrite kernel_entry_Fin.
Qed.

(** An entry of the kernel away from the origin, for any bin size. *)
Lemma kernel_lookup n (dx dy : xnum) K i j kx ky :
  kappa._conjugate_inversion_kernel (dx, dy) n = OK K ->
  (i, j) <> (0, 0)%nat ->
  kappa.fftfreq n dx !! i = Some kx -> kappa.fftfreq n dy !! j = Some ky ->
  mget K i j = OK (kernel_entry kx ky).
Proof.
  intros HK Hij Hkx Hky. rewrite kernel_unfold in HK; cbn [fst snd] in HK.
  pose proof (grid_shape kernel_entry (kappa.fftfreq n dx) (kappa.fftfreq n dy)) as Hshape.
  rewrite !fftfreq_length in Hshape.
  assert (Hn : (0 < n)%nat).
  { apply lookup_lt_Some in Hkx. rewrite fftfreq_length in Hkx. lia. }
  destruct (mset_origin _ czero n n Hshape Hn Hn) as (K' & HK' & _ & _ & Hrest).
  rewrite HK in HK'. injection HK' as <-.
  rewrite Hrest by done. by apply mget_grid.
Qed.

(** X14.  The kernel is real on the two axes of the frequency grid and purely
    imaginary on its diagonal, with the other part exactly 0, wherever the
    computed square of the frequency and the reciprocal of the denominator
    are finite: at the zero frequency of [ky] the entry is
    [kx^2 * (1 / kx^2)], at the zero frequency of [kx] it is
    [- ky^2 * (1 / ky^2)], and for equal spacings the entry at [kx = ky] is
    [- (2 kx kx) * (1 / (kx^2 + kx^2))] times [i]. *)
Theorem X14_kernel_axes_and_diagonal n (dx dy : xnum) K :
  kappa._conjugate_inversion_kernel (dx, dy) n = OK K ->
  (forall i kx a r, (0 < i)%nat ->
     kappa.fftfreq n dx !! i = Some kx -> kappa.fftfreq n dy !! 0%nat = Some (Fin 0) ->
     xsq kx = Fin a -> xdiv (Fin 1) (Fin a) = Fin r ->
     mget K i 0 = OK (mkC (Fin (a * r)) (Fin 0))) /\
  (forall j ky b r, (0 < j)%nat ->
     kappa.fftfreq n dx !! 0%nat = Some (Fin 0) -> kappa.fftfreq n dy !! j = Some ky ->
     xsq ky = Fin b -> xdiv (Fin 1) (Fin b) = Fin r ->
     mget K 0 j = OK (mkC (Fin (- b * r)) (Fin 0))) /\
  (dx = dy -> forall i kx a c r, (0 < i)%nat ->
     kappa.fftfreq n dx !! i = Some kx ->
     xsq kx = Fin a -> xmul (xmul (xofZ 2) kx) kx = Fin c ->
     xdiv (Fin 1) (xadd (Fin a) (Fin a)) = Fin r ->
     mget K i i = OK (mkC (Fin 0) (Fin (- c * r)))).
Proof.
  intros HK. split; [|split].
  - intros i kx a r Hi Hkx Hky Ha Hr.
    rewrite (kernel_lookup n dx dy K i 0 kx (Fin 0) HK) by (done || (intros [=]; lia)).
    destruct (xsq_Fin_inv kx a Ha) as (p & -> & ->).
    rewrite (kernel_entry_finite (Fin p) (Fin 0) (p * p) (0 * 0) (qz 2 * p * 0) r);
      [do 3 f_equal; ring | done | done | done |].
    cbn [xadd]. by replace (p * p + 0 * 0) with (p * p) by ring.
  - intros j ky b r Hj Hkx Hky Hb Hr.
    rewrite (kernel_lookup n dx dy K 0 j (Fin 0) ky HK) by (done || (intros [=]; lia)).
    destruct (xsq_Fin_inv ky b Hb) as (q & -> & ->).
    rewrite (kernel_entry_finite (Fin 0) (Fin q) (0 * 0) (q * q) (qz 2 * 0 * q) r);
      [do 3 f_equal; ring | done | done | done |].
    cbn [xadd]. by replace (0 * 0 + q * q) with (q * q) by ring.
  - intros <- i kx a c r Hi Hkx Ha Hc Hr.
    rewrite (kernel_lookup n dx dx K i i kx kx HK) by (done || (intros [=]; lia)).
    rewrite (kernel_entry_finite kx kx a a c r Ha Ha Hc Hr).
    do 3 f_equal; ring.
Qed.

(** ** A spacing of zero *)

Lemma fftfreq_zero_spacing n : Forall nonfinite (kappa.fftfreq n (Fin 0)).
Proof.
  unfold kappa.fftfreq. apply Forall_fmap, Forall_forall. intros k _. simpl.
  unfold xofZ. cbn [xmul].
  assert (Hz : qz (Z.of_nat n) * 0 = 0) by ring. rewrite Hz.
  change (xdiv (Fin 1) (Fin 0)) with PInf. cbn [xmul xsign].
  destruct (qsign (qz k)); exact I.
Qed.

Lemma kernel_entry_nonfinite a b :
  nonfinite a -> nonfinite b -> kernel_entry a b = mkC NaN NaN.
Proof. destruct a, b; try done; intros _ _; reflexivity. Qed.

(** X15.  With a spacing of zero the kernel is built without any exception: its
    entry at the origin is 0 and every other entry is NaN in both
    components. *)
Theorem X15_kernel_zero_spacing n :
  (0 < n)%nat ->
  exists K,
    kappa._conjugate_inversion_kernel (Fin 0, Fin 0) n = OK K /\
    mget K 0 0 = OK (mkC (Fin 0) (Fin 0)) /\
    forall i j, (i < n)%nat -> (j < n)%nat -> (i, j) <> (0, 0)%nat ->
      mget K i j = OK (mkC NaN NaN).
Proof.
  intros Hn. rewrite kernel_unfold; cbn [fst snd].
  pose proof (grid_shape kernel_entry (kappa.fftfreq n (Fin 0)) (kappa.fftfreq n (Fin 0)))
    as Hshape.
  rewrite !fftfreq_length in Hshape.
  destruct (mset_origin _ czero n n Hshape Hn Hn) as (K & HK & _ & H00 & Hrest).
  exists K. split; [done|]. split; [done|].
  intros i j Hi Hj Hij. rewrite Hrest by done.
  destruct (lookup_lt_is_Some_2 (kappa.fftfreq n (Fin 0)) i) as [a Ha];
    [by rewrite fftfreq_length|].
  destruct (lookup_lt_is_Some_2 (kappa.fftfreq n (Fin 0)) j) as [b Hb];
    [by rewrite fftfreq_length|].
  rewrite (mget_grid _ _ _ i j a b Ha Hb). f_equal.
  pose proof (fftfreq_zero_spacing n) as Hnf. rewrite Forall_forall in Hnf.
  apply kernel_entry_nonfinite; apply Hnf; by eapply list_elem_of_lookup_2.
Qed.

(** ** The symmetry of the kernel *)

Lemma qz_opp (z : Z) : qz (- z) = - qz z.
Proof.
  apply Qc_is_canon. unfold qz, Qcopp, Q2Qc; cbn [this].
  rewrite !Qred_correct. unfold inject_Z, Qopp. reflexivity.
Qed.

Lemma freq_index_reflect n i :
  Nat.odd n = true -> (i < n)%nat ->
  freq_index n ((n - i) mod n) = (- freq_index n i)%Z.
Proof.
  intros Hodd Hi.
  destruct (Nat.odd_spec n) as [Hspec _]. destruct (Hspec Hodd) as [m Hm].
  destruct (decide (i = 0)%nat) as [->|Hi0].
  - rewrite Nat.sub_0_r, Nat.Div0.mod_same. unfold freq_index.
    destruct (decide _) as [_|H]; [lia|]. exfalso. apply H.
    Z.to_euclidean_division_equations. lia.
  - rewrite Nat.mod_small by lia. unfold freq_index.
    assert (HN : ((Z.of_nat n - 1) / 2 + 1 = Z.of_nat m + 1)%Z)
      by (Z.to_euclidean_division_equations; lia).
    rewrite HN. repeat destruct (decide _); lia.
Qed.

Lemma freq_reflect n d i :
  Nat.odd n = true -> (i < n)%nat -> freq n d ((n - i) mod n) = - freq n d i.
Proof.
  intros Hodd Hi. unfold freq. rewrite (freq_index_reflect n i Hodd Hi), qz_opp.
  unfold Qcdiv. ring.
Qed.

Lemma Dstar_reflect (a b : Qc) :
  Dstar_re (- a) (- b) = Dstar_re a b /\ Dstar_im (- a) (- b) = Dstar_im a b.
Proof.
  unfold Dstar_re, Dstar_im.
  assert (Ha : - a * - a = a * a) by ring.
  assert (Hb : - b * - b = b * b) by ring.
  assert (Hab : qz 2 * - a * - b = qz 2 * a * b) by ring.
  by rewrite Ha, Hb, Hab.
Qed.

(** X16.  For an odd number of bins and finite non-zero spacings, the kernel is
    even in the frequency: its entry at the indices of [(-kx, -ky)],
    [((n - i) mod n, (n - j) mod n)], is its entry at [(i, j)]. *)
Theorem X16_kernel_even n (dx dy : Qc) K :
  Nat.odd n = true -> dx <> 0 -> dy <> 0 ->
  kappa._conjugate_inversion_kernel (Fin dx, Fin dy) n = OK K ->
  forall i j, (i < n)%nat -> (j < n)%nat ->
    mget K ((n - i) mod n) ((n - j) mod n) = mget K i j.
Proof.
  intros Hodd Hdx Hdy HK i j Hi Hj.
  assert (Hn : n <> 0%nat) by lia.
  destruct (decide ((i, j) = (0, 0)%nat)) as [[= -> ->]|Hij].
  { by rewrite Nat.sub_0_r, Nat.Div0.mod_same. }
  assert (Hi' : ((n - i) mod n < n)%nat) by (by apply Nat.mod_upper_bound).
  assert (Hj' : ((n - j) mod n < n)%nat) by (by apply Nat.mod_upper_bound).
  assert (Hij' : ((n - i) mod n, (n - j) mod n) <> (0, 0)%nat).
  { intros [= E1 E2]. apply Hij.
    destruct (decide (i = 0)%nat) as [->|Hi0]; [|rewrite Nat.mod_small in E1 by lia; lia].
    destruct (decide (j = 0)%nat) as [->|Hj0]; [done|].
    rewrite Nat.mod_small in E2 by lia. lia. }
  destruct (kernel_entries n dx dy K i j Hdx Hdy HK Hi Hj Hij) as [_ ->].
  destruct (kernel_entries n dx dy K _ _ Hdx Hdy HK Hi' Hj' Hij') as [_ ->].
  rewrite !freq_reflect by done.
  by destruct (Dstar_reflect (freq n dx i) (freq n dy j)) as [-> ->].
Qed.

(** ** A shear field that is zero everywhere *)

Lemma mget_mnth {A} (d : A) (M : matrix A) i j x : mget M i j = OK x -> mnth d M i j = x.
Proof.
  unfold mget, mnth. destruct (M !! i) as [row|] eqn:Hrow; [|done].
  destruct (row !! j) as [y|] eqn:Hy; [|done]. intros [= <-].
  rewrite (nth_lookup_Some _ _ [] _ Hrow). by rewrite (nth_lookup_Some _ _ d _ Hy).
Qed.

Lemma mnth_mtabulate {A} (d : A) r c (f : nat -> nat -> A) i j :
  (i < r)%nat -> (j < c)%nat -> mnth d (mtabulate r c f) i j = f i j.
Proof.
  intros Hi Hj. apply mget_mnth. unfold mget, mtabulate, tabulate.
  rewrite list_lookup_fmap, lookup_seq_lt by done. simpl.
  by rewrite list_lookup_fmap, lookup_seq_lt by done.
Qed.

Lemma cmul_czero_finite (u v : Qc) : cmul czero (mkC (Fin u) (Fin v)) = czero.
Proof.
  unfold cmul, czero, xzero, xsub. cbn [re im xmul xneg xadd]. f_equal; f_equal; ring.
Qed.

Section KappaMap_zero.

Context {Data Cosmo : Type}.
Variable ShearMap_init : Data -> nat -> xnum -> option xnum -> Cosmo -> kappa.ShearMap.
Variable fft2 ifft2 : matrix cplx -> matrix cplx.

(** X17.  When both components of the shear are 0 at every point of an [n] by
    [n] grid, every entry of the kernel computed for the bin size is
    finite, and the two transforms map the zero array to the zero array,
    the convergence field is 0 at every point. *)
Theorem X17_zero_shear_zero_convergence data n gals_per_bins box_size_hMpc cosmo
    (a b : xnum) D :
  let sm := ShearMap_init data n gals_per_bins box_size_hMpc cosmo in
  fft2 (czeros n) = czeros n -> ifft2 (czeros n) = czeros n ->
  (0 < n)%nat ->
  kappa.sm_e1 sm = mtabulate n n (fun _ _ => Fin 0) ->
  kappa.sm_e2 sm = mtabulate n n (fun _ _ => Fin 0) ->
  mget (kappa.sm_px sm) 1 0 = OK a -> mget (kappa.sm_px sm) 0 0 = OK b ->
  kappa._conjugate_inversion_kernel (xsub a b, xsub a b) n = OK D ->
  (forall i j, (i < n)%nat -> (j < n)%nat ->
     exists u v, mget D i j = OK (mkC (Fin u) (Fin v))) ->
  exists km,
    kappa.KappaMap_init ShearMap_init fft2 ifft2 (Some data) (Some n) gals_per_bins
      box_size_hMpc cosmo = OK km /\
    kappa.kappa km = czeros n.
Proof.
  intros sm Hfft Hifft Hn He1 He2 Ha Hb HD Hfin.
  unfold kappa.KappaMap_init. cbn [mbind result_bind]. fold sm.
  rewrite Ha, Hb. cbn [mbind result_bind]. rewrite He1, He2.
  assert (Hz : is_shape n n (mtabulate n n (fun _ _ : nat => Fin 0))) by apply mtabulate_shape.
  rewrite (ew2_same_shape _ _ _ n _ _ Hn Hz (mmap_shape _ _ _ _ Hz)).
  assert (Hgamma :
    mtabulate n n (fun i j =>
      cadd (of_real (mnth xzero (mtabulate n n (fun _ _ : nat => Fin 0)) i j))
           (mnth czero (mmap (fun x => cmul (mkC xzero xone) (of_real x))
                          (mtabulate n n (fun _ _ : nat => Fin 0))) i j))
    = czeros n).
  { apply mtabulate_ext. intros i j Hi Hj.
    rewrite (mnth_mmap _ xzero czero n n _ i j Hz Hi Hj), !mnth_mtabulate by done.
    unfold cadd, cmul, of_real, czero, xzero, xone, xsub. cbn [re im xmul xneg xadd].
    f_equal; f_equal; ring. }
  rewrite Hgamma. cbn [mbind result_bind]. rewrite Hfft.
  destruct (kernel_shape (xsub a b, xsub a b) n Hn) as (D' & HD' & HDshape).
  rewrite HD in HD'. injection HD' as <-.
  rewrite HD. cbn [mbind result_bind].
  rewrite (ew2_same_shape _ _ _ n (czeros n) _ Hn (mtabulate_shape _ _ _) HDshape).
  cbn [mbind result_bind]. eexists. split; [reflexivity|]. cbn [kappa.kappa].
  transitivity (ifft2 (czeros n)); [|done]. f_equal.
  apply mtabulate_ext. intros i j Hi Hj.
  unfold czeros at 1. rewrite mnth_mtabulate by done.
  destruct (Hfin i j Hi Hj) as (u & v & Hget).
  rewrite (mget_mnth czero D i j _ Hget). apply cmul_czero_finite.
Qed.

End KappaMap_zero.

(** ** Decreasing edges *)

Lemma xltb_asym a b : xltb a b = true -> xltb b a = false.
Proof.
  destruct a as [p| | |], b as [q| | |]; try done.
  rewrite !xltb_Fin. intros H%bool_decide_eq_true.
  apply bool_decide_eq_false. intros H'. apply (Qclt_irrefl p). by eapply Qclt_trans.
Qed.

Lemma xltb_neq a b : xltb a b = true -> xeqb b a = false.
Proof.
  destruct a as [p| | |], b as [q| | |]; try done.
  rewrite xltb_Fin, xeqb_Fin. intros H%bool_decide_eq_true.
  apply bool_decide_eq_false. intros ->. by apply (Qclt_irrefl p).
Qed.

Lemma xltb_xleb a b : xltb a b = true -> xleb a b = true.
Proof. unfold xleb. by intros ->. Qed.

Lemma xltb_not_nan_r a b : xltb a b = true -> xeqb b b = true.
Proof.
  destruct a as [p| | |], b as [q| | |]; try done; intros _;
    rewrite xeqb_Fin; by apply bool_decide_eq_true.
Qed.

Lemma decreasing_tail e edges : decreasing (e :: edges) -> decreasing edges.
Proof. intros H i a b Ha Hb. by apply (H (S i) a b). Qed.

Lemma decreasing_lt edges i j a b :
  decreasing edges -> (i < j)%nat -> edges !! i = Some a -> edges !! j = Some b ->
  xltb b a = true.
Proof.
  intros Hd Hij Ha. revert b. induction j as [|j IH]; intros b Hb; [lia|].
  destruct (decide (i = j)) as [->|Hne]; [by apply (Hd j)|].
  destruct (lookup_lt_is_Some_2 edges j) as [c Hc].
  { apply lookup_lt_Some in Hb. lia. }
  apply (xltb_trans b c a); [by apply (Hd j)|]. apply IH; [lia|done].
Qed.

Lemma decreasing_not_nan edges i e :
  decreasing edges -> (2 <= length edges)%nat -> edges !! i = Some e -> xeqb e e = true.
Proof.
  intros Hd Hlen He. pose proof (lookup_lt_Some _ _ _ He) as Hi.
  destruct (decide (S i < length edges)%nat) as [Hlt|Hge].
  - destruct (lookup_lt_is_Some_2 edges (S i) Hlt) as [b Hb].
    apply (xltb_not_nan_r b e). by apply (Hd i).
  - destruct i as [|i]; [lia|].
    destruct (lookup_lt_is_Some_2 edges i) as [a Ha]; [lia|].
    apply (xltb_not_nan_l e a). by apply (Hd i).
Qed.

Lemma decreasing_reverse edges :
  decreasing edges -> (2 <= length edges)%nat -> nondecreasing (reverse edges).
Proof.
  intros Hd Hlen i j a b Hij Ha Hb.
  pose proof (lookup_lt_Some _ _ _ Ha) as Hi. pose proof (lookup_lt_Some _ _ _ Hb) as Hj.
  rewrite length_reverse in Hi, Hj.
  rewrite reverse_lookup in Ha, Hb by done.
  destruct (decide (i = j)) as [->|Hne].
  - rewrite Ha in Hb. injection Hb as <-. unfold xleb.
    rewrite (decreasing_not_nan edges _ a Hd Hlen Ha). apply orb_true_r.
  - apply xltb_xleb.
    apply (decreasing_lt edges (length edges - S j) (length edges - S i) b a Hd);
      [lia|done|done].
Qed.

Lemma never_increases_decreasing x edges :
  decreasing (x :: edges) -> never_increases x edges = true.
Proof.
  revert x. induction edges as [|y edges IH]; intros x Hd; simpl; [done|].
  rewrite (xltb_asym y x) by (by apply (Hd 0%nat)).
  apply IH. by eapply decreasing_tail.
Qed.

(** [np.digitize] accepts decreasing edges and searches them from the
    other end. *)
Lemma np_digitize_decreasing x edges :
  decreasing edges -> (2 <= length edges)%nat ->
  np_digitize x edges =
  OK ((fun v => (Z.of_nat (length edges)
                 - Z.of_nat (searchsorted_right (reverse edges) v))%Z) <$> x).
Proof.
  intros Hd Hlen. unfold np_digitize.
  assert (Hmono : check_array_monotonic edges = (-1)%Z).
  { destruct edges as [|x0 [|x1 rest]]; [simpl in Hlen; lia|simpl in Hlen; lia|].
    assert (H10 : xltb x1 x0 = true) by (by apply (Hd 0%nat)).
    unfold check_array_monotonic. cbn [skip_repeated].
    rewrite (xeqb_sym x1 x0), (xltb_neq x1 x0 H10).
    rewrite (xltb_asym x1 x0 H10).
    rewrite never_increases_decreasing; [done|]. by eapply decreasing_tail. }
  rewrite Hmono. cbn [Z.eqb Pos.eqb]. f_equal.
  rewrite (np_searchsorted_right_sorted (reverse edges) x (decreasing_reverse edges Hd Hlen)).
  by rewrite <- list_fmap_compose.
Qed.

Lemma digit_in_bin_decreasing edges d i :
  decreasing edges -> (S i < length edges)%nat ->
  bool_decide ((Z.of_nat (length edges)
                - Z.of_nat (searchsorted_right (reverse edges) d) - 1)%Z = Z.of_nat i)
  = in_binb_decreasing edges i d.
Proof.
  intros Hd Hi.
  assert (Hnd : nondecreasing (reverse edges)) by (apply decreasing_reverse; [done|lia]).
  pose proof (digit_in_bin (reverse edges) d (length edges - 2 - i) Hnd) as Hdig.
  rewrite length_reverse in Hdig. specialize (Hdig ltac:(lia)).
  transitivity (in_binb (reverse edges) (length edges - 2 - i) d).
  - rewrite <- Hdig. apply bool_decide_ext. lia.
  - unfold in_binb, in_binb_decreasing.
    rewrite !reverse_lookup by (rewrite ?length_reverse; lia).
    replace (length edges - S (length edges - 2 - i))%nat with (S i) by lia.
    replace (length edges - S (S (length edges - 2 - i)))%nat with i by lia.
    destruct (edges !! i), (edges !! S i); done.
Qed.

Lemma adjacent_gt_decreasing edges : adjacent_gt edges = true -> decreasing edges.
Proof.
  induction edges as [|x rest IH]; intros Hadj i a b Ha Hb; [done|].
  destruct rest as [|y rest']; [by destruct i|].
  simpl in Hadj. apply andb_true_iff in Hadj as [H1 H2].
  destruct i as [|i].
  - simpl in Ha, Hb. by injection Ha as <-; injection Hb as <-.
  - by apply (IH H2 i).
Qed.

Section Profile_decreasing.

Context `{Ext : External} `{Rnd : NumpyRandom}.

(** X18.  With strictly decreasing edges (at least two of them) the
    constructor does not fail on the edges: bin [i] holds the statistics
    and the count of exactly the galaxies whose distance [d] satisfies
    [edge_(i+1) <= d < edge_i], the later edge included and the earlier
    one excluded (or the constructor fails as the statistics of one bin
    fail). *)
Theorem X18_decreasing_edges h rows rin rout bins space bf bn s edges :
  shear.make_bins rin rout bins space = OK edges ->
  decreasing edges -> (2 <= length edges)%nat ->
  let nbin := (length edges - 1)%nat in
  let members i :=
    List.filter (fun gal => in_binb_decreasing edges i (gal_dist_hMpc h gal)) rows in
  match fst (shear.Profile_init (shear.Table rows) rin rout bins space h bf bn s) with
  | OK p =>
      forall i, (i < nbin)%nat ->
        exists r, bin_stats h bf bn (members i) default_row = OK r /\ profile_row p i r /\
          shear.N p !! i = Some (Z.of_nat (length (members i)))
  | Err e =>
      exists i, (i < nbin)%nat /\ bin_stats h bf bn (members i) default_row = Err e
  end.
Proof.
  intros Hbins Hd Hlen nbin members.
  pose proof (np_digitize_decreasing (gal_dist_hMpc h <$> rows) edges Hd Hlen) as Hdig.
  pose proof (Profile_init_bins h rows rin rout bins space bf bn s edges _
                Hbins Hdig ltac:(lia)) as [_ Hres].
  cbv zeta in Hres. fold nbin in Hres.
  assert (HG : forall i, (i < nbin)%nat ->
            bin_galaxies rows
              ((fun d => (d - 1)%Z)
                 <$> ((fun v => (Z.of_nat (length edges)
                                 - Z.of_nat (searchsorted_right (reverse edges) v))%Z)
                        <$> (gal_dist_hMpc h <$> rows))) i = members i).
  { intros i Hi. unfold bin_galaxies, members. rewrite <- !list_fmap_compose.
    rewrite <- mask_select_filter. f_equal. apply list_fmap_ext.
    intros _ gal _. simpl. apply digit_in_bin_decreasing; [done|]. subst nbin. lia. }
  destruct (fst (shear.Profile_init _ _ _ _ _ _ _ _ _)) as [p|e].
  - destruct Hres as (_ & _ & _ & _ & _ & _ & _ & Hrows).
    intros i Hi. destruct (Hrows i Hi) as (r & Hst & Hr).
    rewrite (HG i Hi) in Hst. exists r. split; [done|]. split; [done|].
    destruct Hr as (_ & _ & _ & _ & _ & HN). rewrite HN.
    by rewrite (bin_stats_N _ _ _ _ _ _ Hst).
  - destruct Hres as (i & Hi & Hst). exists i. split; [done|].
    by rewrite (HG i Hi) in Hst.
Qed.

End Profile_decreasing.

(** ** The smoothed map *)

Lemma unit_times_real (b : xnum) :
  cmul (mkC xzero xone) (of_real b)
  = mkC (match b with Fin _ => Fin 0 | _ => NaN end) b.
Proof.
  unfold cmul, of_real, xzero, xone, xsub. cbn [re im].
  destruct b as [q| | |]; cbn [xmul xneg xadd]; try reflexivity.
  f_equal; f_equal; ring.
Qed.

Lemma xadd_zero_r (x : xnum) : xadd x (Fin 0) = x.
Proof. destruct x as [q| | |]; cbn [xadd]; try reflexivity. f_equal. ring. Qed.

Lemma xadd_NaN_r (x : xnum) : xadd x NaN = NaN.
Proof. by destruct x. Qed.

Section KappaMap_filter.

Variable ndimage_zoom : matrix xnum -> xnum -> result (matrix xnum).
Variable ndimage_gaussian_filter : matrix xnum -> xnum -> xnum -> result (matrix xnum).

(** X19.  When the two routines of [scipy.ndimage] return arrays [fE] and [fB]
    of [n] by [n] entries for the real and the imaginary part of the map,
    [gaussian_filter] returns an [n] by [n] complex array whose imaginary
    part is [fB]; its real part is [fE] wherever [fB] is finite, and NaN
    wherever [fB] is infinite or NaN (the product [1j * kB] has the real
    part [0 * kB]). *)
Theorem X19_gaussian_filter_parts self sigma_hkpc truncate resize zE zB fE fB n :
  ndimage_zoom (kappa.kE self) resize = OK zE ->
  ndimage_zoom (kappa.kB self) resize = OK zB ->
  ndimage_gaussian_filter zE (filter_sigma self sigma_hkpc resize) truncate = OK fE ->
  ndimage_gaussian_filter zB (filter_sigma self sigma_hkpc resize) truncate = OK fB ->
  (0 < n)%nat -> is_shape n n fE -> is_shape n n fB ->
  exists S,
    gaussian_filter ndimage_zoom ndimage_gaussian_filter self sigma_hkpc truncate resize
      = OK S /\
    is_shape n n S /\
    forall i j, (i < n)%nat -> (j < n)%nat ->
      im (mnth czero S i j) = mnth xzero fB i j /\
      re (mnth czero S i j) =
        match mnth xzero fB i j with
        | Fin _ => mnth xzero fE i j
        | _ => NaN
        end.
Proof.
  intros HzE HzB HfE HfB Hn HsE HsB.
  unfold gaussian_filter. fold (filter_sigma self sigma_hkpc resize).
  rewrite HzE. cbn [mbind result_bind]. rewrite HzB. cbn [mbind result_bind].
  rewrite HfE. cbn [mbind result_bind]. rewrite HfB. cbn [mbind result_bind].
  rewrite (ew2_same_shape _ _ _ n fE _ Hn HsE (mmap_shape _ _ _ _ HsB)).
  eexists. split; [reflexivity|]. split; [apply mtabulate_shape|].
  intros i j Hi Hj. rewrite mnth_mtabulate by done.
  rewrite (mnth_mmap _ xzero czero n n fB i j HsB Hi Hj), unit_times_real.
  unfold cadd, of_real. cbn [re im]. split; [apply xadd_zero_l|].
  destruct (mnth xzero fB i j); [apply xadd_zero_r | | |]; apply xadd_NaN_r.
Qed.

End KappaMap_filter.

(** ** The fit of the isothermal sphere *)

Lemma ew1_same_length {A B C} (dA : A) (dB : B) (f : A -> B -> C) n a b :
  length a = n -> length b = n ->
  densmodel_test.ew1 dA dB f a b = OK (tabulate n (fun i => f (nth i a dA) (nth i b dB))).
Proof.
  intros Ha Hb. unfold densmodel_test.ew1, bcast_dim. rewrite Ha, Hb, Nat.eqb_refl.
  f_equal. apply tabulate_ext. intros i Hi. unfold bidx.
  destruct (n =? 1)%nat eqn:E; [|done].
  apply Nat.eqb_eq in E. by replace i with 0%nat by lia.
Qed.

Lemma tabulate_length {A} n (f : nat -> A) : length (tabulate n f) = n.
Proof. unfold tabulate. by rewrite length_fmap, length_seq. Qed.

Lemma xdiv_zero_nonfinite (x : xnum) : nonfinite (xdiv x (Fin 0)).
Proof.
  destruct x as [q| | |]; try done.
  unfold xdiv. assert (H0 : qsign 0 = Eq) by reflexivity. rewrite H0.
  by destruct (qsign q).
Qed.

(** X20.  When the number of data points is [gl + 1], the reduced chi-square
    is a division by zero: [chi_red] raises nothing and returns an
    infinity or NaN.  [SIS_stack_fit] calls it with [gl = 1], so that a
    profile of two points has no finite reduced chi-square. *)
Theorem X20_chi_red_no_degrees_of_freedom ajuste data err gl :
  length ajuste = length data -> length err = length data ->
  (Z.of_nat (length data) - 1 - gl = 0)%Z ->
  exists chi, densmodel_test.chi_red ajuste data err gl = OK chi /\ nonfinite chi.
Proof.
  intros Ha He Hdof. unfold densmodel_test.chi_red.
  rewrite (ew1_same_length _ _ _ (length data) ajuste data Ha eq_refl).
  cbn [mbind result_bind].
  rewrite (ew1_same_length _ _ _ (length data)); cycle 1.
  { by rewrite length_fmap, tabulate_length. }
  { by rewrite length_fmap. }
  cbn [mbind result_bind]. eexists. split; [reflexivity|].
  rewrite Hdof. change (xofZ 0) with (Fin (qz 0)). rewrite qz_0.
  apply xdiv_zero_nonfinite.
Qed.

Lemma nth_fmap_lt {A B} (f : A -> B) (l : list A) i dA dB :
  (i < length l)%nat -> nth i (f <$> l) dB = f (nth i l dA).
Proof.
  intros Hi. destruct (lookup_lt_is_Some_2 l i Hi) as [x Hx].
  rewrite (nth_lookup_Some _ _ dA _ Hx).
  apply nth_lookup_Some. by rewrite list_lookup_fmap, Hx.
Qed.

(** X21.  A fit that goes through every data point has the reduced chi-square
    0, for finite data, errors whose computed squares are finite and
    non-zero, and a number of data points other than [gl + 1]. *)
Theorem X21_chi_red_perfect_fit data err gl :
  length err = length data ->
  Forall finite data -> Forall (fun e => finite_nonzero (xsq e)) err ->
  (Z.of_nat (length data) - 1 - gl <> 0)%Z ->
  densmodel_test.chi_red data data err gl = OK (Fin 0).
Proof.
  intros He Hdata Herr Hdof. unfold densmodel_test.chi_red.
  rewrite (ew1_same_length _ _ _ (length data) data data eq_refl eq_refl).
  cbn [mbind result_bind].
  rewrite (ew1_same_length _ _ _ (length data)); cycle 1.
  { by rewrite length_fmap, tabulate_length. }
  { by rewrite length_fmap. }
  cbn [mbind result_bind]. f_equal.
  rewrite xsum_zeros.
  - unfold xofZ. rewrite xdiv_Fin by (by apply qz_nonzero). f_equal. unfold Qcdiv. ring.
  - apply Forall_lookup. intros i t Hi.
    pose proof (lookup_lt_Some _ _ _ Hi) as Hlt. rewrite tabulate_length in Hlt.
    unfold tabulate in Hi. rewrite list_lookup_fmap, lookup_seq_lt in Hi by done.
    cbn [fmap option_fmap option_map Nat.add] in Hi. injection Hi as <-.
    rewrite (nth_fmap_lt xsq err i xzero xzero) by lia.
    rewrite (nth_fmap_lt xsq _ i xzero xzero) by (by rewrite length_fmap, length_seq).
    rewrite (nth_fmap_lt _ (seq 0 (length data)) i 0%nat xzero) by (by rewrite length_seq).
    rewrite seq_nth by done. cbn [Nat.add].
    destruct (lookup_lt_is_Some_2 data i Hlt) as [d Hd].
    destruct (lookup_lt_is_Some_2 err i ltac:(lia)) as [e Hee].
    rewrite (nth_lookup_Some _ _ xzero _ Hd), (nth_lookup_Some _ _ xzero _ Hee).
    pose proof (Forall_lookup_1 _ _ _ _ Hdata Hd) as Hfd.
    pose proof (Forall_lookup_1 _ _ _ _ Herr Hee) as Hfe.
    destruct d as [q| | |]; try done. cbn beta in Hfe.
    destruct (xsq e) as [r| | |]; try done.
    simpl in Hfe. unfold xsq, xsub. cbn [xneg xadd xmul].
    rewrite xdiv_Fin by done. f_equal. unfold Qcdiv. ring.
Qed.

Lemma qsign_opp (p : Qc) : qsign (- p) = CompOpp (qsign p).
Proof.
  destruct (qsign p) eqn:E; cbn [CompOpp].
  - apply qsign_Eq in E. subst. reflexivity.
  - apply qsign_Lt in E. apply qsign_Gt.
    apply Qclt_minus_iff in E. by rewrite Qcplus_0_l in E.
  - apply qsign_Gt in E. apply qsign_Lt.
    apply Qclt_minus_iff. by rewrite Qcplus_0_l, Qcopp_involutive.
Qed.

Lemma xsq_xneg (x k : xnum) : xsq (xmul (xneg x) k) = xsq (xmul x k).
Proof.
  unfold xsq. destruct x as [p| | |], k as [q| | |]; cbn [xneg xmul xsign]; try reflexivity.
  - f_equal. ring.
  - rewrite qsign_opp. by destruct (qsign p).
  - rewrite qsign_opp. by destruct (qsign p).
  - by destruct (qsign q).
  - by destruct (qsign q).
Qed.

(** X22.  The profile of the isothermal sphere is even in the velocity
    dispersion (the fit cannot tell [sigma] from [-sigma]), and at the
    radius 0 nothing is raised and the value is never finite: it is an
    infinity or NaN, whatever [sigma]. *)
Theorem X22_sis_profile_sigma R :
  (forall sigma,
     densmodel_test.sis_profile_sigma R (xneg sigma)
     = densmodel_test.sis_profile_sigma R sigma) /\
  (forall sigma i, R !! i = Some (Fin 0) ->
     exists v, densmodel_test.sis_profile_sigma R sigma !! i = Some v /\ nonfinite v).
Proof.
  split.
  - intros sigma. unfold densmodel_test.sis_profile_sigma.
    apply list_fmap_ext. intros _ rm _. simpl. by rewrite xsq_xneg.
  - intros sigma i Hi. unfold densmodel_test.sis_profile_sigma.
    rewrite !list_lookup_fmap, Hi. cbn [fmap option_fmap option_map].
    eexists. split; [reflexivity|].
    unfold densmodel_test.G, densmodel_test.pc, densmodel_test.Msun, xofZ. cbn [xmul].
    assert (Hden : qz 2 * qfrac 667 10000000000000
                   * (0 * qz 1000000 * qz 30856780000000000) = 0) by ring.
    rewrite Hden.
    pose proof (xdiv_zero_nonfinite (xsq (xmul sigma (Fin (qz 1000))))) as Hq.
    destruct (xdiv (xsq (xmul sigma (Fin (qz 1000)))) (Fin 0)) as [q| | |]; try done.
Qed.

(** ** The further statements on concrete inputs *)

Lemma xnum_same_eq x y : xnum_same x y = true -> x = y.
Proof.
  destruct x as [a| | |], y as [b| | |]; try done. simpl. intros H.
  f_equal. apply Qc_is_canon. by apply Qeq_bool_iff.
Qed.

Lemma cplx_same_eq a b : cplx_same a b = true -> a = b.
Proof.
  destruct a as [ar ai], b as [br bi]. unfold cplx_same; cbn [re im].
  intros [H1 H2]%andb_true_iff. f_equal; by apply xnum_same_eq.
Qed.

Lemma list_same_eq {A} (same : A -> A -> bool) (l k : list A) :
  (forall x y, same x y = true -> x = y) -> list_same same l k = true -> l = k.
Proof.
  intros Hsame. revert k. induction l as [|x l IH]; intros [|y k]; try done.
  simpl. intros [H1 H2]%andb_true_iff. f_equal; [by apply Hsame | by apply IH].
Qed.

Lemma cmatrix_same_eq (M K : matrix cplx) : cmatrix_same M K = true -> M = K.
Proof.
  apply list_same_eq. intros x y. apply list_same_eq. apply cplx_same_eq.
Qed.

(** The bin centers of the profile of the three-galaxy table. *)
Lemma X1_bin_centers_witness :
  exists p,
    fst (shear.Profile_init (Ext := Examples.ex_external) (Rnd := Examples.ex_random)
           (shear.Table Examples.ex_rows) (Fin 1) (Fin 1)
           (shear.BinsArray Examples.ex_edges) "log" Examples.ex_h true 3 0%nat) = OK p /\
    (forall i lo hi, shear.bins p !! i = Some lo -> shear.bins p !! S i = Some hi ->
       shear.r_hMpc p !! i = Some (xmul (Fin (qfrac 1 2)) (xadd lo hi))) /\
    (forall i a b c, shear.bins p !! i = Some (Fin a) -> shear.bins p !! S i = Some (Fin b) ->
       a <= b -> shear.r_hMpc p !! i = Some (Fin c) -> a <= c /\ c <= b).
Proof.
  assert (Hrun : exists p, fst (shear.Profile_init (Ext := Examples.ex_external) (Rnd := Examples.ex_random)
           (shear.Table Examples.ex_rows) (Fin 1) (Fin 1)
           (shear.BinsArray Examples.ex_edges) "log" Examples.ex_h true 3 0%nat) = OK p)
    by (eexists; vm_compute; reflexivity).
  destruct Hrun as [p Hp]. exists p. split; [exact Hp|].
  exact (X1_bin_centers (Ext := Examples.ex_external) (Rnd := Examples.ex_random)
           (shear.Table Examples.ex_rows) (Fin 1) (Fin 1) (shear.BinsArray Examples.ex_edges)
           "log" Examples.ex_h true 3 0%nat p Hp).
Defined.

(** The lengths of the arrays of the profile of the three-galaxy table. *)
Lemma X2_aligned_arrays_witness :
  exists p,
    fst (shear.Profile_init (Ext := Examples.ex_external) (Rnd := Examples.ex_random)
           (shear.Table Examples.ex_rows) (Fin 1) (Fin 1)
           (shear.BinsArray Examples.ex_edges) "log" Examples.ex_h true 3 0%nat) = OK p /\
    length (shear.r_hMpc p) = (length (shear.bins p) - 1)%nat /\
    length (shear.N p) = (length (shear.bins p) - 1)%nat /\
    length (shear.sigma_critic p) = 3%nat.
Proof.
  assert (Hrun : exists p, fst (shear.Profile_init (Ext := Examples.ex_external) (Rnd := Examples.ex_random)
           (shear.Table Examples.ex_rows) (Fin 1) (Fin 1)
           (shear.BinsArray Examples.ex_edges) "log" Examples.ex_h true 3 0%nat) = OK p)
    by (eexists; vm_compute; reflexivity).
  destruct Hrun as [p Hp]. exists p. split; [exact Hp|].
  destruct (X2_aligned_arrays (Ext := Examples.ex_external) (Rnd := Examples.ex_random)
              (shear.Table Examples.ex_rows) (Fin 1) (Fin 1)
              (shear.BinsArray Examples.ex_edges) "log" Examples.ex_h true 3 0%nat p Hp)
    as (_ & Hr & _ & _ & _ & _ & _ & HN & _ & _ & Hs).
  split; [exact Hr|]. split; [exact HN|]. exact Hs.
Defined.

(** The profile of the three-galaxy table without bootstrap. *)
Lemma X3_no_bootstrap_no_errors_witness :
  exists p,
    fst (shear.Profile_init (Ext := Examples.ex_external) (Rnd := Examples.ex_random)
           (shear.Table Examples.ex_rows) (Fin 1) (Fin 1)
           (shear.BinsArray Examples.ex_edges) "log" Examples.ex_h false 3 0%nat) = OK p /\
    Forall (fun x => x = Fin 0) (shear.shear_error p) /\
    Forall (fun x => x = Fin 0) (shear.cero_error p).
Proof.
  assert (Hrun : exists p, fst (shear.Profile_init (Ext := Examples.ex_external) (Rnd := Examples.ex_random)
           (shear.Table Examples.ex_rows) (Fin 1) (Fin 1)
           (shear.BinsArray Examples.ex_edges) "log" Examples.ex_h false 3 0%nat) = OK p)
    by (eexists; vm_compute; reflexivity).
  destruct Hrun as [p Hp]. exists p. split; [exact Hp|].
  exact (X3_no_bootstrap_no_errors (Ext := Examples.ex_external) (Rnd := Examples.ex_random)
           (shear.Table Examples.ex_rows) (Fin 1) (Fin 1) (shear.BinsArray Examples.ex_edges)
           "log" Examples.ex_h 3 0%nat p Hp).
Defined.

(** The counts of the table of a galaxy inside and a galaxy outside the
    range of the edges. *)
Lemma X5_counts_add_up_witness :
  exists p,
    fst (shear.Profile_init (Ext := Examples.ex_external) (Rnd := Examples.ex_random)
           (shear.Table [MoreExamples.ex_row; MoreExamples.ex_row_at_lens]) (Fin 1) (Fin 1)
           (shear.BinsArray Examples.ex_edges) "log" Examples.ex_h true 3 0%nat)
      = OK p /\
    Zsum (shear.N p)
      = Z.of_nat (length (List.filter
          (fun gal => in_rangeb Examples.ex_edges
                        (gal_dist_hMpc (Ext := Examples.ex_external) Examples.ex_h gal))
          [MoreExamples.ex_row; MoreExamples.ex_row_at_lens])) /\
    (Zsum (shear.N p) <= 2)%Z.
Proof.
  assert (Hrun : exists p,
    fst (shear.Profile_init (Ext := Examples.ex_external) (Rnd := Examples.ex_random)
           (shear.Table [MoreExamples.ex_row; MoreExamples.ex_row_at_lens]) (Fin 1) (Fin 1)
           (shear.BinsArray Examples.ex_edges) "log" Examples.ex_h true 3 0%nat)
      = OK p) by (eexists; vm_compute; reflexivity).
  destruct Hrun as [p Hp]. exists p. split; [exact Hp|].
  assert (Hnd : nondecreasing Examples.ex_edges)
    by (apply adjacent_le_nondecreasing; vm_compute; reflexivity).
  exact (X5_counts_add_up (Ext := Examples.ex_external) (Rnd := Examples.ex_random)
           Examples.ex_h [MoreExamples.ex_row; MoreExamples.ex_row_at_lens] (Fin 1) (Fin 1)
           (shear.BinsArray Examples.ex_edges) "log" true 3 0%nat Examples.ex_edges p
           eq_refl Hnd Hp).
Defined.

(** The table of one galaxy of weight 0. *)
Lemma X6_zero_weights_ZeroDivisionError_witness :
  fst (shear.Profile_init (Ext := Examples.ex_external) (Rnd := Examples.ex_random)
           (shear.Table [MoreExamples.ex_row_zero_weight]) (Fin 1) (Fin 1)
           (shear.BinsArray Examples.ex_edges) "log" Examples.ex_h true 3 0%nat)
  = Err ZeroDivisionError.
Proof.
  apply (X6_zero_weights_ZeroDivisionError (Ext := Examples.ex_external)
           (Rnd := Examples.ex_random) Examples.ex_h [MoreExamples.ex_row_zero_weight]
           (Fin 1) (Fin 1) (shear.BinsArray Examples.ex_edges) "log" true 3 0%nat
           Examples.ex_edges [1%Z]).
  - reflexivity.
  - vm_compute. reflexivity.
  - simpl. lia.
  - repeat constructor. apply xnum_same_eq. vm_compute. reflexivity.
  - exists 0%nat. split; [simpl; lia|]. vm_compute. discriminate.
Defined.

(** The three-galaxy table with no resampling. *)
Lemma X7_no_resample_ValueError_witness :
  fst (shear.Profile_init (Ext := Examples.ex_external) (Rnd := Examples.ex_random)
           (shear.Table Examples.ex_rows) (Fin 1) (Fin 1)
           (shear.BinsArray Examples.ex_edges) "log" Examples.ex_h true 0 0%nat) = Err ValueError.
Proof.
  apply (X7_no_resample_ValueError (Ext := Examples.ex_external)
           (Rnd := Examples.ex_random) Examples.ex_h Examples.ex_rows
           (Fin 1) (Fin 1) (shear.BinsArray Examples.ex_edges) "log" 0%nat
           Examples.ex_edges [1%Z; 1%Z; 1%Z]).
  - reflexivity.
  - vm_compute. reflexivity.
  - simpl. lia.
  - repeat constructor;
      (eexists; split; [vm_compute; reflexivity | vm_compute; reflexivity]).
  - exists 0%nat. split; [simpl; lia|]. vm_compute. discriminate.
Defined.

(** The table of one galaxy. *)
Lemma X8_single_galaxy_bin_witness :
  exists p,
    fst (shear.Profile_init (Ext := Examples.ex_external) (Rnd := Examples.ex_random)
           (shear.Table [MoreExamples.ex_row]) (Fin 1) (Fin 1)
           (shear.BinsArray Examples.ex_edges) "log" Examples.ex_h true 3 0%nat) = OK p /\
    shear.shear p !! 0%nat
      = Some (xdiv (xdiv (xmul (xmul (gal_et (Ext := Examples.ex_external) Examples.ex_h
                                        MoreExamples.ex_row)
                                     (gal_sigma_critic MoreExamples.ex_row))
                               (gal_weight MoreExamples.ex_row))
                         (gal_weight MoreExamples.ex_row))
                   (xadd (Fin 1)
                      (xdiv (xmul (shear.m MoreExamples.ex_row)
                               (gal_weight MoreExamples.ex_row))
                         (gal_weight MoreExamples.ex_row)))) /\
    shear.N p !! 0%nat = Some 1%Z.
Proof.
  assert (Hrun : exists p,
    fst (shear.Profile_init (Ext := Examples.ex_external) (Rnd := Examples.ex_random)
           (shear.Table [MoreExamples.ex_row]) (Fin 1) (Fin 1)
           (shear.BinsArray Examples.ex_edges) "log" Examples.ex_h true 3 0%nat) = OK p)
    by (eexists; vm_compute; reflexivity).
  destruct Hrun as [p Hp]. exists p. split; [exact Hp|].
  destruct (X8_single_galaxy_bin (Ext := Examples.ex_external) (Rnd := Examples.ex_random)
              Examples.ex_h [MoreExamples.ex_row] (Fin 1) (Fin 1)
              (shear.BinsArray Examples.ex_edges) "log" true 3 0%nat Examples.ex_edges
              [1%Z] p 0%nat MoreExamples.ex_row)
    as (Hs & _ & HN).
  - reflexivity.
  - vm_compute. reflexivity.
  - exact Hp.
  - simpl. lia.
  - reflexivity.
  - split; [exact Hs|exact HN].
Defined.

(** The table of a galaxy inside and a galaxy outside the range of the
    edges, and the table of the first galaxy alone. *)
Lemma X9_outside_galaxy_ignored_witness :
  exists p p',
    fst (shear.Profile_init (Ext := Examples.ex_external) (Rnd := Examples.ex_random)
           (shear.Table [MoreExamples.ex_row; MoreExamples.ex_row_at_lens]) (Fin 1) (Fin 1)
           (shear.BinsArray Examples.ex_edges) "log" Examples.ex_h true 3 0%nat)
      = OK p /\
    fst (shear.Profile_init (Ext := Examples.ex_external) (Rnd := Examples.ex_random)
           (shear.Table [MoreExamples.ex_row]) (Fin 1) (Fin 1)
           (shear.BinsArray Examples.ex_edges) "log" Examples.ex_h true 3 0%nat) = OK p' /\
    shear.shear p' = shear.shear p /\ shear.shear_error p' = shear.shear_error p /\
    shear.N p' = shear.N p.
Proof.
  assert (Hrun : exists p,
    fst (shear.Profile_init (Ext := Examples.ex_external) (Rnd := Examples.ex_random)
           (shear.Table [MoreExamples.ex_row; MoreExamples.ex_row_at_lens]) (Fin 1) (Fin 1)
           (shear.BinsArray Examples.ex_edges) "log" Examples.ex_h true 3 0%nat)
      = OK p) by (eexists; vm_compute; reflexivity).
  destruct Hrun as [p Hp]. exists p.
  assert (Hnd : nondecreasing Examples.ex_edges)
    by (apply adjacent_le_nondecreasing; vm_compute; reflexivity).
  destruct (X9_outside_galaxy_ignored (Ext := Examples.ex_external)
              (Rnd := Examples.ex_random) Examples.ex_h [MoreExamples.ex_row]
              MoreExamples.ex_row_at_lens [] (Fin 1) (Fin 1)
              (shear.BinsArray Examples.ex_edges) "log" true 3 0%nat Examples.ex_edges p
              eq_refl Hnd ltac:(vm_compute; reflexivity) Hp)
    as (p' & Hp' & _ & _ & Hs & _ & He & _ & _ & HN).
  exists p'. split; [exact Hp|]. split; [exact Hp'|]. split; [exact Hs|].
  split; [exact He|]. exact HN.
Defined.


(** The table of one galaxy whose source distance is 0. *)
Lemma X11_zero_source_distance_witness :
  exists p,
    fst (shear.Profile_init (Ext := Examples.ex_external) (Rnd := Examples.ex_random)
           (shear.Table [MoreExamples.ex_row_zero_DS]) (Fin 1) (Fin 1)
           (shear.BinsArray Examples.ex_edges) "log" Examples.ex_h true 3 0%nat) = OK p /\
    (shear.beta p !! 0%nat = Some PInf \/ shear.beta p !! 0%nat = Some NInf) /\
    shear.sigma_critic p !! 0%nat = Some (Fin 0) /\
    xdiv (shear.weight MoreExamples.ex_row_zero_DS)
      (xsq (gal_sigma_critic MoreExamples.ex_row_zero_DS)) = PInf.
Proof.
  assert (Hrun : exists p,
    fst (shear.Profile_init (Ext := Examples.ex_external) (Rnd := Examples.ex_random)
           (shear.Table [MoreExamples.ex_row_zero_DS]) (Fin 1) (Fin 1)
           (shear.BinsArray Examples.ex_edges) "log" Examples.ex_h true 3 0%nat) = OK p)
    by (eexists; vm_compute; reflexivity).
  destruct Hrun as [p Hp]. exists p. split; [exact Hp|].
  assert (HA : exists A,
    xdiv (xsq shear.cvel)
         (xmul (xmul (xmul (xofZ 4) (Fin np_pi)) shear.G)
               (xmul (xmul (shear.DL MoreExamples.ex_row_zero_DS) (xofZ 1000000)) shear.pc))
    = Fin A) by (eexists; vm_compute; reflexivity).
  destruct HA as [A HA].
  destruct (X11_zero_source_distance (Ext := Examples.ex_external)
              (Rnd := Examples.ex_random) (shear.Table [MoreExamples.ex_row_zero_DS])
              (Fin 1) (Fin 1) (shear.BinsArray Examples.ex_edges) "log" Examples.ex_h
              true 3 0%nat p 0%nat MoreExamples.ex_row_zero_DS (qz 500) A Hp)
    as (Hb & Hs & Hw);
    [reflexivity | reflexivity | reflexivity | qc_nonzero | exact HA |].
  split; [exact Hb|]. split; [exact Hs|]. exact (Hw 1 eq_refl).
Defined.

(** The reconstruction on a grid of a single point. *)
Lemma X13_KappaMap_single_row_witness :
  kappa.KappaMap_init MoreExamples.ex_ShearMap_init_1 Examples.ex_fft2 Examples.ex_ifft2
    (Some tt) (Some 1%nat) (Fin 1) None tt = Err IndexError.
Proof.
  apply (X13_KappaMap_single_row MoreExamples.ex_ShearMap_init_1 Examples.ex_fft2
           Examples.ex_ifft2 tt 1%nat (Fin 1) None tt).
  simpl. lia.
Defined.

(** The kernel of three by three frequencies for the spacing one half. *)
Lemma X14_kernel_axes_and_diagonal_witness :
  exists K a r c r',
    kappa._conjugate_inversion_kernel (Fin (qfrac 1 2), Fin (qfrac 1 2)) 3 = OK K /\
    mget K 1 0 = OK (mkC (Fin (a * r)) (Fin 0)) /\
    mget K 0 1 = OK (mkC (Fin (- a * r)) (Fin 0)) /\
    mget K 1 1 = OK (mkC (Fin 0) (Fin (- c * r'))).
Proof.
  assert (HK : exists K,
    kappa._conjugate_inversion_kernel (Fin (qfrac 1 2), Fin (qfrac 1 2)) 3 = OK K)
    by (eexists; vm_compute; reflexivity).
  destruct HK as [K HK].
  assert (Hk : exists kx, kappa.fftfreq 3 (Fin (qfrac 1 2)) !! 1%nat = Some (Fin kx))
    by (eexists; vm_compute; reflexivity).
  destruct Hk as [kx Hk].
  assert (H0 : kappa.fftfreq 3 (Fin (qfrac 1 2)) !! 0%nat = Some (Fin 0))
    by (apply (f_equal Some), xnum_same_eq; vm_compute; reflexivity).
  assert (Hnz : kx * kx <> 0).
  { assert (E : kappa.fftfreq 3 (Fin (qfrac 1 2)) !! 1%nat = Some (Fin (qfrac 2 3)))
      by (apply (f_equal Some), xnum_same_eq; vm_compute; reflexivity).
    rewrite E in Hk. injection Hk as <-. qc_nonzero. }
  assert (Hnz2 : kx * kx + kx * kx <> 0).
  { assert (E : kappa.fftfreq 3 (Fin (qfrac 1 2)) !! 1%nat = Some (Fin (qfrac 2 3)))
      by (apply (f_equal Some), xnum_same_eq; vm_compute; reflexivity).
    rewrite E in Hk. injection Hk as <-. qc_nonzero. }
  destruct (X14_kernel_axes_and_diagonal 3 (Fin (qfrac 1 2)) (Fin (qfrac 1 2)) K HK)
    as (Hx & Hy & Hd).
  exists K, (kx * kx), (1 / (kx * kx)), (qz 2 * kx * kx), (1 / (kx * kx + kx * kx)).
  split; [exact HK|]. split; [|split].
  - apply (Hx 1%nat (Fin kx) (kx * kx) (1 / (kx * kx))); [lia | exact Hk | exact H0 | reflexivity |].
    by apply xdiv_Fin.
  - apply (Hy 1%nat (Fin kx) (kx * kx) (1 / (kx * kx))); [lia | exact H0 | exact Hk | reflexivity |].
    by apply xdiv_Fin.
  - apply (Hd eq_refl 1%nat (Fin kx) (kx * kx) (qz 2 * kx * kx)
             (1 / (kx * kx + kx * kx))); [lia | exact Hk | reflexivity | reflexivity |].
    cbn [xadd]. by apply xdiv_Fin.
Defined.

(** The kernel of two by two frequencies for the spacing 0. *)
Lemma X15_kernel_zero_spacing_witness :
  exists K,
    kappa._conjugate_inversion_kernel (Fin 0, Fin 0) 2 = OK K /\
    mget K 0 0 = OK (mkC (Fin 0) (Fin 0)) /\
    mget K 1 1 = OK (mkC NaN NaN).
Proof.
  destruct (X15_kernel_zero_spacing 2 ltac:(lia)) as (K & HK & H0 & Hrest).
  exists K. split; [exact HK|]. split; [exact H0|].
  apply Hrest; [lia | lia | discriminate].
Defined.

(** The kernel of three by three frequencies is even. *)
Lemma X16_kernel_even_witness :
  exists K,
    kappa._conjugate_inversion_kernel (Fin (qfrac 1 2), Fin 1) 3 = OK K /\
    mget K 2 1 = mget K 1 2.
Proof.
  assert (HK : exists K,
    kappa._conjugate_inversion_kernel (Fin (qfrac 1 2), Fin 1) 3 = OK K)
    by (eexists; vm_compute; reflexivity).
  destruct HK as [K HK]. exists K. split; [exact HK|].
  exact (X16_kernel_even 3 (qfrac 1 2) 1 K eq_refl ltac:(qc_nonzero) ltac:(qc_nonzero) HK
           1%nat 2%nat ltac:(lia) ltac:(lia)).
Defined.

(** The reconstruction of the map without shear. *)
Lemma X17_zero_shear_zero_convergence_witness :
  exists km,
    kappa.KappaMap_init MoreExamples.ex_ShearMap_init_0 Examples.ex_fft2 Examples.ex_ifft2
      (Some tt) (Some 2%nat) (Fin 1) None tt = OK km /\
    kappa.kappa km = czeros 2.
Proof.
  apply (X17_zero_shear_zero_convergence MoreExamples.ex_ShearMap_init_0 Examples.ex_fft2
           Examples.ex_ifft2 tt 2%nat (Fin 1) None tt (Fin (qfrac 1 2)) (Fin 0)
           MoreExamples.ex_kernel).
  - apply cmatrix_same_eq. vm_compute. reflexivity.
  - apply cmatrix_same_eq. vm_compute. reflexivity.
  - lia.
  - reflexivity.
  - reflexivity.
  - reflexivity.
  - reflexivity.
  - apply (f_equal OK), cmatrix_same_eq. vm_compute. reflexivity.
  - intros i j Hi Hj.
    destruct i as [|[|i]], j as [|[|j]]; try lia; do 2 eexists; vm_compute; reflexivity.
Defined.

(** The three-galaxy table over decreasing edges: all three galaxies fall
    in the second bin. *)
Lemma X18_decreasing_edges_witness :
  decreasing MoreExamples.ex_edges_decreasing /\
  exists p,
    fst (shear.Profile_init (Ext := Examples.ex_external) (Rnd := Examples.ex_random)
           (shear.Table Examples.ex_rows) (Fin 1) (Fin 1)
           (shear.BinsArray MoreExamples.ex_edges_decreasing) "log" Examples.ex_h
           true 3 0%nat) = OK p /\
    shear.N p = [0%Z; 3%Z] /\
    forall i, (i < 2)%nat ->
      shear.N p !! i =
        Some (Z.of_nat (length (List.filter
                (fun gal => in_binb_decreasing MoreExamples.ex_edges_decreasing i
                              (gal_dist_hMpc (Ext := Examples.ex_external)
                                 Examples.ex_h gal)) Examples.ex_rows))).
Proof.
  assert (Hd : decreasing MoreExamples.ex_edges_decreasing)
    by (apply adjacent_gt_decreasing; vm_compute; reflexivity).
  split; [exact Hd|].
  assert (Hrun : exists p,
    fst (shear.Profile_init (Ext := Examples.ex_external) (Rnd := Examples.ex_random)
           (shear.Table Examples.ex_rows) (Fin 1) (Fin 1)
           (shear.BinsArray MoreExamples.ex_edges_decreasing) "log" Examples.ex_h
           true 3 0%nat) = OK p /\ shear.N p = [0%Z; 3%Z])
    by (eexists; split; vm_compute; reflexivity).
  destruct Hrun as (p & Hp & HN). exists p. split; [exact Hp|]. split; [exact HN|].
  pose proof (X18_decreasing_edges (Ext := Examples.ex_external) (Rnd := Examples.ex_random)
                Examples.ex_h Examples.ex_rows (Fin 1) (Fin 1)
                (shear.BinsArray MoreExamples.ex_edges_decreasing) "log" true 3 0%nat
                MoreExamples.ex_edges_decreasing eq_refl Hd ltac:(simpl; lia)) as Hres.
  cbv zeta in Hres. rewrite Hp in Hres.
  intros i Hi. destruct (Hres i Hi) as (r & _ & _ & Hcount). exact Hcount.
Defined.

(** The smoothed map of a map with one infinite B-mode value. *)
Lemma X19_gaussian_filter_parts_witness :
  exists S,
    gaussian_filter MoreExamples.ex_zoom MoreExamples.ex_gaussian_filter
      MoreExamples.ex_KappaMap (Fin (qz 10)) (Fin (qz 5)) (Fin 1) = OK S /\
    re (mnth czero S 0 0) = Fin 1 /\ im (mnth czero S 0 1) = PInf /\
    re (mnth czero S 0 1) = NaN.
Proof.
  destruct (X19_gaussian_filter_parts MoreExamples.ex_zoom MoreExamples.ex_gaussian_filter
              MoreExamples.ex_KappaMap (Fin (qz 10)) (Fin (qz 5)) (Fin 1)
              (kappa.kE MoreExamples.ex_KappaMap) (kappa.kB MoreExamples.ex_KappaMap)
              (kappa.kE MoreExamples.ex_KappaMap) (kappa.kB MoreExamples.ex_KappaMap)
              2%nat eq_refl eq_refl eq_refl eq_refl)
    as (S & HS & _ & Hentries).
  - lia.
  - split; [reflexivity|]. repeat constructor.
  - split; [reflexivity|]. repeat constructor.
  - exists S. split; [exact HS|].
    destruct (Hentries 0%nat 0%nat ltac:(lia) ltac:(lia)) as [_ H00].
    destruct (Hentries 0%nat 1%nat ltac:(lia) ltac:(lia)) as [H01i H01r].
    split; [exact H00|]. split; [exact H01i|]. exact H01r.
Defined.

(** The reduced chi-square of a fit to two points, with one parameter. *)
Lemma X20_chi_red_no_degrees_of_freedom_witness :
  exists chi,
    densmodel_test.chi_red [Fin 1; Fin (qz 2)] [Fin 1; Fin (qz 3)] [Fin 1; Fin 1] 1
      = OK chi /\ nonfinite chi.
Proof.
  apply (X20_chi_red_no_degrees_of_freedom [Fin 1; Fin (qz 2)] [Fin 1; Fin (qz 3)]
           [Fin 1; Fin 1] 1); [reflexivity | reflexivity | reflexivity].
Defined.

(** The reduced chi-square of a fit through three points. *)
Lemma X21_chi_red_perfect_fit_witness :
  densmodel_test.chi_red [Fin 1; Fin (qz 2); Fin (qz 3)] [Fin 1; Fin (qz 2); Fin (qz 3)]
    [Fin 1; Fin 1; Fin (qz 2)] 1 = OK (Fin 0).
Proof.
  apply (X21_chi_red_perfect_fit [Fin 1; Fin (qz 2); Fin (qz 3)]
           [Fin 1; Fin 1; Fin (qz 2)] 1).
  - reflexivity.
  - repeat constructor.
  - repeat constructor; qc_nonzero.
  - simpl. lia.
Defined.
